(** * AuraToken: the token allocation engine

    A shallow embedding of [app/models.py] and [app/allocation_engine.py]:
    the two tables the engine works on ([time_slots] and [tokens]), the
    SQLAlchemy session it mutates, and the engine's operations
    ([allocate_token], [cancel_token], [reallocate_token],
    [handle_emergency_insertion], [mark_no_show], [get_slot_queue]) with
    their private helpers.

    Conventions.
    - Python [int] is [Z]; [str] is [string] (a byte string); [Optional[T]]
      is [option T]; a table is the list of its rows in insertion order.
    - An [async] method is a computation in the monad [M] below, which
      threads the database and stops at the first raised exception, returning
      the database as it stands at the raise.
    - [datetime.utcnow()] is the argument [now] of the operations that read
      the clock (each reads it at most once). *)

From Stdlib Require Import ZArith List String Ascii Bool Lia DecimalString.
From Stdlib Require Import Sorting.Sorted Sorting.Permutation.
Import ListNotations.
Open Scope Z_scope.

(** ** Python helpers *)

Module Py.

(** [str(n)] for an [int]. *)
Definition str (n : Z) : string := NilZero.string_of_int (Z.to_int n).

Fixpoint zeros (n : nat) : string :=
  match n with
  | O => EmptyString
  | S k => String "0"%char (zeros k)
  end.

(** [s.zfill(width)] for an unsigned numeral [s]. *)
Definition zfill (width : nat) (s : string) : string :=
  String.append (zeros (width - String.length s)) s.

(** [f"{n:04d}"]: the sign, when there is one, counts in the width. *)
Definition format_04d (n : Z) : string :=
  if n <? 0 then String "-"%char (zfill 3 (str (- n))) else zfill 4 (str n).

(** [str.isspace] on the ASCII range. *)
Definition isspace (c : ascii) : bool :=
  let n := nat_of_ascii c in
  ((9 <=? n) && (n <=? 13) || (28 <=? n) && (n <=? 32))%nat.

Fixpoint lstrip (s : string) : string :=
  match s with
  | EmptyString => EmptyString
  | String c r => if isspace c then lstrip r else s
  end.

Fixpoint rev_append (s acc : string) : string :=
  match s with
  | EmptyString => acc
  | String c r => rev_append r (String c acc)
  end.

Definition rev (s : string) : string := rev_append s EmptyString.

(** [s.strip()]. *)
Definition strip (s : string) : string := rev (lstrip (rev (lstrip s))).

(** [s.replace("-", "")]. *)
Fixpoint remove_dashes (s : string) : string :=
  match s with
  | EmptyString => EmptyString
  | String c r =>
      if Ascii.eqb c "-"%char then remove_dashes r
      else String c (remove_dashes r)
  end.

(** Truth value of an [Optional[str]]: [None] and [""] are false. *)
Definition truthy (s : option string) : bool :=
  match s with
  | Some (String _ _) => true
  | _ => false
  end.

(** [s or ''] for an [Optional[str]]. *)
Definition or_empty (s : option string) : string :=
  match s with
  | Some x => x
  | None => EmptyString
  end.

Definition newline : string := String (ascii_of_nat 10) EmptyString.

End Py.

(** ** [datetime]

    A naive [datetime] is its calendar date and the time of day in
    microseconds; Python compares two of them field by field, which is the
    lexicographic order below. *)

Record datetime : Type := mkDatetime {
  dt_year : Z;
  dt_month : Z;
  dt_day : Z;
  dt_micros : Z
}.

Definition datetime_ltb (a b : datetime) : bool :=
  (dt_year a <? dt_year b)
  || (dt_year a =? dt_year b)
     && ((dt_month a <? dt_month b)
         || (dt_month a =? dt_month b)
            && ((dt_day a <? dt_day b)
                || (dt_day a =? dt_day b) && (dt_micros a <? dt_micros b))).

(** [a <= b] *)
Definition datetime_leb (a b : datetime) : bool := negb (datetime_ltb b a).

(** *** [datetime.strptime(s, "%Y-%m-%d")]

    The format compiles to the regular expression
    [(\d\d\d\d)-(1[0-2]|0[1-9]|[1-9])-(3[01]|[12]\d|0[1-9]|[1-9]| [1-9])],
    all of the string has to be consumed, and the date has to exist.
    [None] stands for the [ValueError] the call raises otherwise. *)

Module Strptime.

Definition digit (c : ascii) : option Z :=
  let n := nat_of_ascii c in
  if ((48 <=? n) && (n <=? 57))%nat then Some (Z.of_nat n - 48) else None.

(** Splits at every ["-"]. *)
Fixpoint split_dash (s : string) : list string :=
  match s with
  | EmptyString => [EmptyString]
  | String c r =>
      if Ascii.eqb c "-"%char then EmptyString :: split_dash r
      else match split_dash r with
           | [] => [String c EmptyString]
           | p :: ps => String c p :: ps
           end
  end.

(** [\d\d\d\d] *)
Definition year (s : string) : option Z :=
  match s with
  | String a (String b (String c (String d EmptyString))) =>
      match digit a, digit b, digit c, digit d with
      | Some a, Some b, Some c, Some d => Some (1000 * a + 100 * b + 10 * c + d)
      | _, _, _, _ => None
      end
  | _ => None
  end.

(** One or two digits, or a space and a digit when [space] allows it. *)
Definition one_or_two (space : bool) (s : string) : option Z :=
  match s with
  | String a EmptyString =>
      match digit a with
      | Some a => if 1 <=? a then Some a else None
      | None => None
      end
  | String a (String b EmptyString) =>
      match digit a, digit b with
      | Some a, Some b => if 1 <=? 10 * a + b then Some (10 * a + b) else None
      | None, Some b =>
          if space && Ascii.eqb a " "%char && (1 <=? b) then Some b else None
      | _, _ => None
      end
  | _ => None
  end.

Definition is_leap (y : Z) : bool :=
  (y mod 4 =? 0) && (negb (y mod 100 =? 0) || (y mod 400 =? 0)).

Definition days_in_month (y m : Z) : Z :=
  if m =? 2 then (if is_leap y then 29 else 28)
  else if (m =? 4) || (m =? 6) || (m =? 9) || (m =? 11) then 30
  else 31.

Definition strptime (s : string) : option datetime :=
  match split_dash s with
  | [ys; ms; ds] =>
      match year ys, one_or_two false ms, one_or_two true ds with
      | Some y, Some m, Some d =>
          if (1 <=? y) && (m <=? 12) && (d <=? days_in_month y m)
          then Some (mkDatetime y m d 0)
          else None
      | _, _, _ => None
      end
  | _ => None
  end.

End Strptime.

(** ** [app/models.py] *)

(** Token source types with priority ordering. *)
Inductive TokenSource : Type := PRIORITY | FOLLOW_UP | ONLINE | WALK_IN.

(** Token lifecycle states. *)
Inductive TokenStatus : Type :=
  ALLOCATED | CHECKED_IN | CONSULTING | COMPLETED | CANCELLED | NO_SHOW.

Definition TokenSource_eqb (a b : TokenSource) : bool :=
  match a, b with
  | PRIORITY, PRIORITY | FOLLOW_UP, FOLLOW_UP
  | ONLINE, ONLINE | WALK_IN, WALK_IN => true
  | _, _ => false
  end.

Definition TokenStatus_eqb (a b : TokenStatus) : bool :=
  match a, b with
  | ALLOCATED, ALLOCATED | CHECKED_IN, CHECKED_IN | CONSULTING, CONSULTING
  | COMPLETED, COMPLETED | CANCELLED, CANCELLED | NO_SHOW, NO_SHOW => true
  | _, _ => false
  end.

(** A row of [time_slots]. *)
Module TimeSlot.

Record t : Type := mk {
  id : Z;
  doctor_id : Z;
  date : string;        (* YYYY-MM-DD *)
  start_time : string;  (* HH:MM *)
  end_time : string;
  max_capacity : Z;
  current_count : Z;
  is_active : bool
}.

Definition set_current_count (c : Z) (s : t) : t :=
  mk (id s) (doctor_id s) (date s) (start_time s) (end_time s)
     (max_capacity s) c (is_active s).

(** The [available_capacity] property. *)
Definition available_capacity (s : t) : Z :=
  Z.max 0 (max_capacity s - current_count s).

(** The [is_full] property. *)
Definition is_full (s : t) : bool := current_count s >=? max_capacity s.

End TimeSlot.

(** A row of [tokens]. *)
Module Token.

Record t : Type := mk {
  id : Z;
  token_number : string;
  patient_name : string;
  patient_phone : string;
  doctor_id : Z;
  slot_id : Z;
  source : TokenSource;
  status : TokenStatus;
  priority_score : Z;
  sequence_number : Z;
  allocated_at : datetime;
  checked_in_at : option datetime;
  consultation_started_at : option datetime;
  completed_at : option datetime;
  notes : option string
}.

Definition set_slot_id (v : Z) (k : t) : t :=
  mk (id k) (token_number k) (patient_name k) (patient_phone k) (doctor_id k)
     v (source k) (status k) (priority_score k) (sequence_number k)
     (allocated_at k) (checked_in_at k) (consultation_started_at k)
     (completed_at k) (notes k).

Definition set_status (v : TokenStatus) (k : t) : t :=
  mk (id k) (token_number k) (patient_name k) (patient_phone k) (doctor_id k)
     (slot_id k) (source k) v (priority_score k) (sequence_number k)
     (allocated_at k) (checked_in_at k) (consultation_started_at k)
     (completed_at k) (notes k).

Definition set_sequence_number (v : Z) (k : t) : t :=
  mk (id k) (token_number k) (patient_name k) (patient_phone k) (doctor_id k)
     (slot_id k) (source k) (status k) (priority_score k) v
     (allocated_at k) (checked_in_at k) (consultation_started_at k)
     (completed_at k) (notes k).

Definition set_completed_at (v : option datetime) (k : t) : t :=
  mk (id k) (token_number k) (patient_name k) (patient_phone k) (doctor_id k)
     (slot_id k) (source k) (status k) (priority_score k) (sequence_number k)
     (allocated_at k) (checked_in_at k) (consultation_started_at k)
     v (notes k).

Definition set_notes (v : option string) (k : t) : t :=
  mk (id k) (token_number k) (patient_name k) (patient_phone k) (doctor_id k)
     (slot_id k) (source k) (status k) (priority_score k) (sequence_number k)
     (allocated_at k) (checked_in_at k) (consultation_started_at k)
     (completed_at k) v.

(** [token.notes = f"{token.notes or ''}\n{label}{text}".strip()]: the
    notes so far, a line break, and the new line. *)
Definition annotate (label text : string) (k : t) : t :=
  set_notes
    (Some (Py.strip (String.append (Py.or_empty (notes k))
                       (String.append Py.newline (String.append label text)))))
    k.

End Token.

(** [app/schemas.py]: the request consumed by [allocate_token] and
    [handle_emergency_insertion]. *)
Module TokenRequest.

Record t : Type := mk {
  patient_name : string;
  patient_phone : string;
  doctor_id : Z;
  slot_id : Z;
  source : TokenSource;
  notes : option string
}.

Definition set_source (v : TokenSource) (r : t) : t :=
  mk (patient_name r) (patient_phone r) (doctor_id r) (slot_id r) v (notes r).

End TokenRequest.

(** ** The database and the session

    [Store] is the content of the two tables.  The engine works through one
    SQLAlchemy session: [session] is what that session sees (its pending
    changes are flushed before every query, so every read sees them),
    [committed] is what [db.commit()] last made durable. *)

Record Store : Type := mkStore {
  slots : list TimeSlot.t;
  tokens : list Token.t
}.

Record Db : Type := mkDb {
  committed : Store;
  session : Store
}.

(** The messages of the [ValueError]s the engine raises, by their text. *)
Inductive Message : Type :=
| SlotNotFound (slot_id : Z)                 (* Slot {slot_id} not found *)
| SlotNotActive (slot_id : Z)                (* Slot {slot_id} is not active *)
| TokenNotFound (token_id : Z)               (* Token {token_id} not found *)
| SlotFullAlternative (slot_id alternative_id : Z) (start_time end_time : string)
                                             (* Slot .. is full. Alternative slot .. available. *)
| SlotAtMaximumCapacity (slot_id : Z)        (* Slot {slot.id} is at maximum capacity *)
| CannotCancel (status : TokenStatus)        (* Cannot cancel token in {status} status *)
| CannotMarkNoShow (status : TokenStatus)    (* Cannot mark token as no-show in {status} status *)
| DifferentDoctor                            (* Cannot reallocate token to different doctor's slot *)
| TargetSlotAtMaximumCapacity (slot_id : Z)  (* Target slot {new_slot_id} is at maximum capacity *)
| NoReallocationPossible                     (* Cannot insert emergency patient: slot full and no reallocation possible *)
| BadDate (date : string).                   (* raised by strptime *)

(** [IntegrityError] is what a flush raises when an INSERT breaks the
    [unique=True] constraint of [Token.token_number]. *)
Inductive Exn : Type :=
| ValueError (m : Message)
| IntegrityError.

(** A computation: the database after it, and what it raised or returned. *)
Definition M (A : Type) : Type := Db -> Db * (Exn + A).

Definition ret {A : Type} (a : A) : M A := fun db => (db, inr a).

Definition raise {A : Type} (e : Exn) : M A := fun db => (db, inl e).

Definition bind {A B : Type} (m : M A) (k : A -> M B) : M B :=
  fun db =>
    match m db with
    | (db', inl e) => (db', inl e)
    | (db', inr a) => k a db'
    end.

Declare Scope engine_scope.
Delimit Scope engine_scope with engine.
Notation "x <- c ;; k" := (bind c (fun x => k))
  (at level 61, c at next level, right associativity) : engine_scope.
Notation "c ;; k" := (bind c (fun _ => k))
  (at level 61, right associativity) : engine_scope.
Open Scope engine_scope.

(** *** Rows by primary key *)

Definition find_slot (slot_id : Z) (l : list TimeSlot.t) : option TimeSlot.t :=
  find (fun s => TimeSlot.id s =? slot_id) l.

Definition find_token (token_id : Z) (l : list Token.t) : option Token.t :=
  find (fun k => Token.id k =? token_id) l.

(** Attribute assignment on the ORM object of a row: the row with that
    primary key is replaced by its image. *)
Fixpoint update_slot (slot_id : Z) (f : TimeSlot.t -> TimeSlot.t)
    (l : list TimeSlot.t) : list TimeSlot.t :=
  match l with
  | [] => []
  | s :: r =>
      if TimeSlot.id s =? slot_id then f s :: r
      else s :: update_slot slot_id f r
  end.

Fixpoint update_token (token_id : Z) (f : Token.t -> Token.t)
    (l : list Token.t) : list Token.t :=
  match l with
  | [] => []
  | k :: r =>
      if Token.id k =? token_id then f k :: r
      else k :: update_token token_id f r
  end.

(** *** Session primitives *)

Definition read {A : Type} (q : Store -> A) : M A :=
  fun db => (db, inr (q (session db))).

Definition modify_slot (slot_id : Z) (f : TimeSlot.t -> TimeSlot.t) : M unit :=
  fun db =>
    (mkDb (committed db)
          (mkStore (update_slot slot_id f (slots (session db)))
                   (tokens (session db))),
     inr tt).

Definition modify_token (token_id : Z) (f : Token.t -> Token.t) : M unit :=
  fun db =>
    (mkDb (committed db)
          (mkStore (slots (session db))
                   (update_token token_id f (tokens (session db)))),
     inr tt).

(** [await self.db.flush()] when no INSERT is pending: the UPDATEs it emits
    cannot fail, and the session store already shows them. *)
Definition db_flush : M unit := ret tt.

(** [await self.db.commit()] *)
Definition db_commit : M unit :=
  fun db => (mkDb (session db) (session db), inr tt).

(** [session.rollback()], which [get_db] runs when a request raises. *)
Definition db_rollback : M unit :=
  fun db => (mkDb (committed db) (committed db), inr tt).

(** The primary key SQLite gives a new row of [tokens]. *)
Definition next_token_id (l : list Token.t) : Z :=
  fold_right (fun k m => Z.max (Token.id k) m) 0 l + 1.

(** [self.db.add(token)] followed by the flush that INSERTs it: the row gets
    its primary key and its [allocated_at] default.  When the token number is
    taken, the flush raises [IntegrityError] and the transaction is rolled
    back. *)
Definition db_add_flush (now : datetime) (mk_token : Z -> datetime -> Token.t)
  : M Token.t :=
  fun db =>
    let st := session db in
    let token := mk_token (next_token_id (tokens st)) now in
    if existsb (fun k => String.eqb (Token.token_number k) (Token.token_number token))
               (tokens st)
    then (mkDb (committed db) (committed db), inl IntegrityError)
    else (mkDb (committed db) (mkStore (slots st) (tokens st ++ [token])),
          inr token).

(** The ORM object [token] as the session holds it now. *)
Definition current (token : Token.t) : M Token.t :=
  read (fun st =>
          match find_token (Token.id token) (tokens st) with
          | Some k => k
          | None => token
          end).

(** ** Sorting rows: [ORDER BY]

    A stable insertion sort: rows that tie on every key keep their table
    order. *)

Section OrderBy.

Context {A : Type} (leb : A -> A -> bool).

Fixpoint insert_by (x : A) (l : list A) : list A :=
  match l with
  | [] => [x]
  | y :: r => if leb x y then x :: y :: r else y :: insert_by x r
  end.

Fixpoint order_by (l : list A) : list A :=
  match l with
  | [] => []
  | x :: r => insert_by x (order_by r)
  end.

End OrderBy.

(** ** [app/allocation_engine.py]: [TokenAllocationEngine] *)

(** Priority weights for different token sources. *)
Definition PRIORITY_WEIGHTS (source : TokenSource) : Z :=
  match source with
  | PRIORITY => 10
  | FOLLOW_UP => 5
  | ONLINE => 3
  | WALK_IN => 1
  end.

(** Statuses that [get_slot_queue] keeps. *)
Definition occupying (status : TokenStatus) : bool :=
  match status with
  | ALLOCATED | CHECKED_IN | CONSULTING => true
  | COMPLETED | CANCELLED | NO_SHOW => false
  end.

(** [ORDER BY priority_score DESC, sequence_number ASC, allocated_at ASC] *)
Definition queue_leb (a b : Token.t) : bool :=
  (Token.priority_score b <? Token.priority_score a)
  || (Token.priority_score a =? Token.priority_score b)
     && ((Token.sequence_number a <? Token.sequence_number b)
         || (Token.sequence_number a =? Token.sequence_number b)
            && datetime_leb (Token.allocated_at a) (Token.allocated_at b)).

(** The query of [get_slot_queue]. *)
Definition slot_queue (slot_id : Z) (l : list Token.t) : list Token.t :=
  order_by queue_leb
    (filter (fun k => (Token.slot_id k =? slot_id) && occupying (Token.status k)) l).

(** Get ordered queue for a slot based on priority and sequence. *)
Definition get_slot_queue (slot_id : Z) : M (list Token.t) :=
  read (fun st => slot_queue slot_id (tokens st)).

(** Fetch and validate slot. *)
Definition _get_slot_with_validation (slot_id : Z) : M TimeSlot.t :=
  slot <- read (fun st => find_slot slot_id (slots st)) ;;
  match slot with
  | None => raise (ValueError (SlotNotFound slot_id))
  | Some slot =>
      if negb (TimeSlot.is_active slot)
      then raise (ValueError (SlotNotActive slot_id))
      else ret slot
  end.

(** Fetch token by ID. *)
Definition _get_token (token_id : Z) : M Token.t :=
  token <- read (fun st => find_token token_id (tokens st)) ;;
  match token with
  | None => raise (ValueError (TokenNotFound token_id))
  | Some token => ret token
  end.

(** Calculate priority score based on source and timing. *)
Definition _calculate_priority_score (source : TokenSource) (current_count : Z) : Z :=
  let base_score := PRIORITY_WEIGHTS source in
  let timing_bonus := Z.max 0 (10 - current_count) in
  base_score * 10 + timing_bonus.

(** [SELECT max(sequence_number) FROM tokens WHERE slot_id = ?] *)
Definition max_sequence_number (slot_id : Z) (l : list Token.t) : option Z :=
  fold_right
    (fun k m =>
       if Token.slot_id k =? slot_id then
         match m with
         | None => Some (Token.sequence_number k)
         | Some v => Some (Z.max (Token.sequence_number k) v)
         end
       else m)
    None l.

(** Get next sequence number for slot: [(max_seq or 0) + 1]. *)
Definition _get_next_sequence_number (slot_id : Z) : M Z :=
  max_seq <- read (fun st => max_sequence_number slot_id (tokens st)) ;;
  ret (match max_seq with
       | None => 0
       | Some v => v
       end + 1).

(** [SELECT count(id) FROM tokens WHERE doctor_id = ? AND allocated_at >= ?] *)
Definition count_tokens_since (doctor_id : Z) (since : datetime)
    (l : list Token.t) : Z :=
  Z.of_nat
    (List.length
       (filter (fun k => (Token.doctor_id k =? doctor_id)
                         && datetime_leb since (Token.allocated_at k)) l)).

(** The f-string [DOC{doctor_id}-{date_short}-{count + 1:04d}]. *)
Definition token_number_text (doctor_id : Z) (date : string) (count : Z) : string :=
  String.append "DOC"
    (String.append (Py.str doctor_id)
       (String.append "-"
          (String.append (Py.remove_dashes date)
             (String.append "-" (Py.format_04d (count + 1)))))).

(** Generate unique token number: DOC{doctor_id}-{date}-{seq}. *)
Definition _generate_token_number (doctor_id : Z) (date : string) : M string :=
  match Strptime.strptime date with
  | None => raise (ValueError (BadDate date))
  | Some since =>
      count <- read (fun st => count_tokens_since doctor_id since (tokens st)) ;;
      ret (token_number_text doctor_id date count)
  end.

(** The query of [_find_alternative_slot]:
    [WHERE doctor_id = ? AND date = ? AND is_active AND
     current_count < max_capacity ORDER BY start_time LIMIT 1]. *)
Definition alternative_slot (doctor_id : Z) (date : string)
    (l : list TimeSlot.t) : option TimeSlot.t :=
  hd_error
    (order_by (fun a b => String.leb (TimeSlot.start_time a) (TimeSlot.start_time b))
       (filter (fun s => (TimeSlot.doctor_id s =? doctor_id)
                         && String.eqb (TimeSlot.date s) date
                         && TimeSlot.is_active s
                         && (TimeSlot.current_count s <? TimeSlot.max_capacity s))
               l)).

(** Find alternative available slot for same doctor and date. *)
Definition _find_alternative_slot (doctor_id : Z) (date : string)
  : M (option TimeSlot.t) :=
  read (fun st => alternative_slot doctor_id date (slots st)).

(** [for idx, token in enumerate(tokens, start=idx): token.sequence_number = idx] *)
Fixpoint assign_sequence_numbers (idx : Z) (queue : list Token.t) : M unit :=
  match queue with
  | [] => ret tt
  | token :: rest =>
      modify_token (Token.id token) (Token.set_sequence_number idx) ;;
      assign_sequence_numbers (idx + 1) rest
  end.

(** Resequence tokens in a slot after cancellation/reallocation. *)
Definition _resequence_slot_tokens (slot_id : Z) : M unit :=
  queue <- get_slot_queue slot_id ;;
  assign_sequence_numbers 1 queue ;;
  db_commit.

(** [slot.current_count = max(0, slot.current_count - 1)] *)
Definition release (slot : TimeSlot.t) : TimeSlot.t :=
  TimeSlot.set_current_count (Z.max 0 (TimeSlot.current_count slot - 1)) slot.

(** [slot.current_count += 1] *)
Definition reserve (slot : TimeSlot.t) : TimeSlot.t :=
  TimeSlot.set_current_count (TimeSlot.current_count slot + 1) slot.

(** [if reason: token.notes = f"{token.notes or ''}\n<label>{reason}".strip()] *)
Definition note_reason (token_id : Z) (label : string) (reason : option string)
  : M unit :=
  if Py.truthy reason
  then modify_token token_id (Token.annotate label (Py.or_empty reason))
  else ret tt.

(** Allocate a token with intelligent priority management. *)
Definition allocate_token (now : datetime) (request : TokenRequest.t) : M Token.t :=
  slot <- _get_slot_with_validation (TokenRequest.slot_id request) ;;
  if TimeSlot.current_count slot >=? TimeSlot.max_capacity slot then
    alternative <- _find_alternative_slot (TokenRequest.doctor_id request)
                     (TimeSlot.date slot) ;;
    match alternative with
    | Some alternative =>
        raise (ValueError (SlotFullAlternative (TimeSlot.id slot)
                             (TimeSlot.id alternative)
                             (TimeSlot.start_time alternative)
                             (TimeSlot.end_time alternative)))
    | None => raise (ValueError (SlotAtMaximumCapacity (TimeSlot.id slot)))
    end
  else
    let priority_score :=
      _calculate_priority_score (TokenRequest.source request)
        (TimeSlot.current_count slot) in
    sequence_number <- _get_next_sequence_number (TimeSlot.id slot) ;;
    token_number <- _generate_token_number (TimeSlot.doctor_id slot)
                      (TimeSlot.date slot) ;;
    modify_slot (TimeSlot.id slot) reserve ;;
    token <- db_add_flush now
               (fun id allocated_at =>
                  Token.mk id token_number
                    (TokenRequest.patient_name request)
                    (TokenRequest.patient_phone request)
                    (TokenRequest.doctor_id request)
                    (TokenRequest.slot_id request)
                    (TokenRequest.source request)
                    ALLOCATED priority_score sequence_number
                    allocated_at None None None
                    (TokenRequest.notes request)) ;;
    current token.

(** Cancel a token and free up slot capacity. *)
Definition cancel_token (now : datetime) (token_id : Z) (reason : option string)
  : M Token.t :=
  token <- _get_token token_id ;;
  match Token.status token with
  | COMPLETED | CANCELLED =>
      raise (ValueError (CannotCancel (Token.status token)))
  | _ =>
      modify_token token_id (Token.set_status CANCELLED) ;;
      modify_token token_id (Token.set_completed_at (Some now)) ;;
      note_reason token_id "Cancellation: " reason ;;
      slot <- _get_slot_with_validation (Token.slot_id token) ;;
      modify_slot (TimeSlot.id slot) release ;;
      db_flush ;;
      _resequence_slot_tokens (Token.slot_id token) ;;
      current token
  end.

(** Reallocate token to a different slot (handle delays/changes). *)
Definition reallocate_token (token_id new_slot_id : Z) (reason : option string)
  : M Token.t :=
  token <- _get_token token_id ;;
  old_slot <- _get_slot_with_validation (Token.slot_id token) ;;
  new_slot <- _get_slot_with_validation new_slot_id ;;
  if negb (Token.doctor_id token =? TimeSlot.doctor_id new_slot) then
    raise (ValueError DifferentDoctor)
  else if TimeSlot.current_count new_slot >=? TimeSlot.max_capacity new_slot then
    raise (ValueError (TargetSlotAtMaximumCapacity new_slot_id))
  else
    modify_slot (TimeSlot.id old_slot) release ;;
    modify_slot (TimeSlot.id new_slot) reserve ;;
    modify_token token_id (Token.set_slot_id new_slot_id) ;;
    sequence_number <- _get_next_sequence_number new_slot_id ;;
    modify_token token_id (Token.set_sequence_number sequence_number) ;;
    note_reason token_id "Reallocation: " reason ;;
    db_flush ;;
    _resequence_slot_tokens (TimeSlot.id old_slot) ;;
    _resequence_slot_tokens (TimeSlot.id new_slot) ;;
    current token.

(** [ORDER BY priority_score ASC, allocated_at DESC] *)
Definition bump_leb (a b : Token.t) : bool :=
  (Token.priority_score a <? Token.priority_score b)
  || (Token.priority_score a =? Token.priority_score b)
     && datetime_leb (Token.allocated_at b) (Token.allocated_at a).

(** The query of [_reallocate_lowest_priority]:
    [WHERE slot_id = ? AND source = WALK_IN AND status = ALLOCATED
     ORDER BY priority_score, allocated_at DESC LIMIT 1]. *)
Definition lowest_priority_walk_in (slot_id : Z) (l : list Token.t)
  : option Token.t :=
  hd_error
    (order_by bump_leb
       (filter (fun k => (Token.slot_id k =? slot_id)
                         && TokenSource_eqb (Token.source k) WALK_IN
                         && TokenStatus_eqb (Token.status k) ALLOCATED)
               l)).

(** Try to reallocate lowest priority walk-in patient to another slot.
    Returns True if successful, False otherwise. *)
Definition _reallocate_lowest_priority (slot_id : Z) : M bool :=
  token <- read (fun st => lowest_priority_walk_in slot_id (tokens st)) ;;
  match token with
  | None => ret false
  | Some token =>
      slot <- _get_slot_with_validation slot_id ;;
      alternative <- _find_alternative_slot (Token.doctor_id token)
                       (TimeSlot.date slot) ;;
      match alternative with
      | Some alternative =>
          reallocate_token (Token.id token) (TimeSlot.id alternative)
            (Some "Auto-reallocation for emergency insertion"%string) ;;
          ret true
      | None => ret false
      end
  end.

(** Handle emergency patient insertion. *)
Definition handle_emergency_insertion (now : datetime) (request : TokenRequest.t)
    (force : bool) : M Token.t :=
  slot <- _get_slot_with_validation (TokenRequest.slot_id request) ;;
  (if (TimeSlot.current_count slot >=? TimeSlot.max_capacity slot) && negb force
   then
     reallocated <- _reallocate_lowest_priority (TimeSlot.id slot) ;;
     if negb reallocated then
       if force then ret tt
       else raise (ValueError NoReallocationPossible)
     else ret tt
   else ret tt) ;;
  let request := TokenRequest.set_source PRIORITY request in
  token <- allocate_token now request ;;
  modify_token (Token.id token) (Token.annotate "" "EMERGENCY INSERTION") ;;
  db_flush ;;
  current token.

(** Mark patient as no-show and free capacity. *)
Definition mark_no_show (now : datetime) (token_id : Z) : M Token.t :=
  token <- _get_token token_id ;;
  if negb (TokenStatus_eqb (Token.status token) ALLOCATED) then
    raise (ValueError (CannotMarkNoShow (Token.status token)))
  else
    modify_token token_id (Token.set_status NO_SHOW) ;;
    modify_token token_id (Token.set_completed_at (Some now)) ;;
    slot <- _get_slot_with_validation (Token.slot_id token) ;;
    modify_slot (TimeSlot.id slot) release ;;
    db_flush ;;
    current token.

(** ** What the callers do with the session ([app/api.py], [app/database.py])

    An endpoint commits when the engine returns; when the engine raises, the
    exception leaves [get_db], which rolls the session back. *)
Definition endpoint {A : Type} (m : M A) : M A :=
  fun db =>
    match m db with
    | (db', inl e) => (mkDb (committed db') (committed db'), inl e)
    | (db', inr a) => (mkDb (session db') (session db'), inr a)
    end.

(** ** Vocabulary of the properties *)

(** The pure image of [assign_sequence_numbers] on the [tokens] table. *)
Fixpoint renumber (idx : Z) (queue : list Token.t) (l : list Token.t)
  : list Token.t :=
  match queue with
  | [] => l
  | token :: rest =>
      renumber (idx + 1) rest
        (update_token (Token.id token) (Token.set_sequence_number idx) l)
  end.

(** [0 <= current_count <= max_capacity] *)
Definition within_capacity (s : TimeSlot.t) : Prop :=
  0 <= TimeSlot.current_count s <= TimeSlot.max_capacity s.

Definition capacity_ok (db : Db) : Prop :=
  Forall within_capacity (slots (committed db))
  /\ Forall within_capacity (slots (session db)).

(** [current_count] of the slot with that primary key. *)
Definition count_of (slot_id : Z) (st : Store) : option Z :=
  option_map TimeSlot.current_count (find_slot slot_id (slots st)).

(** The operations of the engine that move slot counters, and what a caller
    may do with the session between two of them. *)
Inductive Operation : Type :=
| Allocate (now : datetime) (request : TokenRequest.t)
| Cancel (now : datetime) (token_id : Z) (reason : option string)
| MarkNoShow (now : datetime) (token_id : Z)
| Reallocate (token_id new_slot_id : Z) (reason : option string)
| EmergencyInsert (now : datetime) (request : TokenRequest.t) (force : bool)
| Commit
| Rollback.

Definition run (op : Operation) (db : Db) : Db :=
  match op with
  | Allocate now request => fst (allocate_token now request db)
  | Cancel now token_id reason => fst (cancel_token now token_id reason db)
  | MarkNoShow now token_id => fst (mark_no_show now token_id db)
  | Reallocate token_id new_slot_id reason =>
      fst (reallocate_token token_id new_slot_id reason db)
  | EmergencyInsert now request force =>
      fst (handle_emergency_insertion now request force db)
  | Commit => fst (db_commit db)
  | Rollback => fst (db_rollback db)
  end.

(** The databases after each operation of a sequence, in order. *)
Fixpoint trace (ops : list Operation) (db : Db) : list Db :=
  match ops with
  | [] => []
  | op :: rest => run op db :: trace rest (run op db)
  end.

(** The sort keys of [get_slot_queue]. *)
Definition queue_key (k : Token.t) : Z * Z * datetime :=
  (Token.priority_score k, Token.sequence_number k, Token.allocated_at k).

(** [a] comes strictly before [b] in the order of [get_slot_queue]. *)
Definition queue_before (a b : Token.t) : bool := negb (queue_leb b a).

(** The rows [get_slot_queue] selects. *)
Definition in_queue (slot_id : Z) (k : Token.t) : bool :=
  (Token.slot_id k =? slot_id) && occupying (Token.status k).

(** Sorted for a boolean order: every row is below all the rows after it. *)
Definition sorted_by {A : Type} (leb : A -> A -> bool) (l : list A) : Prop :=
  StronglySorted (fun a b => leb a b = true) l.

(** Between [db] and [db'] the slot [old_slot_id] lost exactly one unit and
    the slot [new_slot_id] gained exactly one. *)
Definition moves_one_unit (db db' : Db) (old_slot_id new_slot_id : Z) : Prop :=
  exists old_count new_count,
    count_of old_slot_id (session db) = Some old_count
    /\ count_of new_slot_id (session db) = Some new_count
    /\ count_of old_slot_id (session db') = Some (old_count - 1)
    /\ count_of new_slot_id (session db') = Some (new_count + 1).

(** ** Scenarios

    Concrete databases, built by running the engine from freshly created
    slots wherever the engine can produce them. *)

Module Scenario.

Definition request (name : string) (doctor_id slot_id : Z) (source : TokenSource)
  : TokenRequest.t :=
  TokenRequest.mk name "+1 555 010 0000" doctor_id slot_id source None.

(** A slot as [create_time_slot] makes it: empty and active. *)
Definition new_slot (id doctor_id : Z) (date start_time end_time : string)
    (max_capacity : Z) : TimeSlot.t :=
  TimeSlot.mk id doctor_id date start_time end_time max_capacity 0 true.

Definition fresh (l : list TimeSlot.t) : Db :=
  mkDb (mkStore l []) (mkStore l []).

(** The database after a request served by [endpoint]. *)
Definition after {A : Type} (m : M A) (db : Db) : Db := fst (endpoint m db).

(** 2030-01-[day], [hour]:00. *)
Definition at_hour (day hour : Z) : datetime :=
  mkDatetime 2030 1 day (hour * 3600000000).

(** *** One slot of capacity 1, taken by a walk-in. *)
Definition single : Db := fresh [new_slot 1 1 "2030-01-01" "09:00" "10:00" 1].

Definition single_full : Db :=
  after (allocate_token (at_hour 1 8) (request "A" 1 1 WALK_IN)) single.

(** *** One slot of capacity 2 with two walk-ins, the first marked no-show. *)
Definition pair_slot : Db := fresh [new_slot 1 1 "2030-01-01" "09:00" "10:00" 2].

Definition pair_after_no_show : Db :=
  after (mark_no_show (at_hour 1 9) 1)
    (after (allocate_token (at_hour 1 8) (request "B" 1 1 WALK_IN))
       (after (allocate_token (at_hour 1 8) (request "A" 1 1 WALK_IN)) pair_slot)).

Definition pair_after_cancel : Db :=
  after (cancel_token (at_hour 1 9) 1 None) pair_after_no_show.

Definition pair_overbooked : Db :=
  after (allocate_token (at_hour 1 9) (request "D" 1 1 WALK_IN))
    (after (allocate_token (at_hour 1 9) (request "C" 1 1 WALK_IN))
       pair_after_cancel).

(** *** Two slots of one doctor on one day. *)
Definition two_slots : Db :=
  fresh [new_slot 1 1 "2030-01-01" "09:00" "10:00" 1;
         new_slot 2 1 "2030-01-01" "10:00" "11:00" 1].

(** Token 1 allocated in slot 1. *)
Definition two_slots_booked : Db :=
  after (allocate_token (at_hour 1 8) (request "A" 1 1 WALK_IN)) two_slots.

(** Token 1 allocated in slot 1, then cancelled: slot 1 is back at 0. *)
Definition two_slots_cancelled : Db :=
  after (cancel_token (at_hour 1 9) 1 None) two_slots_booked.

(** *** A token whose slot has been deactivated since. *)
Definition deactivated : Db :=
  let token :=
    Token.mk 1 "DOC1-20300101-0001" "A" "+1 555 010 0000" 1 1 WALK_IN ALLOCATED
      20 1 (at_hour 1 8) None None None None in
  let st :=
    mkStore [TimeSlot.mk 1 1 "2030-01-01" "09:00" "10:00" 1 1 false] [token] in
  mkDb st st.

(** *** Booking ahead: the slots are dated 2030-01-02, the clock says
    2030-01-01. *)
Definition ahead : Db :=
  fresh [new_slot 1 1 "2030-01-02" "09:00" "10:00" 1;
         new_slot 2 1 "2030-01-02" "10:00" "11:00" 1].

Definition ahead_booked : Db :=
  after (allocate_token (at_hour 1 8) (request "A" 1 1 WALK_IN)) ahead.

Definition ahead_roomy : Db := fresh [new_slot 1 1 "2030-01-02" "09:00" "10:00" 5].

Definition ahead_roomy_booked : Db :=
  after (allocate_token (at_hour 1 8) (request "A" 1 1 WALK_IN)) ahead_roomy.

(** *** One doctor, a slot on each of two days; a token for the first day, a
    token for the second, then another one for the first. *)
Definition two_days : Db :=
  fresh [new_slot 1 1 "2030-01-01" "09:00" "10:00" 5;
         new_slot 2 1 "2030-01-02" "09:00" "10:00" 5].

Definition two_days_booked : Db :=
  after (allocate_token (at_hour 2 9) (request "B" 1 2 WALK_IN))
    (after (allocate_token (at_hour 1 9) (request "A" 1 1 WALK_IN)) two_days).

(** *** Two doctors: slots 1 and 2 belong to doctor 1, slot 3 to doctor 2. *)
Definition two_doctors : Db :=
  fresh [new_slot 1 1 "2030-01-01" "09:00" "10:00" 1;
         new_slot 2 1 "2030-01-01" "10:00" "11:00" 1;
         new_slot 3 2 "2030-01-01" "09:30" "10:30" 1].

(** A request for slot 1 that names doctor 2. *)
Definition mismatched : TokenRequest.t := request "A" 2 1 ONLINE.

(** *** A full slot of capacity 2 whose lowest-scored walk-in has checked
    in. *)
Definition walk_in (id slot_id : Z) (status : TokenStatus) (score sequence : Z)
    (allocated_at : datetime) : Token.t :=
  Token.mk id
    (token_number_text 1 "2030-01-01" (id - 1)) "W" "+1 555 010 0000" 1 slot_id
    WALK_IN status score sequence allocated_at None None None None.

Definition early : Token.t := walk_in 1 1 ALLOCATED 20 1 (at_hour 1 8).

Definition late : Token.t := walk_in 2 1 CHECKED_IN 19 2 (at_hour 1 9).

Definition checked_in_store : Store :=
  mkStore [TimeSlot.mk 1 1 "2030-01-01" "09:00" "10:00" 2 2 true;
           new_slot 2 1 "2030-01-01" "10:00" "11:00" 2]
          [early; late].

Definition checked_in : Db := mkDb checked_in_store checked_in_store.

(** *** Two rows that agree on every sort key of the queue. *)
Definition twin_a : Token.t := walk_in 1 1 ALLOCATED 20 1 (at_hour 1 8).

Definition twin_b : Token.t := walk_in 2 1 ALLOCATED 20 1 (at_hour 1 8).

End Scenario.

(** ** [app/api.py] and [app/database.py]: the endpoints around the engine *)

(** A row of [doctors]. *)
Module Doctor.

Record t : Type := mk {
  id : Z;
  name : string;
  specialization : string;
  is_active : bool;
  created_at : datetime
}.

End Doctor.

(** [app/schemas.py]: the body of [POST /slots]. *)
Module TimeSlotCreate.

Record t : Type := mk {
  date : string;
  start_time : string;
  end_time : string;
  max_capacity : Z;
  doctor_id : Z
}.

End TimeSlotCreate.

(** The [detail] of the [HTTPException]s the endpoints raise. *)
Inductive Detail : Type :=
| DoctorNotFound                 (* Doctor not found *)
| OverlappingSlot                (* Overlapping slot exists for this doctor *)
| TokenNotFoundDetail            (* Token not found *)
| EngineError (m : Message).     (* str(e) of the engine's ValueError *)

(** What leaves an endpoint: an [HTTPException], or an exception no handler
    catches. *)
Inductive ApiExn : Type :=
| HTTPException (status_code : Z) (detail : Detail)
| UncaughtIntegrityError
| MultipleResultsFound.

Module Api.

Definition t (A : Type) : Type := Db -> Db * (ApiExn + A).

(** [get_db]: every request gets a session of its own, which starts from
    what is committed; the session is committed when the endpoint returns
    and rolled back when it raises. *)
Definition get_db {A : Type} (body : t A) : t A :=
  fun db =>
    match body (mkDb (committed db) (committed db)) with
    | (db', inl e) => (mkDb (committed db') (committed db'), inl e)
    | (db', inr a) => (mkDb (session db') (session db'), inr a)
    end.

(** [try: token = await engine...; await db.commit(); await db.refresh(token);
     return token
     except ValueError as e: raise HTTPException(status_code=400, detail=str(e))] *)
Definition call_engine (m : M Token.t) : t Token.t :=
  fun db =>
    match (token <- m ;; db_commit ;; current token) db with
    | (db', inl (ValueError msg)) => (db', inl (HTTPException 400 (EngineError msg)))
    | (db', inl IntegrityError) => (db', inl UncaughtIntegrityError)
    | (db', inr token) => (db', inr token)
    end.

(** [POST /tokens] *)
Definition allocate_token (now : datetime) (token_request : TokenRequest.t)
    (emergency : bool) : t Token.t :=
  get_db
    (call_engine
       (if emergency
        then handle_emergency_insertion now token_request true
        else allocate_token now token_request)).

(** [POST /tokens/{token_id}/cancel] *)
Definition cancel_token (now : datetime) (token_id : Z) (reason : option string)
  : t Token.t :=
  get_db (call_engine (cancel_token now token_id reason)).

(** [POST /tokens/{token_id}/reallocate] *)
Definition reallocate_token (token_id new_slot_id : Z) (reason : option string)
  : t Token.t :=
  get_db (call_engine (reallocate_token token_id new_slot_id reason)).

(** [POST /tokens/{token_id}/no-show] *)
Definition mark_no_show (now : datetime) (token_id : Z) : t Token.t :=
  get_db (call_engine (mark_no_show now token_id)).

Definition set_checked_in_at (v : option datetime) (k : Token.t) : Token.t :=
  Token.mk (Token.id k) (Token.token_number k) (Token.patient_name k)
    (Token.patient_phone k) (Token.doctor_id k) (Token.slot_id k) (Token.source k)
    (Token.status k) (Token.priority_score k) (Token.sequence_number k)
    (Token.allocated_at k) v (Token.consultation_started_at k)
    (Token.completed_at k) (Token.notes k).

Definition set_consultation_started_at (v : option datetime) (k : Token.t) : Token.t :=
  Token.mk (Token.id k) (Token.token_number k) (Token.patient_name k)
    (Token.patient_phone k) (Token.doctor_id k) (Token.slot_id k) (Token.source k)
    (Token.status k) (Token.priority_score k) (Token.sequence_number k)
    (Token.allocated_at k) (Token.checked_in_at k) v
    (Token.completed_at k) (Token.notes k).

(** The assignments of [update_token_status] on the token. *)
Definition stamp_status (now : datetime) (status : TokenStatus) (k : Token.t)
  : Token.t :=
  let k := Token.set_status status k in
  match status with
  | CHECKED_IN => set_checked_in_at (Some now) k
  | CONSULTING => set_consultation_started_at (Some now) k
  | COMPLETED | CANCELLED | NO_SHOW => Token.set_completed_at (Some now) k
  | ALLOCATED => k
  end.

(** [PATCH /tokens/{token_id}/status] *)
Definition update_token_status (now : datetime) (token_id : Z)
    (status : TokenStatus) : t Token.t :=
  get_db
    (fun db =>
       match find_token token_id (tokens (session db)) with
       | None => (db, inl (HTTPException 404 TokenNotFoundDetail))
       | Some token =>
           let st :=
             mkStore (slots (session db))
               (update_token token_id (stamp_status now status)
                  (tokens (session db))) in
           (mkDb st st, inr (stamp_status now status token))
       end).

(** The WHERE clause of the overlap query of [create_time_slot]. *)
Definition overlaps (slot : TimeSlotCreate.t) (s : TimeSlot.t) : bool :=
  (TimeSlot.doctor_id s =? TimeSlotCreate.doctor_id slot)
  && String.eqb (TimeSlot.date s) (TimeSlotCreate.date slot)
  && TimeSlot.is_active s
  && ((String.leb (TimeSlot.start_time s) (TimeSlotCreate.start_time slot)
       && String.ltb (TimeSlotCreate.start_time slot) (TimeSlot.end_time s))
      || (String.ltb (TimeSlot.start_time s) (TimeSlotCreate.end_time slot)
          && String.leb (TimeSlotCreate.end_time slot) (TimeSlot.end_time s))).

(** The primary key SQLite gives a new row of [time_slots]. *)
Definition next_slot_id (l : list TimeSlot.t) : Z :=
  fold_right (fun s m => Z.max (TimeSlot.id s) m) 0 l + 1.

(** [POST /slots].  The [doctors] table, which nothing here writes, is an
    argument. *)
Definition create_time_slot (doctors : list Doctor.t) (slot : TimeSlotCreate.t)
  : t TimeSlot.t :=
  get_db
    (fun db =>
       match find (fun d => Doctor.id d =? TimeSlotCreate.doctor_id slot) doctors with
       | None => (db, inl (HTTPException 404 DoctorNotFound))
       | Some _ =>
           match filter (overlaps slot) (slots (session db)) with
           | [] =>
               let db_slot :=
                 TimeSlot.mk (next_slot_id (slots (session db)))
                   (TimeSlotCreate.doctor_id slot) (TimeSlotCreate.date slot)
                   (TimeSlotCreate.start_time slot) (TimeSlotCreate.end_time slot)
                   (TimeSlotCreate.max_capacity slot) 0 true in
               (mkDb (committed db)
                     (mkStore (slots (session db) ++ [db_slot]) (tokens (session db))),
                inr db_slot)
           | [_] => (db, inl (HTTPException 400 OverlappingSlot))
           | _ :: _ :: _ => (db, inl MultipleResultsFound)
           end
       end).

End Api.

(** A request to one of the endpoints that write. *)
Inductive Request : Type :=
| PostSlot (doctors : list Doctor.t) (slot : TimeSlotCreate.t)
| PostToken (now : datetime) (token_request : TokenRequest.t) (emergency : bool)
| PostCancel (now : datetime) (token_id : Z) (reason : option string)
| PostReallocate (token_id new_slot_id : Z) (reason : option string)
| PostNoShow (now : datetime) (token_id : Z)
| PatchStatus (now : datetime) (token_id : Z) (status : TokenStatus).

Definition outcome {A : Type} (x : Db * (ApiExn + A)) : Db * option ApiExn :=
  (fst x,
   match snd x with
   | inl e => Some e
   | inr _ => None
   end).

(** The database after a request, and the exception it ended with, if any. *)
Definition serve (r : Request) (db : Db) : Db * option ApiExn :=
  match r with
  | PostSlot doctors slot => outcome (Api.create_time_slot doctors slot db)
  | PostToken now token_request emergency =>
      outcome (Api.allocate_token now token_request emergency db)
  | PostCancel now token_id reason => outcome (Api.cancel_token now token_id reason db)
  | PostReallocate token_id new_slot_id reason =>
      outcome (Api.reallocate_token token_id new_slot_id reason db)
  | PostNoShow now token_id => outcome (Api.mark_no_show now token_id db)
  | PatchStatus now token_id status =>
      outcome (Api.update_token_status now token_id status db)
  end.

(** The databases after each request of a sequence. *)
Fixpoint serve_all (requests : list Request) (db : Db) : list Db :=
  match requests with
  | [] => []
  | r :: rest => fst (serve r db) :: serve_all rest (fst (serve r db))
  end.

(** What the schema [TimeSlotCreate] lets through on [max_capacity]:
    [Field(..., ge=1, le=100)]. *)
Definition schema_valid (r : Request) : Prop :=
  match r with
  | PostSlot _ slot => 1 <= TimeSlotCreate.max_capacity slot <= 100
  | _ => True
  end.

(** The database before anything is created. *)
Definition empty_db : Db := mkDb (mkStore [] []) (mkStore [] []).

(** ** Vocabulary of the further properties *)

(** The tokens of a queue with the sequence numbers [idx], [idx + 1], ... in
    that order. *)
Fixpoint number_from (idx : Z) (queue : list Token.t) : list Token.t :=
  match queue with
  | [] => []
  | token :: rest =>
      Token.set_sequence_number idx token :: number_from (idx + 1) rest
  end.

(** [idx], [idx + 1], ..., one number per element of [l]. *)
Fixpoint count_from {A : Type} (idx : Z) (l : list A) : list Z :=
  match l with
  | [] => []
  | _ :: rest => idx :: count_from (idx + 1) rest
  end.

(** Primary keys of [tokens] are pairwise distinct. *)
Definition unique_token_ids (st : Store) : Prop :=
  NoDup (map Token.id (tokens st)).

(** Primary keys of [time_slots] are pairwise distinct. *)
Definition unique_slot_ids (st : Store) : Prop :=
  NoDup (map TimeSlot.id (slots st)).

(** What [assign_sequence_numbers] from [idx] over [queue] makes of one row:
    the row whose primary key is at position [i] of the queue gets
    [idx + i]. *)
Fixpoint renumbered (idx : Z) (queue : list Token.t) (k : Token.t) : Token.t :=
  match queue with
  | [] => k
  | token :: rest =>
      if Token.id token =? Token.id k then Token.set_sequence_number idx k
      else renumbered (idx + 1) rest k
  end.

(** *** Three walk-ins X, Y, Z in one slot of capacity 5. *)
Definition three_walk_ins : Db :=
  Scenario.after
    (allocate_token (Scenario.at_hour 1 8) (Scenario.request "Z" 1 1 WALK_IN))
    (Scenario.after
       (allocate_token (Scenario.at_hour 1 8) (Scenario.request "Y" 1 1 WALK_IN))
       (Scenario.after
          (allocate_token (Scenario.at_hour 1 8) (Scenario.request "X" 1 1 WALK_IN))
          (Scenario.fresh [Scenario.new_slot 1 1 "2030-01-01" "09:00" "10:00" 5]))).

(** Primary keys of [tokens] are pairwise distinct, in the session and in
    what is committed. *)
Definition ids_ok (db : Db) : Prop :=
  unique_token_ids (committed db) /\ unique_token_ids (session db).

(** [m] keeps [P], whether it returns or raises. *)
Definition preserves (P : Db -> Prop) {A : Type} (m : M A) : Prop :=
  forall db, P db -> P (fst (m db)).

(** A property of a database that is a property of each of its two stores. *)
Definition storewise (P : Db -> Prop) : Prop :=
  forall db,
    P db ->
    P (mkDb (committed db) (committed db)) /\ P (mkDb (session db) (session db)).

(** What holds in every database the endpoints reach. *)
Definition sound (db : Db) : Prop :=
  capacity_ok db /\ ids_ok db /\ session db = committed db.

(** *** One doctor with the slot 09:00-10:00 and the slot 10:00-11:00. *)
Definition dr_johnson : Doctor.t :=
  Doctor.mk 1 "Dr. Sarah Johnson" "General Medicine" true (Scenario.at_hour 1 7).

Definition morning : Db :=
  fst (serve (PostSlot [dr_johnson] (TimeSlotCreate.mk "2030-01-01" "10:00" "11:00" 20 1))
         (fst (serve
                 (PostSlot [dr_johnson]
                    (TimeSlotCreate.mk "2030-01-01" "09:00" "10:00" 20 1))
                 empty_db))).

(** The score of a token lies in the band of its source:
    [weight * 10 <= priority_score <= weight * 10 + 10]. *)
Definition in_class (k : Token.t) : Prop :=
  PRIORITY_WEIGHTS (Token.source k) * 10 <= Token.priority_score k
  <= PRIORITY_WEIGHTS (Token.source k) * 10 + 10.

Definition scores_ok (db : Db) : Prop :=
  Forall in_class (tokens (committed db)) /\ Forall in_class (tokens (session db)).

(** Along the list, the weight of the source never goes up. *)
Definition classes_descend (queue : list Token.t) : Prop :=
  forall before x after,
    queue = before ++ x :: after ->
    forall y, In y after ->
              PRIORITY_WEIGHTS (Token.source y) <= PRIORITY_WEIGHTS (Token.source x).


(** *** Walk-ins X and Y in slot 1, walk-in Z in slot 2 (capacity 5 each). *)
Definition two_queues : Db :=
  Scenario.after
    (allocate_token (Scenario.at_hour 1 8) (Scenario.request "Z" 1 2 WALK_IN))
    (Scenario.after
       (allocate_token (Scenario.at_hour 1 8) (Scenario.request "Y" 1 1 WALK_IN))
       (Scenario.after
          (allocate_token (Scenario.at_hour 1 8) (Scenario.request "X" 1 1 WALK_IN))
          (Scenario.fresh [Scenario.new_slot 1 1 "2030-01-01" "09:00" "10:00" 5;
                           Scenario.new_slot 2 1 "2030-01-01" "10:00" "11:00" 5]))).
(** * Properties *)

(** ** The model on small inputs *)

Example strptime_ok :
  Strptime.strptime "2030-01-02" = Some (mkDatetime 2030 1 2 0).
Proof. reflexivity. Qed.

Example strptime_short : Strptime.strptime "2024-2-29" = Some (mkDatetime 2024 2 29 0).
Proof. reflexivity. Qed.

Example strptime_bad_day : Strptime.strptime "2023-02-29" = None.
Proof. reflexivity. Qed.

Example strptime_bad_month : Strptime.strptime "2023-13-01" = None.
Proof. reflexivity. Qed.

Example format_04d_7 : Py.format_04d 7 = "0007"%string.
Proof. reflexivity. Qed.

Example format_04d_12345 : Py.format_04d 12345 = "12345"%string.
Proof. reflexivity. Qed.

Example strip_note :
  Py.strip (String.append Py.newline "EMERGENCY INSERTION") = "EMERGENCY INSERTION"%string.
Proof. reflexivity. Qed.

Example score_first_walk_in : _calculate_priority_score WALK_IN 0 = 20.
Proof. reflexivity. Qed.

Example score_eleventh_walk_in : _calculate_priority_score WALK_IN 10 = 10.
Proof. reflexivity. Qed.

Example token_number_example :
  token_number_text 7 "2030-01-02" 41 = "DOC7-20300102-0042"%string.
Proof. reflexivity. Qed.

(** Allocate three walk-ins X, Y, Z into an empty slot and cancel Y: the
    queue is [X, Z] with sequence numbers 1 and 2. *)
Example resequenced_after_cancel :
  let slot := Scenario.new_slot 1 1 "2030-01-01" "09:00" "10:00" 5 in
  let db :=
    Scenario.after (cancel_token (Scenario.at_hour 1 9) 2 None)
      (Scenario.after
         (allocate_token (Scenario.at_hour 1 8) (Scenario.request "Z" 1 1 WALK_IN))
         (Scenario.after
            (allocate_token (Scenario.at_hour 1 8) (Scenario.request "Y" 1 1 WALK_IN))
            (Scenario.after
               (allocate_token (Scenario.at_hour 1 8)
                  (Scenario.request "X" 1 1 WALK_IN))
               (Scenario.fresh [slot])))) in
  map (fun k => (Token.patient_name k, Token.sequence_number k))
    (slot_queue 1 (tokens (session db)))
  = [("X"%string, 1); ("Z"%string, 2)]
  /\ count_of 1 (session db) = Some 2.
Proof. split; reflexivity. Qed.

(** A full slot without alternative refuses a plain allocation and changes
    nothing. *)
Example allocate_on_full_slot :
  allocate_token (Scenario.at_hour 1 9) (Scenario.request "B" 1 1 WALK_IN)
    Scenario.single_full
  = (Scenario.single_full, inl (ValueError (SlotAtMaximumCapacity 1))).
Proof. reflexivity. Qed.

(** Slot 1 is full with walk-in A and slot 2 has room: emergency insertion
    without force moves A to slot 2 and leaves slot 1 to the priority token. *)
Example emergency_bump_same_day :
  exists db' token,
    handle_emergency_insertion (Scenario.at_hour 1 9)
      (Scenario.request "C" 1 1 WALK_IN) false Scenario.two_slots_booked
    = (db', inr token)
    /\ Token.source token = PRIORITY
    /\ Token.token_number token = "DOC1-20300101-0002"%string
    /\ Token.notes token = Some "EMERGENCY INSERTION"%string
    /\ map (fun k => (Token.patient_name k, Token.slot_id k)) (tokens (session db'))
       = [("A"%string, 2); ("C"%string, 1)]
    /\ count_of 1 (session db') = Some 1
    /\ count_of 2 (session db') = Some 1.
Proof.
  do 2 eexists. split; [vm_compute; reflexivity|]. repeat split; reflexivity.
Qed.

(** ** Booleans to propositions *)

Ltac b2p :=
  repeat (rewrite ?orb_true_iff, ?andb_true_iff, ?negb_true_iff,
            ?orb_false_iff, ?andb_false_iff, ?negb_false_iff,
            ?Z.ltb_lt, ?Z.eqb_eq, ?Z.ltb_ge, ?Z.eqb_neq,
            ?Z.leb_le, ?Z.leb_gt, ?Z.geb_le in * ).

Lemma datetime_leb_refl (a : datetime) : datetime_leb a a = true.
Proof. unfold datetime_leb, datetime_ltb. b2p. lia. Qed.

Lemma datetime_leb_total (a b : datetime) :
  datetime_leb a b = true \/ datetime_leb b a = true.
Proof.
  unfold datetime_leb, datetime_ltb.
  destruct (Z.compare_spec (dt_year a) (dt_year b));
  destruct (Z.compare_spec (dt_month a) (dt_month b));
  destruct (Z.compare_spec (dt_day a) (dt_day b));
  destruct (Z.compare_spec (dt_micros a) (dt_micros b));
  b2p; lia.
Qed.

Lemma datetime_leb_trans (a b c : datetime) :
  datetime_leb a b = true -> datetime_leb b c = true -> datetime_leb a c = true.
Proof. unfold datetime_leb, datetime_ltb. b2p. lia. Qed.

Lemma datetime_leb_antisym (a b : datetime) :
  datetime_leb a b = true -> datetime_leb b a = true -> a = b.
Proof.
  destruct a as [y1 m1 d1 u1], b as [y2 m2 d2 u2].
  unfold datetime_leb, datetime_ltb; simpl. b2p. intros H1 H2.
  assert (y1 = y2 /\ m1 = m2 /\ d1 = d2 /\ u1 = u2) as (-> & -> & -> & ->) by lia.
  reflexivity.
Qed.

(** ** [order_by] sorts, permutes, and leaves a sorted list alone *)

Section OrderByFacts.

Context {A : Type} (leb : A -> A -> bool).
Hypothesis leb_total : forall a b, leb a b = true \/ leb b a = true.
Hypothesis leb_trans : forall a b c, leb a b = true -> leb b c = true -> leb a c = true.

Lemma insert_by_perm (x : A) (l : list A) : Permutation (insert_by leb x l) (x :: l).
Proof.
  induction l as [|y r IH]; simpl.
  - apply Permutation_refl.
  - destruct (leb x y).
    + apply Permutation_refl.
    + apply Permutation_trans with (y :: x :: r).
      * apply perm_skip, IH.
      * apply perm_swap.
Qed.

Lemma order_by_perm (l : list A) : Permutation (order_by leb l) l.
Proof.
  induction l as [|x r IH]; simpl.
  - apply perm_nil.
  - apply Permutation_trans with (x :: order_by leb r).
    + apply insert_by_perm.
    + apply perm_skip, IH.
Qed.

Lemma order_by_In (l : list A) (x : A) : In x (order_by leb l) <-> In x l.
Proof.
  split; apply Permutation_in.
  - apply order_by_perm.
  - apply Permutation_sym, order_by_perm.
Qed.

Lemma insert_by_sorted (x : A) (l : list A) :
  sorted_by leb l -> sorted_by leb (insert_by leb x l).
Proof.
  induction 1 as [|y r Hr IH Hy]; simpl.
  - constructor; constructor.
  - destruct (leb x y) eqn:Hxy.
    + constructor.
      * constructor; assumption.
      * constructor; [exact Hxy|].
        rewrite Forall_forall in *. intros z Hz.
        apply leb_trans with y; [exact Hxy | apply Hy, Hz].
    + constructor; [exact IH|].
      rewrite Forall_forall in *. intros z Hz.
      apply (Permutation_in _ (insert_by_perm x r)) in Hz.
      destruct Hz as [<-|Hz]; [|apply Hy, Hz].
      destruct (leb_total x y) as [H|H]; [congruence|exact H].
Qed.

Lemma order_by_sorted (l : list A) : sorted_by leb (order_by leb l).
Proof.
  induction l as [|x r IH]; simpl.
  - constructor.
  - apply insert_by_sorted, IH.
Qed.

Lemma order_by_sorted_id (l : list A) : sorted_by leb l -> order_by leb l = l.
Proof.
  induction 1 as [|x r Hr IH Hx]; simpl; [reflexivity|].
  rewrite IH. destruct r as [|y r']; [reflexivity|].
  simpl. inversion Hx as [|? ? Hxy _]; subst. now rewrite Hxy.
Qed.

Lemma order_by_idem (l : list A) : order_by leb (order_by leb l) = order_by leb l.
Proof. apply order_by_sorted_id, order_by_sorted. Qed.

(** The row a [LIMIT 1] keeps is below every row of the table. *)
Lemma order_by_head (l : list A) (x : A) :
  hd_error (order_by leb l) = Some x ->
  In x l /\ forall y, In y l -> leb x y = true.
Proof.
  intros Hhd. pose proof (order_by_sorted l) as Hs.
  destruct (order_by leb l) as [|z r] eqn:E; [discriminate|].
  injection Hhd as ->. split.
  - apply order_by_In. rewrite E. now left.
  - intros y Hy. apply order_by_In in Hy. rewrite E in Hy.
    inversion Hs as [|? ? _ Hall]; subst. destruct Hy as [<-|Hy].
    + destruct (leb_total x x); assumption.
    + rewrite Forall_forall in Hall. apply Hall, Hy.
Qed.

Lemma order_by_head_none (l : list A) : hd_error (order_by leb l) = None -> l = [].
Proof.
  intros H. destruct l as [|x r]; [reflexivity|].
  assert (In x (order_by leb (x :: r))) as Hin by (apply order_by_In; now left).
  destruct (order_by leb (x :: r)); [destruct Hin | discriminate].
Qed.

End OrderByFacts.

(** ** The two orders the engine sorts by *)

Lemma queue_leb_total (a b : Token.t) : queue_leb a b = true \/ queue_leb b a = true.
Proof.
  unfold queue_leb.
  destruct (datetime_leb_total (Token.allocated_at a) (Token.allocated_at b)) as [H|H];
    rewrite H; b2p; lia.
Qed.

Lemma queue_leb_trans (a b c : Token.t) :
  queue_leb a b = true -> queue_leb b c = true -> queue_leb a c = true.
Proof.
  unfold queue_leb. intros H1 H2.
  destruct (datetime_leb (Token.allocated_at a) (Token.allocated_at b)) eqn:Hab;
  destruct (datetime_leb (Token.allocated_at b) (Token.allocated_at c)) eqn:Hbc;
  try rewrite (datetime_leb_trans _ _ _ Hab Hbc);
  destruct (datetime_leb (Token.allocated_at a) (Token.allocated_at c));
  b2p; lia.
Qed.

Lemma queue_leb_antisym (a b : Token.t) :
  queue_leb a b = true -> queue_leb b a = true -> queue_key a = queue_key b.
Proof.
  unfold queue_leb, queue_key. intros H1 H2.
  destruct (datetime_leb (Token.allocated_at a) (Token.allocated_at b)) eqn:Hab;
  destruct (datetime_leb (Token.allocated_at b) (Token.allocated_at a)) eqn:Hba;
  b2p; try lia.
  rewrite (datetime_leb_antisym _ _ Hab Hba).
  assert (Token.priority_score a = Token.priority_score b) as -> by lia.
  assert (Token.sequence_number a = Token.sequence_number b) as -> by lia.
  reflexivity.
Qed.

Lemma bump_leb_total (a b : Token.t) : bump_leb a b = true \/ bump_leb b a = true.
Proof.
  unfold bump_leb.
  destruct (datetime_leb_total (Token.allocated_at a) (Token.allocated_at b)) as [H|H];
    rewrite H; b2p; lia.
Qed.

Lemma bump_leb_trans (a b c : Token.t) :
  bump_leb a b = true -> bump_leb b c = true -> bump_leb a c = true.
Proof.
  unfold bump_leb. intros H1 H2.
  destruct (datetime_leb (Token.allocated_at b) (Token.allocated_at a)) eqn:Hba;
  destruct (datetime_leb (Token.allocated_at c) (Token.allocated_at b)) eqn:Hcb;
  try rewrite (datetime_leb_trans _ _ _ Hcb Hba);
  destruct (datetime_leb (Token.allocated_at c) (Token.allocated_at a));
  b2p; lia.
Qed.

(** ** Rows by primary key *)

Lemma find_slot_id (slot_id : Z) (l : list TimeSlot.t) (s : TimeSlot.t) :
  find_slot slot_id l = Some s -> TimeSlot.id s = slot_id.
Proof.
  unfold find_slot. intros H. apply find_some in H. destruct H as [_ H].
  now apply Z.eqb_eq.
Qed.

Lemma find_slot_In (slot_id : Z) (l : list TimeSlot.t) (s : TimeSlot.t) :
  find_slot slot_id l = Some s -> In s l.
Proof. unfold find_slot. intros H. now apply find_some in H. Qed.

Lemma find_token_id (token_id : Z) (l : list Token.t) (k : Token.t) :
  find_token token_id l = Some k -> Token.id k = token_id.
Proof.
  unfold find_token. intros H. apply find_some in H. destruct H as [_ H].
  now apply Z.eqb_eq.
Qed.

Lemma update_slot_Forall (P : TimeSlot.t -> Prop) (slot_id : Z)
    (f : TimeSlot.t -> TimeSlot.t) (l : list TimeSlot.t) :
  Forall P l ->
  (forall s, find_slot slot_id l = Some s -> P s -> P (f s)) ->
  Forall P (update_slot slot_id f l).
Proof.
  unfold find_slot. induction 1 as [|s r Hs Hr IH]; simpl; intros Hf.
  - constructor.
  - destruct (TimeSlot.id s =? slot_id).
    + constructor; [now apply Hf | exact Hr].
    + constructor; [exact Hs | apply IH, Hf].
Qed.

Lemma find_slot_update (slot_id slot_id' : Z) (f : TimeSlot.t -> TimeSlot.t)
    (l : list TimeSlot.t) :
  (forall s, TimeSlot.id (f s) = TimeSlot.id s) ->
  find_slot slot_id' (update_slot slot_id f l) =
  if slot_id =? slot_id' then option_map f (find_slot slot_id' l)
  else find_slot slot_id' l.
Proof.
  intros Hid. unfold find_slot. induction l as [|s r IH]; simpl.
  - now destruct (slot_id =? slot_id').
  - destruct (TimeSlot.id s =? slot_id) eqn:E1; simpl.
    + rewrite Hid. apply Z.eqb_eq in E1. rewrite E1.
      destruct (slot_id =? slot_id'); reflexivity.
    + destruct (TimeSlot.id s =? slot_id') eqn:E2.
      * destruct (slot_id =? slot_id') eqn:E3; [|reflexivity].
        apply Z.eqb_eq in E2, E3. apply Z.eqb_neq in E1. lia.
      * exact IH.
Qed.

Lemma find_token_update (token_id token_id' : Z) (f : Token.t -> Token.t)
    (l : list Token.t) :
  (forall k, Token.id (f k) = Token.id k) ->
  find_token token_id' (update_token token_id f l) =
  if token_id =? token_id' then option_map f (find_token token_id' l)
  else find_token token_id' l.
Proof.
  intros Hid. unfold find_token. induction l as [|k r IH]; simpl.
  - now destruct (token_id =? token_id').
  - destruct (Token.id k =? token_id) eqn:E1; simpl.
    + rewrite Hid. apply Z.eqb_eq in E1. rewrite E1.
      destruct (token_id =? token_id'); reflexivity.
    + destruct (Token.id k =? token_id') eqn:E2.
      * destruct (token_id =? token_id') eqn:E3; [|reflexivity].
        apply Z.eqb_eq in E2, E3. apply Z.eqb_neq in E1. lia.
      * exact IH.
Qed.

Lemma release_id (s : TimeSlot.t) : TimeSlot.id (release s) = TimeSlot.id s.
Proof. reflexivity. Qed.

Lemma reserve_id (s : TimeSlot.t) : TimeSlot.id (reserve s) = TimeSlot.id s.
Proof. reflexivity. Qed.

Lemma release_within (s : TimeSlot.t) : within_capacity s -> within_capacity (release s).
Proof. unfold within_capacity, release; simpl. lia. Qed.

Lemma reserve_within (s : TimeSlot.t) :
  within_capacity s -> TimeSlot.current_count s < TimeSlot.max_capacity s ->
  within_capacity (reserve s).
Proof. unfold within_capacity, reserve; simpl. lia. Qed.

(** ** The resequencing loop *)

Lemma assign_sequence_numbers_eq (queue : list Token.t) :
  forall (idx : Z) (db : Db),
    assign_sequence_numbers idx queue db =
    (mkDb (committed db)
          (mkStore (slots (session db)) (renumber idx queue (tokens (session db)))),
     inr tt).
Proof.
  induction queue as [|k r IH]; intros idx db; simpl.
  - destruct db as [c [s t]]; reflexivity.
  - unfold bind, modify_token. rewrite IH. reflexivity.
Qed.

Lemma _resequence_slot_tokens_eq (slot_id : Z) (db : Db) :
  _resequence_slot_tokens slot_id db =
  let st := mkStore (slots (session db))
              (renumber 1 (slot_queue slot_id (tokens (session db)))
                 (tokens (session db))) in
  (mkDb st st, inr tt).
Proof.
  unfold _resequence_slot_tokens, bind, get_slot_queue, read.
  rewrite assign_sequence_numbers_eq. reflexivity.
Qed.

(** Renumbering touches nothing but [sequence_number]. *)
Lemma renumber_find (queue : list Token.t) :
  forall (idx : Z) (l : list Token.t) (token_id : Z),
    option_map (Token.set_sequence_number 0) (find_token token_id (renumber idx queue l))
    = option_map (Token.set_sequence_number 0) (find_token token_id l).
Proof.
  induction queue as [|k r IH]; intros idx l token_id; simpl; [reflexivity|].
  rewrite IH, find_token_update by reflexivity.
  destruct (Token.id k =? token_id); [|reflexivity].
  now destruct (find_token token_id l).
Qed.

Lemma renumber_find_some (queue : list Token.t) (idx : Z) (l : list Token.t)
    (token_id : Z) (k : Token.t) :
  find_token token_id l = Some k ->
  exists n, find_token token_id (renumber idx queue l)
            = Some (Token.set_sequence_number n k).
Proof.
  intros H. pose proof (renumber_find queue idx l token_id) as E. rewrite H in E.
  destruct (find_token token_id (renumber idx queue l)) as [k'|]; [|discriminate].
  exists (Token.sequence_number k'). f_equal.
  simpl in E. injection E as E. destruct k', k; simpl in *.
  unfold Token.set_sequence_number in *; simpl in *. congruence.
Qed.

(** ** What each operation does to the database *)

Ltac run_engine :=
  cbv beta iota delta
    [bind ret raise read modify_slot modify_token db_flush db_commit current
     _get_token _get_slot_with_validation _find_alternative_slot
     _get_next_sequence_number get_slot_queue note_reason];
  cbn [fst snd session committed slots tokens].

Lemma bind_run {A B : Type} (m : M A) (k : A -> M B) (db : Db) :
  bind m k db =
  match m db with
  | (db', inl e) => (db', inl e)
  | (db', inr a) => k a db'
  end.
Proof. reflexivity. Qed.

Lemma _get_slot_with_validation_run (slot_id : Z) (db : Db) :
  _get_slot_with_validation slot_id db =
  match find_slot slot_id (slots (session db)) with
  | None => (db, inl (ValueError (SlotNotFound slot_id)))
  | Some slot =>
      if TimeSlot.is_active slot then (db, inr slot)
      else (db, inl (ValueError (SlotNotActive slot_id)))
  end.
Proof.
  run_engine. destruct (find_slot slot_id (slots (session db))) as [s|]; [|reflexivity].
  now destruct (TimeSlot.is_active s).
Qed.

Lemma _get_token_run (token_id : Z) (db : Db) :
  _get_token token_id db =
  match find_token token_id (tokens (session db)) with
  | None => (db, inl (ValueError (TokenNotFound token_id)))
  | Some token => (db, inr token)
  end.
Proof.
  run_engine. now destruct (find_token token_id (tokens (session db))).
Qed.

(** [reallocate_token]: a failure leaves the database as it was; a success
    releases the old slot, reserves the new one, moves the token and commits. *)
Lemma reallocate_token_run (token_id new_slot_id : Z) (reason : option string) (db : Db) :
  match reallocate_token token_id new_slot_id reason db with
  | (db', inl e) => db' = db /\ exists m, e = ValueError m
  | (db', inr moved) =>
      exists token old_slot new_slot,
        find_token token_id (tokens (session db)) = Some token
        /\ find_slot (Token.slot_id token) (slots (session db)) = Some old_slot
        /\ find_slot new_slot_id (slots (session db)) = Some new_slot
        /\ TimeSlot.is_active old_slot = true
        /\ TimeSlot.is_active new_slot = true
        /\ Token.doctor_id token = TimeSlot.doctor_id new_slot
        /\ TimeSlot.current_count new_slot < TimeSlot.max_capacity new_slot
        /\ slots (session db') =
           update_slot new_slot_id reserve
             (update_slot (Token.slot_id token) release (slots (session db)))
        /\ committed db' = session db'
        /\ find_token token_id (tokens (session db')) = Some moved
        /\ Token.slot_id moved = new_slot_id
  end.
Proof.
  unfold reallocate_token.
  unfold bind at 1. rewrite _get_token_run.
  destruct (find_token token_id (tokens (session db))) as [token|] eqn:Htok;
    [|split; [reflexivity | eexists; reflexivity]].
  unfold bind at 1. rewrite _get_slot_with_validation_run.
  destruct (find_slot (Token.slot_id token) (slots (session db))) as [old_slot|] eqn:Hold;
    [|split; [reflexivity | eexists; reflexivity]].
  destruct (TimeSlot.is_active old_slot) eqn:Hact_old;
    [|split; [reflexivity | eexists; reflexivity]].
  unfold bind at 1. rewrite _get_slot_with_validation_run.
  destruct (find_slot new_slot_id (slots (session db))) as [new_slot|] eqn:Hnew;
    [|split; [reflexivity | eexists; reflexivity]].
  destruct (TimeSlot.is_active new_slot) eqn:Hact_new;
    [|split; [reflexivity | eexists; reflexivity]].
  destruct (Token.doctor_id token =? TimeSlot.doctor_id new_slot) eqn:Hdoc;
    cbn [negb]; [|split; [reflexivity | eexists; reflexivity]].
  destruct (TimeSlot.current_count new_slot >=? TimeSlot.max_capacity new_slot) eqn:Hcap;
    [split; [reflexivity | eexists; reflexivity]|].
  pose proof (find_slot_id _ _ _ Hold) as Hold_id.
  pose proof (find_slot_id _ _ _ Hnew) as Hnew_id.
  pose proof (find_token_id _ _ _ Htok) as Htok_id.
  rewrite Hold_id, Hnew_id.
  run_engine. destruct (Py.truthy reason);
  rewrite _resequence_slot_tokens_eq;
  cbn [fst snd session committed slots tokens];
  rewrite _resequence_slot_tokens_eq;
  cbn [fst snd session committed slots tokens];
  match goal with
  | |- context [renumber 1 ?q (renumber 1 ?q' ?l)] =>
      assert (exists k0, find_token token_id l = Some k0
                         /\ Token.slot_id k0 = new_slot_id)
        as (k0 & Hk0 & Hs0);
      [| destruct (renumber_find_some q' 1 l token_id k0 Hk0) as (n1 & H1);
         destruct (renumber_find_some q 1 _ token_id _ H1) as (n2 & H2) ]
  end.
  1, 3: rewrite !find_token_update by reflexivity;
        rewrite Z.eqb_refl, Htok; simpl; eexists; (split; reflexivity).
  all: rewrite Htok_id, H2;
    exists token, old_slot, new_slot;
    repeat split; try reflexivity; try assumption;
    [ now apply Z.eqb_eq
    | unfold Z.geb in Hcap;
      destruct (TimeSlot.current_count new_slot ?= TimeSlot.max_capacity new_slot) eqn:E;
      try discriminate; now apply Z.compare_lt_iff ].
Qed.

Lemma geb_false_lt (a b : Z) : (a >=? b) = false -> a < b.
Proof.
  unfold Z.geb. destruct (a ?= b) eqn:E; try discriminate.
  intros _. now apply Z.compare_lt_iff.
Qed.

Lemma geb_true_ge (a b : Z) : (a >=? b) = true -> b <= a.
Proof. intros H. apply Z.geb_le in H. exact H. Qed.

(** The primary key of a new row is fresh. *)
Lemma next_token_id_above (l : list Token.t) (k : Token.t) :
  In k l -> Token.id k < next_token_id l.
Proof.
  unfold next_token_id. induction l as [|x r IH]; simpl; [contradiction|].
  intros [->|H]; [lia|]. specialize (IH H). lia.
Qed.

Lemma find_token_next (l : list Token.t) : find_token (next_token_id l) l = None.
Proof.
  unfold find_token. destruct (find _ l) as [k|] eqn:E; [|reflexivity].
  apply find_some in E. destruct E as [Hin Hid].
  apply next_token_id_above in Hin. apply Z.eqb_eq in Hid. lia.
Qed.

Lemma find_token_app_new (l : list Token.t) (k : Token.t) :
  Token.id k = next_token_id l -> find_token (next_token_id l) (l ++ [k]) = Some k.
Proof.
  intros Hid. pose proof (find_token_next l) as Hnone. rewrite <- Hid in *.
  clear Hid. unfold find_token in *. induction l as [|x r IH]; simpl in *.
  - now rewrite Z.eqb_refl.
  - destruct (Token.id x =? Token.id k); [discriminate|]. apply IH, Hnone.
Qed.

(** [allocate_token]: a [ValueError] leaves the database as it was, an
    [IntegrityError] leaves it rolled back, a success reserves one unit on a
    slot that had room and appends the token. *)
Lemma allocate_token_run (now : datetime) (request : TokenRequest.t) (db : Db) :
  match allocate_token now request db with
  | (db', inl (ValueError _)) => db' = db
  | (db', inl IntegrityError) => db' = mkDb (committed db) (committed db)
  | (db', inr token) =>
      exists slot since,
        find_slot (TokenRequest.slot_id request) (slots (session db)) = Some slot
        /\ TimeSlot.is_active slot = true
        /\ TimeSlot.current_count slot < TimeSlot.max_capacity slot
        /\ Strptime.strptime (TimeSlot.date slot) = Some since
        /\ committed db' = committed db
        /\ slots (session db') =
           update_slot (TokenRequest.slot_id request) reserve (slots (session db))
        /\ tokens (session db') = tokens (session db) ++ [token]
        /\ token =
           Token.mk (next_token_id (tokens (session db)))
             (token_number_text (TimeSlot.doctor_id slot) (TimeSlot.date slot)
                (count_tokens_since (TimeSlot.doctor_id slot) since
                   (tokens (session db))))
             (TokenRequest.patient_name request)
             (TokenRequest.patient_phone request)
             (TokenRequest.doctor_id request)
             (TokenRequest.slot_id request)
             (TokenRequest.source request)
             ALLOCATED
             (_calculate_priority_score (TokenRequest.source request)
                (TimeSlot.current_count slot))
             (match max_sequence_number (TokenRequest.slot_id request)
                      (tokens (session db)) with
              | None => 0
              | Some v => v
              end + 1)
             now None None None (TokenRequest.notes request)
  end.
Proof.
  unfold allocate_token.
  unfold bind at 1. rewrite _get_slot_with_validation_run.
  destruct (find_slot (TokenRequest.slot_id request) (slots (session db)))
    as [slot|] eqn:Hslot; [|reflexivity].
  destruct (TimeSlot.is_active slot) eqn:Hact; [|reflexivity].
  pose proof (find_slot_id _ _ _ Hslot) as Hid.
  destruct (TimeSlot.current_count slot >=? TimeSlot.max_capacity slot) eqn:Hcap.
  - run_engine.
    now destruct (alternative_slot _ _ _).
  - apply geb_false_lt in Hcap. rewrite Hid.
    unfold _generate_token_number.
    destruct (Strptime.strptime (TimeSlot.date slot)) as [since|] eqn:Hdate;
      [|reflexivity].
    run_engine. unfold db_add_flush. cbn [fst snd session committed slots tokens].
    destruct (existsb _ _); [reflexivity|].
    cbn [fst snd session committed slots tokens Token.id].
    rewrite find_token_app_new by reflexivity.
    exists slot, since. repeat split; assumption.
Qed.

(** [cancel_token] and [mark_no_show]: a failure moves no slot counter and
    commits nothing; a success releases one unit on the token's slot. *)
Lemma cancel_token_run (now : datetime) (token_id : Z) (reason : option string)
    (db : Db) :
  match cancel_token now token_id reason db with
  | (db', inl e) =>
      committed db' = committed db
      /\ slots (session db') = slots (session db)
      /\ exists m, e = ValueError m
  | (db', inr _) =>
      exists token slot,
        find_token token_id (tokens (session db)) = Some token
        /\ find_slot (Token.slot_id token) (slots (session db)) = Some slot
        /\ TimeSlot.is_active slot = true
        /\ slots (session db') =
           update_slot (Token.slot_id token) release (slots (session db))
        /\ committed db' = session db'
  end.
Proof.
  unfold cancel_token.
  unfold bind at 1. rewrite _get_token_run.
  destruct (find_token token_id (tokens (session db))) as [token|] eqn:Htok;
    [|repeat split; eexists; reflexivity].
  assert (forall X : Db * (Exn + Token.t),
             X = (db, inl (ValueError (CannotCancel (Token.status token)))) ->
             match X with
             | (db', inl e) =>
                 committed db' = committed db
                 /\ slots (session db') = slots (session db)
                 /\ exists m, e = ValueError m
             | (db', inr _) =>
                 exists token0 slot,
                   Some token = Some token0
                   /\ find_slot (Token.slot_id token0) (slots (session db)) = Some slot
                   /\ TimeSlot.is_active slot = true
                   /\ slots (session db') =
                      update_slot (Token.slot_id token0) release (slots (session db))
                   /\ committed db' = session db'
             end) as Hfail.
  { intros X ->. repeat split. eexists; reflexivity. }
  destruct (Token.status token) eqn:Hst; try (apply Hfail; reflexivity); clear Hfail;
    run_engine;
    destruct (Py.truthy reason); cbn [fst snd session committed slots tokens];
    (destruct (find_slot (Token.slot_id token) (slots (session db))) as [slot|] eqn:Hslot;
     [|repeat split; eexists; reflexivity]);
    (destruct (TimeSlot.is_active slot) eqn:Hact; cbn [negb];
     [|repeat split; eexists; reflexivity]);
    pose proof (find_slot_id _ _ _ Hslot) as Hid; rewrite Hid;
    rewrite _resequence_slot_tokens_eq;
    cbn [fst snd session committed slots tokens];
    exists token, slot; repeat split; assumption.
Qed.

Lemma mark_no_show_run (now : datetime) (token_id : Z) (db : Db) :
  match mark_no_show now token_id db with
  | (db', inl e) =>
      committed db' = committed db
      /\ slots (session db') = slots (session db)
      /\ exists m, e = ValueError m
  | (db', inr _) =>
      exists token slot,
        find_token token_id (tokens (session db)) = Some token
        /\ Token.status token = ALLOCATED
        /\ find_slot (Token.slot_id token) (slots (session db)) = Some slot
        /\ TimeSlot.is_active slot = true
        /\ slots (session db') =
           update_slot (Token.slot_id token) release (slots (session db))
        /\ committed db' = committed db
  end.
Proof.
  unfold mark_no_show.
  unfold bind at 1. rewrite _get_token_run.
  destruct (find_token token_id (tokens (session db))) as [token|] eqn:Htok;
    [|repeat split; eexists; reflexivity].
  destruct (TokenStatus_eqb (Token.status token) ALLOCATED) eqn:Hst; cbn [negb];
    [|repeat split; eexists; reflexivity].
  run_engine.
  destruct (find_slot (Token.slot_id token) (slots (session db))) as [slot|] eqn:Hslot;
    [|repeat split; eexists; reflexivity].
  destruct (TimeSlot.is_active slot) eqn:Hact; cbn [negb];
    [|repeat split; eexists; reflexivity].
  pose proof (find_slot_id _ _ _ Hslot) as Hid. rewrite Hid.
  cbn [fst snd session committed slots tokens].
  exists token, slot. repeat split; try assumption.
  now destruct (Token.status token).
Qed.

(** [_reallocate_lowest_priority], step by step. *)
Lemma _reallocate_lowest_priority_run (slot_id : Z) (db : Db) :
  _reallocate_lowest_priority slot_id db =
  match lowest_priority_walk_in slot_id (tokens (session db)) with
  | None => (db, inr false)
  | Some token =>
      match _get_slot_with_validation slot_id db with
      | (db1, inl e) => (db1, inl e)
      | (db1, inr slot) =>
          match alternative_slot (Token.doctor_id token) (TimeSlot.date slot)
                  (slots (session db1)) with
          | None => (db1, inr false)
          | Some alternative =>
              match reallocate_token (Token.id token) (TimeSlot.id alternative)
                      (Some "Auto-reallocation for emergency insertion"%string)
                      db1 with
              | (db2, inl e) => (db2, inl e)
              | (db2, inr _) => (db2, inr true)
              end
          end
      end
  end.
Proof.
  unfold _reallocate_lowest_priority.
  cbv beta iota delta [bind read ret _find_alternative_slot].
  destruct (lowest_priority_walk_in slot_id (tokens (session db))); [|reflexivity].
  destruct (_get_slot_with_validation slot_id db) as [db1 [e|slot]]; [reflexivity|].
  destruct (alternative_slot _ _ _); [|reflexivity].
  destruct (reallocate_token _ _ _ db1) as [db2 [e|moved]]; reflexivity.
Qed.

(** ** The capacity invariant *)

Lemma allocate_token_capacity_ok (now : datetime) (request : TokenRequest.t) (db : Db) :
  capacity_ok db -> capacity_ok (fst (allocate_token now request db)).
Proof.
  unfold capacity_ok. intros [Hc Hs].
  pose proof (allocate_token_run now request db) as H.
  destruct (allocate_token now request db) as [db' [[m|]|token]]; simpl.
  - subst db'. now split.
  - subst db'. now split.
  - destruct H as (slot & since & Hslot & _ & Hroom & _ & Hcom & Hslots & _).
    rewrite Hcom, Hslots. split; [exact Hc|].
    apply update_slot_Forall; [exact Hs|].
    intros s Hfind Hin. rewrite Hslot in Hfind. injection Hfind as <-.
    now apply reserve_within.
Qed.

Lemma reallocate_token_capacity_ok (token_id new_slot_id : Z)
    (reason : option string) (db : Db) :
  capacity_ok db ->
  capacity_ok (fst (reallocate_token token_id new_slot_id reason db)).
Proof.
  unfold capacity_ok. intros [Hc Hs].
  pose proof (reallocate_token_run token_id new_slot_id reason db) as H.
  destruct (reallocate_token token_id new_slot_id reason db) as [db' [e|moved]]; simpl.
  - destruct H as (-> & _). now split.
  - destruct H as (token & old_slot & new_slot & _ & Hold & Hnew & _ & _ & _
                   & Hroom & Hslots & Hcom & _).
    rewrite Hcom, Hslots.
    assert (Forall within_capacity
              (update_slot new_slot_id reserve
                 (update_slot (Token.slot_id token) release (slots (session db))))).
    { apply update_slot_Forall.
      - apply update_slot_Forall; [exact Hs|]. intros s _. apply release_within.
      - intros s Hfind Hin. apply reserve_within; [exact Hin|].
        rewrite find_slot_update in Hfind by apply release_id.
        rewrite Hnew in Hfind.
        assert (within_capacity new_slot) as Hw.
        { rewrite Forall_forall in Hs. apply Hs. eapply find_slot_In, Hnew. }
        unfold within_capacity in Hw.
        destruct (Token.slot_id token =? new_slot_id);
          simpl in Hfind; injection Hfind as <-; simpl; lia. }
    now split.
Qed.

(** Emergency insertion never exceeds the capacity either: with or without
    force, the token goes through the capacity check of [allocate_token]. *)
Lemma handle_emergency_insertion_capacity_ok (now : datetime)
    (request : TokenRequest.t) (force : bool) (db : Db) :
  capacity_ok db ->
  capacity_ok (fst (handle_emergency_insertion now request force db)).
Proof.
  intros Hok.
  assert (forall dbx, capacity_ok dbx ->
            capacity_ok
              (fst ((token <- allocate_token now
                                (TokenRequest.set_source PRIORITY request) ;;
                     modify_token (Token.id token)
                       (Token.annotate "" "EMERGENCY INSERTION") ;;
                     db_flush ;;
                     current token) dbx))) as Hrest.
  { intros dbx Hx. rewrite bind_run.
    pose proof (allocate_token_capacity_ok now
                  (TokenRequest.set_source PRIORITY request) dbx Hx) as H.
    destruct (allocate_token now (TokenRequest.set_source PRIORITY request) dbx)
      as [db2 [e|token]]; [exact H|].
    run_engine. exact H. }
  unfold handle_emergency_insertion. rewrite bind_run, _get_slot_with_validation_run.
  destruct (find_slot (TokenRequest.slot_id request) (slots (session db)))
    as [slot|]; [|exact Hok].
  destruct (TimeSlot.is_active slot); [|exact Hok].
  rewrite bind_run.
  destruct ((TimeSlot.current_count slot >=? TimeSlot.max_capacity slot) && negb force)
    eqn:Hcond; [|apply Hrest, Hok].
  apply andb_true_iff in Hcond. destruct Hcond as [_ Hforce].
  apply negb_true_iff in Hforce. subst force.
  rewrite bind_run, _reallocate_lowest_priority_run.
  destruct (lowest_priority_walk_in (TimeSlot.id slot) (tokens (session db)))
    as [victim|]; [|exact Hok].
  rewrite _get_slot_with_validation_run.
  destruct (find_slot (TimeSlot.id slot) (slots (session db))) as [slot'|]; [|exact Hok].
  destruct (TimeSlot.is_active slot'); [|exact Hok].
  destruct (alternative_slot _ _ _) as [alternative|]; [|exact Hok].
  pose proof (reallocate_token_capacity_ok (Token.id victim) (TimeSlot.id alternative)
                (Some "Auto-reallocation for emergency insertion"%string) db Hok) as H.
  destruct (reallocate_token _ _ _ db) as [db1 [e|moved]]; [exact H|].
  apply Hrest, H.
Qed.

Lemma run_capacity_ok (op : Operation) (db : Db) :
  capacity_ok db -> capacity_ok (run op db).
Proof.
  destruct op as [now request|now token_id reason|now token_id
                  |token_id new_slot_id reason|now request force| |];
    try (apply allocate_token_capacity_ok);
    try (apply reallocate_token_capacity_ok);
    try (apply handle_emergency_insertion_capacity_ok);
    unfold capacity_ok; intros [Hc Hs]; simpl.
  - pose proof (cancel_token_run now token_id reason db) as H.
    destruct (cancel_token now token_id reason db) as [db' [e|token]]; simpl.
    + destruct H as (Hcom & Hslots & _). rewrite Hcom, Hslots. now split.
    + destruct H as (token0 & slot & _ & _ & _ & Hslots & Hcom).
      rewrite Hcom, Hslots.
      assert (Forall within_capacity
                (update_slot (Token.slot_id token0) release (slots (session db)))).
      { apply update_slot_Forall; [exact Hs|]. intros s _. apply release_within. }
      now split.
  - pose proof (mark_no_show_run now token_id db) as H.
    destruct (mark_no_show now token_id db) as [db' [e|token]]; simpl.
    + destruct H as (Hcom & Hslots & _). rewrite Hcom, Hslots. now split.
    + destruct H as (token0 & slot & _ & _ & _ & _ & Hslots & Hcom).
      rewrite Hcom, Hslots. split; [exact Hc|].
      apply update_slot_Forall; [exact Hs|]. intros s _. apply release_within.
  - now split.
  - now split.
Qed.

(** C3. For every database whose slots satisfy
    [0 <= current_count <= max_capacity] and every sequence of allocate,
    cancel, mark-no-show and reallocate operations (with any commits and
    rollbacks by the caller in between, and whether each operation returns or
    raises), every slot satisfies [0 <= current_count <= max_capacity] after
    each operation of the sequence, in the session and in what is committed.
    Emergency insertions may be mixed into the sequence: with or without
    force they keep the bound as well, so the excess of one unit that a
    forced insertion is allowed never shows. *)
Theorem capacity_invariant (ops : list Operation) (db : Db) :
  capacity_ok db -> Forall capacity_ok (trace ops db).
Proof.
  revert db. induction ops as [|op rest IH]; intros db H; simpl.
  - constructor.
  - constructor.
    + now apply run_capacity_ok.
    + apply IH. now apply run_capacity_ok.
Qed.

(** C9. With the weights 10, 5, 3, 1 of PRIORITY, FOLLOW_UP, ONLINE and
    WALK_IN, the score is [weight * 10 + max(0, 10 - current_count)], and for
    occupancies [c, c0 >= 0] the score of a class at occupancy [c] is at least
    the score of the next lower class at occupancy [c0] (in particular at
    occupancy 0, where the timing bonus is largest). *)
Theorem priority_score_separates_classes (c c0 : Z) :
  0 <= c -> 0 <= c0 ->
  (forall source,
      _calculate_priority_score source c
      = PRIORITY_WEIGHTS source * 10 + Z.max 0 (10 - c))
  /\ (PRIORITY_WEIGHTS PRIORITY, PRIORITY_WEIGHTS FOLLOW_UP,
      PRIORITY_WEIGHTS ONLINE, PRIORITY_WEIGHTS WALK_IN) = (10, 5, 3, 1)
  /\ _calculate_priority_score FOLLOW_UP c0 <= _calculate_priority_score PRIORITY c
  /\ _calculate_priority_score FOLLOW_UP 0 <= _calculate_priority_score PRIORITY c
  /\ _calculate_priority_score ONLINE c0 <= _calculate_priority_score FOLLOW_UP c
  /\ _calculate_priority_score ONLINE 0 <= _calculate_priority_score FOLLOW_UP c
  /\ _calculate_priority_score WALK_IN c0 <= _calculate_priority_score ONLINE c
  /\ _calculate_priority_score WALK_IN 0 <= _calculate_priority_score ONLINE c.
Proof.
  intros Hc Hc0. unfold _calculate_priority_score, PRIORITY_WEIGHTS.
  repeat split; try reflexivity; lia.
Qed.

Lemma priority_score_separates_classes_witness :
  (forall source,
      _calculate_priority_score source 12
      = PRIORITY_WEIGHTS source * 10 + Z.max 0 (10 - 12))
  /\ (PRIORITY_WEIGHTS PRIORITY, PRIORITY_WEIGHTS FOLLOW_UP,
      PRIORITY_WEIGHTS ONLINE, PRIORITY_WEIGHTS WALK_IN) = (10, 5, 3, 1)
  /\ _calculate_priority_score FOLLOW_UP 3 <= _calculate_priority_score PRIORITY 12
  /\ _calculate_priority_score FOLLOW_UP 0 <= _calculate_priority_score PRIORITY 12
  /\ _calculate_priority_score ONLINE 3 <= _calculate_priority_score FOLLOW_UP 12
  /\ _calculate_priority_score ONLINE 0 <= _calculate_priority_score FOLLOW_UP 12
  /\ _calculate_priority_score WALK_IN 3 <= _calculate_priority_score ONLINE 12
  /\ _calculate_priority_score WALK_IN 0 <= _calculate_priority_score ONLINE 12.
Proof. apply (priority_score_separates_classes 12 3); lia. Defined.

(** ** Forced emergency insertion *)

(** With [force] set the bump is skipped and [allocate_token] runs on the
    slot as it is; on a full slot it raises. *)
Lemma forced_insertion_on_full_slot (now : datetime) (request : TokenRequest.t)
    (db : Db) (slot : TimeSlot.t) :
  find_slot (TokenRequest.slot_id request) (slots (session db)) = Some slot ->
  TimeSlot.is_active slot = true ->
  TimeSlot.max_capacity slot <= TimeSlot.current_count slot ->
  exists m, handle_emergency_insertion now request true db = (db, inl (ValueError m)).
Proof.
  intros Hslot Hact Hfull. unfold handle_emergency_insertion.
  unfold bind at 1. rewrite _get_slot_with_validation_run, Hslot, Hact.
  rewrite andb_false_r. unfold bind at 1. unfold ret at 1.
  unfold bind at 1. unfold allocate_token.
  unfold bind at 1. rewrite _get_slot_with_validation_run. cbn [TokenRequest.set_source TokenRequest.slot_id].
  rewrite Hslot, Hact.
  apply Z.geb_le in Hfull. rewrite Hfull. run_engine.
  destruct (alternative_slot _ _ _); eexists; reflexivity.
Qed.

(** C1. On the capacity-1 slot that holds one walk-in
    ([current_count = max_capacity = 1], active), emergency insertion with
    [force = true] raises "Slot 1 is at maximum capacity": no token is
    created and [current_count] stays at 1, where the docstring of
    [handle_emergency_insertion] promises one unit above capacity. *)
Theorem forced_emergency_insertion_fails :
  count_of 1 (session Scenario.single_full) = Some 1
  /\ option_map TimeSlot.max_capacity
       (find_slot 1 (slots (session Scenario.single_full))) = Some 1
  /\ handle_emergency_insertion (Scenario.at_hour 1 9)
       (Scenario.request "C" 1 1 PRIORITY) true Scenario.single_full
     = (Scenario.single_full, inl (ValueError (SlotAtMaximumCapacity 1))).
Proof. repeat split; reflexivity. Qed.

(** ** Terminal statuses *)

(** The guards that do hold: [cancel_token] refuses a completed or cancelled
    token, [mark_no_show] refuses every token that is not allocated, and the
    database is left as it was. *)
Lemma cancel_token_refuses (now : datetime) (token_id : Z) (reason : option string)
    (db : Db) (token : Token.t) :
  find_token token_id (tokens (session db)) = Some token ->
  Token.status token = COMPLETED \/ Token.status token = CANCELLED ->
  cancel_token now token_id reason db
  = (db, inl (ValueError (CannotCancel (Token.status token)))).
Proof.
  intros Htok Hst. unfold cancel_token.
  unfold bind at 1. rewrite _get_token_run, Htok.
  destruct Hst as [E|E]; rewrite E; reflexivity.
Qed.

Lemma mark_no_show_refuses (now : datetime) (token_id : Z) (db : Db) (token : Token.t) :
  find_token token_id (tokens (session db)) = Some token ->
  Token.status token <> ALLOCATED ->
  mark_no_show now token_id db
  = (db, inl (ValueError (CannotMarkNoShow (Token.status token)))).
Proof.
  intros Htok Hst. unfold mark_no_show.
  unfold bind at 1. rewrite _get_token_run, Htok.
  destruct (Token.status token); try reflexivity. now elim Hst.
Qed.

(** The guard of [cancel_token] leaves [NO_SHOW] out: the call goes through
    and releases the slot once more. *)
Lemma cancel_token_accepts_no_show (now : datetime) (token_id : Z)
    (reason : option string) (db : Db) (token : Token.t) (slot : TimeSlot.t) :
  find_token token_id (tokens (session db)) = Some token ->
  Token.status token = NO_SHOW ->
  find_slot (Token.slot_id token) (slots (session db)) = Some slot ->
  TimeSlot.is_active slot = true ->
  exists db' cancelled,
    cancel_token now token_id reason db = (db', inr cancelled)
    /\ count_of (Token.slot_id token) (session db')
       = Some (Z.max 0 (TimeSlot.current_count slot - 1)).
Proof.
  intros Htok Hst Hslot Hact.
  pose proof (cancel_token_run now token_id reason db) as Hrun.
  assert (exists db' cancelled, cancel_token now token_id reason db = (db', inr cancelled))
    as (db' & cancelled & E).
  { unfold cancel_token. unfold bind at 1. rewrite _get_token_run, Htok, Hst.
    run_engine. destruct (Py.truthy reason);
      cbn [fst snd session committed slots tokens];
      rewrite Hslot, Hact; cbn [negb];
      rewrite (find_slot_id _ _ _ Hslot), _resequence_slot_tokens_eq;
      do 2 eexists; reflexivity. }
  exists db', cancelled. split; [exact E|].
  rewrite E in Hrun. destruct Hrun as (token0 & slot0 & Htok0 & _ & _ & Hslots & _).
  rewrite Htok in Htok0. injection Htok0 as <-.
  unfold count_of. rewrite Hslots, find_slot_update by apply release_id.
  rewrite Z.eqb_refl, Hslot. reflexivity.
Qed.

(** C2. Two walk-ins hold a slot of capacity 2 and the first is marked
    no-show, which brings [current_count] to 1.  [cancel_token] on that
    no-show token returns instead of raising: the token becomes [CANCELLED]
    and [current_count] drops to 0 while the second walk-in still occupies
    the slot; two more allocations then succeed, and the capacity-2 slot
    queues three occupying tokens. *)
Theorem cancel_after_no_show_releases_twice :
  option_map Token.status
    (find_token 1 (tokens (session Scenario.pair_after_no_show))) = Some NO_SHOW
  /\ count_of 1 (session Scenario.pair_after_no_show) = Some 1
  /\ (exists db' cancelled,
         cancel_token (Scenario.at_hour 1 9) 1 None Scenario.pair_after_no_show
         = (db', inr cancelled)
         /\ Token.status cancelled = CANCELLED
         /\ count_of 1 (session db') = Some 0
         /\ map Token.id (slot_queue 1 (tokens (session db'))) = [2])
  /\ count_of 1 (session Scenario.pair_overbooked) = Some 2
  /\ map Token.id (slot_queue 1 (tokens (session Scenario.pair_overbooked)))
     = [3; 2; 4].
Proof.
  split; [reflexivity|]. split; [reflexivity|]. split.
  - do 2 eexists. split; [vm_compute; reflexivity|]. repeat split; reflexivity.
  - split; reflexivity.
Qed.

(** ** Failures that leave a trace *)

(** C5. Two failing calls that change state.  (a) [cancel_token] on an
    allocated token whose slot has been deactivated raises "Slot 1 is not
    active" after it has set the token's status, completion time and notes in
    the session.  (b) [handle_emergency_insertion] without force on a full
    slot booked ahead moves the walk-in to the alternative slot, commits that
    move, and then raises on the duplicate token number: the committed
    database has changed although the call failed. *)
Theorem failed_operations_leave_changes :
  (exists db',
      cancel_token (Scenario.at_hour 1 9) 1 (Some "moved away"%string)
        Scenario.deactivated
      = (db', inl (ValueError (SlotNotActive 1)))
      /\ option_map Token.status
           (find_token 1 (tokens (session Scenario.deactivated))) = Some ALLOCATED
      /\ option_map Token.status (find_token 1 (tokens (session db')))
         = Some CANCELLED
      /\ option_map Token.completed_at (find_token 1 (tokens (session db')))
         = Some (Some (Scenario.at_hour 1 9))
      /\ option_map Token.notes (find_token 1 (tokens (session db')))
         = Some (Some "Cancellation: moved away"%string))
  /\ (exists db',
         handle_emergency_insertion (Scenario.at_hour 1 9)
           (Scenario.request "C" 1 1 PRIORITY) false Scenario.ahead_booked
         = (db', inl IntegrityError)
         /\ option_map Token.slot_id
              (find_token 1 (tokens (committed Scenario.ahead_booked))) = Some 1
         /\ option_map Token.slot_id (find_token 1 (tokens (committed db')))
            = Some 2
         /\ count_of 1 (committed Scenario.ahead_booked) = Some 1
         /\ count_of 1 (committed db') = Some 0
         /\ count_of 2 (committed db') = Some 1).
Proof.
  split.
  - eexists. split; [vm_compute; reflexivity|]. repeat split; reflexivity.
  - eexists. split; [vm_compute; reflexivity|]. repeat split; reflexivity.
Qed.

(** ** Token numbers *)

(** C6. (a) Booking ahead: the slot is dated 2030-01-02 and the clock says
    2030-01-01.  The first allocation gets [DOC1-20300102-0001]; for the
    second one [_generate_token_number] yields [DOC1-20300102-0001] again,
    because no token has [allocated_at] on or after the slot's date, and the
    allocation dies on the unique constraint.  (b) A token for 2030-01-01 and
    a token for 2030-01-02 exist; the next token for 2030-01-01, allocated on
    2030-01-02, gets ordinal 0003 although one token was allocated to that
    doctor on that date. *)
Theorem token_number_ordinal_miscounts :
  map Token.token_number (tokens (session Scenario.ahead_roomy_booked))
  = ["DOC1-20300102-0001"%string]
  /\ snd (_generate_token_number 1 "2030-01-02" Scenario.ahead_roomy_booked)
     = inr "DOC1-20300102-0001"%string
  /\ snd (allocate_token (Scenario.at_hour 1 9) (Scenario.request "B" 1 1 ONLINE)
            Scenario.ahead_roomy_booked)
     = inl IntegrityError
  /\ map (fun k => (Token.slot_id k, Token.token_number k))
       (tokens (session Scenario.two_days_booked))
     = [(1, "DOC1-20300101-0001"%string); (2, "DOC1-20300102-0001"%string)]
  /\ (exists db' token,
         allocate_token (Scenario.at_hour 2 10) (Scenario.request "C" 1 1 WALK_IN)
           Scenario.two_days_booked
         = (db', inr token)
         /\ Token.token_number token = "DOC1-20300101-0003"%string).
Proof.
  repeat split; try reflexivity.
  do 2 eexists. split; [vm_compute; reflexivity | reflexivity].
Qed.

(** ** Requests that name another doctor *)

(** [allocate_token] never compares the request's doctor with the slot's: it
    succeeds whenever the slot is active with room, its date parses and the
    generated number is free. *)
Lemma allocate_token_succeeds (now : datetime) (request : TokenRequest.t) (db : Db)
    (slot : TimeSlot.t) (since : datetime) :
  find_slot (TokenRequest.slot_id request) (slots (session db)) = Some slot ->
  TimeSlot.is_active slot = true ->
  TimeSlot.current_count slot < TimeSlot.max_capacity slot ->
  Strptime.strptime (TimeSlot.date slot) = Some since ->
  existsb
    (fun k =>
       String.eqb (Token.token_number k)
         (token_number_text (TimeSlot.doctor_id slot) (TimeSlot.date slot)
            (count_tokens_since (TimeSlot.doctor_id slot) since
               (tokens (session db)))))
    (tokens (session db)) = false ->
  exists db' token,
    allocate_token now request db = (db', inr token)
    /\ Token.doctor_id token = TokenRequest.doctor_id request
    /\ Token.slot_id token = TokenRequest.slot_id request.
Proof.
  intros Hslot Hact Hroom Hdate Hfree.
  pose proof (allocate_token_run now request db) as Hrun.
  assert (exists db' token, allocate_token now request db = (db', inr token))
    as (db' & token & E).
  { unfold allocate_token. unfold bind at 1.
    rewrite _get_slot_with_validation_run, Hslot, Hact.
    assert ((TimeSlot.current_count slot >=? TimeSlot.max_capacity slot) = false) as ->.
    { destruct (_ >=? _) eqn:G; [|reflexivity]. apply Z.geb_le in G. lia. }
    unfold _generate_token_number. rewrite Hdate.
    run_engine. unfold db_add_flush.
    cbn [fst snd session committed slots tokens Token.token_number].
    rewrite Hfree. do 2 eexists. reflexivity. }
  exists db', token. split; [exact E|].
  rewrite E in Hrun. destruct Hrun as (s & d & _ & _ & _ & _ & _ & _ & _ & ->).
  split; reflexivity.
Qed.


(** ** Reallocation *)

(** C4. [reallocate_token] has no check of the token's status.  Token 1 was
    allocated in slot 1 and cancelled, so slot 1 is back at 0 and no token
    occupies either slot.  Reallocating the cancelled token to slot 2 returns:
    the token, still [CANCELLED], now sits in slot 2, slot 2 goes from 0 to 1
    and slot 1 stays at 0, so the two counters sum to 1 where they summed to
    0, and the change is committed.  Slot 2 (capacity 1) is then full with an
    empty queue: the next request for it is refused. *)
Theorem reallocate_moves_cancelled_token :
  option_map Token.status
    (find_token 1 (tokens (session Scenario.two_slots_cancelled))) = Some CANCELLED
  /\ count_of 1 (session Scenario.two_slots_cancelled) = Some 0
  /\ count_of 2 (session Scenario.two_slots_cancelled) = Some 0
  /\ exists db' moved,
       reallocate_token 1 2 None Scenario.two_slots_cancelled = (db', inr moved)
       /\ find_token 1 (tokens (session db')) = Some moved
       /\ Token.status moved = CANCELLED
       /\ Token.slot_id moved = 2
       /\ count_of 1 (session db') = Some 0
       /\ count_of 2 (session db') = Some 1
       /\ ~ moves_one_unit Scenario.two_slots_cancelled db' 1 2
       /\ committed db' = session db'
       /\ slot_queue 2 (tokens (session db')) = []
       /\ allocate_token (Scenario.at_hour 1 10)
            (Scenario.request "B" 1 2 WALK_IN) db'
          = (db', inl (ValueError (SlotFullAlternative 2 1 "09:00" "10:00"))).
Proof.
  repeat (split; [reflexivity|]).
  do 2 eexists. split; [vm_compute; reflexivity|].
  repeat (split; [reflexivity|]).
  split; [|repeat split; reflexivity].
  intros (old_count & new_count & H1 & _ & H3 & _).
  vm_compute in H1, H3. injection H1 as <-. discriminate.
Qed.

(** X20. [reallocate_token] either raises and leaves the database
    (every slot counter, every token field) as it was, or returns; it returns
    only when the token's doctor is the target slot's doctor and the target
    slot has room.  When it returns the token is in the target slot, the
    change is committed, the target slot's [current_count] is one more than
    before and the old slot's is [max(0, old - 1)], one less than before
    exactly when it was positive; when the target is the token's own slot its
    count ends at [max(0, old - 1) + 1]. *)
Theorem reallocate_token_counts (token_id new_slot_id : Z) (reason : option string)
    (db : Db) :
  match reallocate_token token_id new_slot_id reason db with
  | (db', inl _) => db' = db
  | (db', inr moved) =>
      exists token old_slot new_slot,
        find_token token_id (tokens (session db)) = Some token
        /\ find_slot (Token.slot_id token) (slots (session db)) = Some old_slot
        /\ find_slot new_slot_id (slots (session db)) = Some new_slot
        /\ Token.doctor_id token = TimeSlot.doctor_id new_slot
        /\ TimeSlot.current_count new_slot < TimeSlot.max_capacity new_slot
        /\ find_token token_id (tokens (session db')) = Some moved
        /\ Token.slot_id moved = new_slot_id
        /\ committed db' = session db'
        /\ (if Token.slot_id token =? new_slot_id then
              count_of new_slot_id (session db')
              = Some (Z.max 0 (TimeSlot.current_count old_slot - 1) + 1)
            else
              count_of (Token.slot_id token) (session db')
              = Some (Z.max 0 (TimeSlot.current_count old_slot - 1))
              /\ count_of new_slot_id (session db')
                 = Some (TimeSlot.current_count new_slot + 1)
              /\ (0 < TimeSlot.current_count old_slot ->
                  moves_one_unit db db' (Token.slot_id token) new_slot_id))
  end.
Proof.
  pose proof (reallocate_token_run token_id new_slot_id reason db) as H.
  destruct (reallocate_token token_id new_slot_id reason db) as [db' [e|moved]].
  - now destruct H.
  - destruct H as (token & old_slot & new_slot & Htok & Hold & Hnew & _ & _ & Hdoc
                   & Hroom & Hslots & Hcom & Hmoved & Hslot).
    exists token, old_slot, new_slot. repeat (split; [assumption|]).
    unfold count_of. rewrite Hslots.
    rewrite !find_slot_update by (apply release_id || apply reserve_id).
    rewrite Z.eqb_refl.
    destruct (Token.slot_id token =? new_slot_id) eqn:E.
    + apply Z.eqb_eq in E. rewrite E in Hold. rewrite Hnew in *.
      injection Hold as <-. reflexivity.
    + rewrite Z.eqb_sym, E, Z.eqb_refl, Hold, Hnew. simpl.
      split; [reflexivity|]. split; [reflexivity|].
      intros Hpos. unfold moves_one_unit, count_of.
      exists (TimeSlot.current_count old_slot), (TimeSlot.current_count new_slot).
      rewrite Hold, Hnew, Hslots.
      rewrite !find_slot_update by (apply release_id || apply reserve_id).
      rewrite Z.eqb_refl, (Z.eqb_sym new_slot_id), E, Z.eqb_refl, Hold, Hnew. simpl.
      repeat split. f_equal. lia.
Qed.

Lemma reallocate_token_counts_witness :
  moves_one_unit Scenario.two_slots_booked
    (fst (reallocate_token 1 2 None Scenario.two_slots_booked)) 1 2.
Proof.
  pose proof (reallocate_token_counts 1 2 None Scenario.two_slots_booked) as H.
  destruct (reallocate_token 1 2 None Scenario.two_slots_booked)
    as [db' [e|moved]] eqn:E.
  - vm_compute in E. discriminate.
  - destruct H as (token & old_slot & new_slot & Htok & Hold & _ & _ & _ & _ & _ & _
                   & Hcounts).
    vm_compute in Htok. injection Htok as <-.
    cbn [Token.slot_id Z.eqb Pos.eqb] in Hcounts.
    destruct Hcounts as (_ & _ & Hmove).
    vm_compute in Hold. injection Hold as <-.
    apply Hmove. reflexivity.
Defined.

(** ** Emergency insertion without force *)

Lemma hd_error_order_by_In {A : Type} (leb : A -> A -> bool) (l : list A) (x : A) :
  hd_error (order_by leb l) = Some x -> In x l.
Proof.
  intros H. apply (order_by_In leb).
  destruct (order_by leb l); [discriminate|]. injection H as ->. now left.
Qed.

(** The row [_find_alternative_slot] returns. *)
Lemma alternative_slot_some (doctor_id : Z) (date : string) (l : list TimeSlot.t)
    (s : TimeSlot.t) :
  alternative_slot doctor_id date l = Some s ->
  In s l
  /\ TimeSlot.doctor_id s = doctor_id
  /\ TimeSlot.date s = date
  /\ TimeSlot.is_active s = true
  /\ TimeSlot.current_count s < TimeSlot.max_capacity s.
Proof.
  unfold alternative_slot. intros H. apply hd_error_order_by_In in H.
  apply filter_In in H. destruct H as [Hin H]. b2p.
  destruct H as [[[H1 H2] H3] H4]. apply String.eqb_eq in H2. auto.
Qed.

(** The row the bump picks: an allocated walk-in of the slot with the lowest
    score, and among those the most recently allocated. *)
Lemma lowest_priority_walk_in_some (slot_id : Z) (l : list Token.t) (victim : Token.t) :
  lowest_priority_walk_in slot_id l = Some victim ->
  In victim l
  /\ Token.slot_id victim = slot_id
  /\ Token.source victim = WALK_IN
  /\ Token.status victim = ALLOCATED
  /\ forall k,
       In k l -> Token.slot_id k = slot_id -> Token.source k = WALK_IN ->
       Token.status k = ALLOCATED ->
       Token.priority_score victim <= Token.priority_score k
       /\ (Token.priority_score k = Token.priority_score victim ->
           datetime_leb (Token.allocated_at k) (Token.allocated_at victim) = true).
Proof.
  unfold lowest_priority_walk_in. intros H.
  apply (order_by_head bump_leb bump_leb_total bump_leb_trans) in H.
  destruct H as [Hin Hmin]. apply filter_In in Hin. destruct Hin as [Hin Hsel].
  b2p. destruct Hsel as [[H1 H2] H3].
  split; [exact Hin|]. split; [exact H1|].
  split; [now destruct (Token.source victim)|].
  split; [now destruct (Token.status victim)|].
  intros k Hk Hslot Hsrc Hst.
  assert (bump_leb victim k = true) as Hle.
  { apply Hmin, filter_In. split; [exact Hk|].
    rewrite Hslot, Hsrc, Hst, Z.eqb_refl. reflexivity. }
  unfold bump_leb in Hle. b2p. split; [lia|].
  intros E. destruct Hle as [Hlt|[_ Hd]]; [lia | exact Hd].
Qed.

Lemma lowest_priority_walk_in_none (slot_id : Z) (l : list Token.t) :
  lowest_priority_walk_in slot_id l = None ->
  forall k, In k l -> Token.slot_id k = slot_id -> Token.source k = WALK_IN ->
            Token.status k <> ALLOCATED.
Proof.
  unfold lowest_priority_walk_in. intros H k Hk Hslot Hsrc Hst.
  apply order_by_head_none in H.
  assert (In k []) as Hnil; [|destruct Hnil].
  rewrite <- H. apply filter_In. split; [exact Hk|].
  rewrite Hslot, Hsrc, Hst, Z.eqb_refl. reflexivity.
Qed.

(** C7, as stated, fails: slot 1 (capacity 2) is full with walk-in 1
    (allocated, score 20) and walk-in 2 (checked in, score 19).  The
    lowest-scored occupying walk-in is token 2, yet the bump picks token 1 and
    moves it to slot 2; token 2 stays. *)
Lemma bump_passes_over_checked_in_walk_in :
  lowest_priority_walk_in 1 (tokens (session Scenario.checked_in))
  = Some Scenario.early
  /\ In Scenario.late (tokens (session Scenario.checked_in))
  /\ Token.slot_id Scenario.late = 1
  /\ Token.source Scenario.late = WALK_IN
  /\ occupying (Token.status Scenario.late) = true
  /\ Token.priority_score Scenario.late < Token.priority_score Scenario.early
  /\ exists db' token,
       handle_emergency_insertion (Scenario.at_hour 1 10)
         (Scenario.request "C" 1 1 PRIORITY) false Scenario.checked_in
       = (db', inr token)
       /\ option_map Token.slot_id
            (find_token (Token.id Scenario.early) (tokens (session db'))) = Some 2
       /\ option_map Token.slot_id
            (find_token (Token.id Scenario.late) (tokens (session db'))) = Some 1.
Proof.
  split; [reflexivity|]. split; [simpl; auto|]. repeat (split; [reflexivity|]).
  do 2 eexists. split; [vm_compute; reflexivity|]. split; reflexivity.
Qed.

(** ** The queue of a slot *)

(** C8, as stated, fails: two distinct allocated tokens of slot 1 with the
    same [priority_score], [sequence_number] and [allocated_at]; neither
    compares before the other, and the queue lists them in table order. *)
Lemma queue_order_leaves_ties :
  Scenario.twin_a <> Scenario.twin_b
  /\ in_queue 1 Scenario.twin_a = true
  /\ in_queue 1 Scenario.twin_b = true
  /\ queue_before Scenario.twin_a Scenario.twin_b = false
  /\ queue_before Scenario.twin_b Scenario.twin_a = false
  /\ slot_queue 1 [Scenario.twin_a; Scenario.twin_b]
     = [Scenario.twin_a; Scenario.twin_b]
  /\ slot_queue 1 [Scenario.twin_b; Scenario.twin_a]
     = [Scenario.twin_b; Scenario.twin_a].
Proof.
  split; [discriminate|]. repeat split; reflexivity.
Qed.

(** C8, amended. The queue of a slot is a rearrangement of the slot's tokens
    with status allocated, checked_in or consulting, sorted by
    [priority_score] descending, then [sequence_number] ascending, then
    [allocated_at] ascending.  "Comes before" is irreflexive, asymmetric and
    transitive, and of two tokens that differ in one of the three keys
    exactly one comes before the other; tokens equal on all three keys are
    tied.  Reading the queue does not change the database, so a second read
    returns the same list, and sorting the queue again leaves it as it is. *)
Theorem get_slot_queue_order (slot_id : Z) (db : Db) :
  let queue := slot_queue slot_id (tokens (session db)) in
  get_slot_queue slot_id db = (db, inr queue)
  /\ get_slot_queue slot_id (fst (get_slot_queue slot_id db)) = (db, inr queue)
  /\ Permutation queue (filter (in_queue slot_id) (tokens (session db)))
  /\ sorted_by queue_leb queue
  /\ order_by queue_leb queue = queue
  /\ (forall a, queue_before a a = false)
  /\ (forall a b, queue_before a b = true -> queue_before b a = false)
  /\ (forall a b c,
         queue_before a b = true -> queue_before b c = true ->
         queue_before a c = true)
  /\ (forall a b,
         queue_key a <> queue_key b ->
         (queue_before a b = true /\ queue_before b a = false)
         \/ (queue_before b a = true /\ queue_before a b = false)).
Proof.
  cbv zeta. split; [reflexivity|]. split; [reflexivity|].
  split; [apply order_by_perm|].
  split; [apply (order_by_sorted queue_leb queue_leb_total queue_leb_trans)|].
  split; [apply (order_by_idem queue_leb queue_leb_total queue_leb_trans)|].
  unfold queue_before. repeat split.
  - intros a. destruct (queue_leb_total a a) as [H|H]; now rewrite H.
  - intros a b H. apply negb_true_iff in H.
    destruct (queue_leb_total a b) as [H'|H']; [now rewrite H' | congruence].
  - intros a b c Hab Hbc. apply negb_true_iff in Hab, Hbc. apply negb_true_iff.
    destruct (queue_leb c a) eqn:Hca; [|reflexivity].
    destruct (queue_leb_total b c) as [H|H]; [|congruence].
    rewrite (queue_leb_trans _ _ _ H Hca) in Hab. discriminate.
  - intros a b Hkey.
    destruct (queue_leb a b) eqn:Hab, (queue_leb b a) eqn:Hba; simpl; auto.
    + elim Hkey. now apply queue_leb_antisym.
    + destruct (queue_leb_total a b); congruence.
Qed.

Lemma get_slot_queue_order_witness :
  (queue_before Scenario.early Scenario.late = true
   /\ queue_before Scenario.late Scenario.early = false)
  \/ (queue_before Scenario.late Scenario.early = true
      /\ queue_before Scenario.early Scenario.late = false).
Proof.
  destruct (get_slot_queue_order 1 Scenario.checked_in)
    as (_ & _ & _ & _ & _ & _ & _ & _ & H).
  apply H. discriminate.
Defined.

Lemma capacity_invariant_witness :
  Forall capacity_ok
    (trace [Allocate (Scenario.at_hour 1 8) (Scenario.request "A" 1 1 WALK_IN);
            Allocate (Scenario.at_hour 1 8) (Scenario.request "B" 1 1 ONLINE);
            Reallocate 1 2 None;
            MarkNoShow (Scenario.at_hour 1 9) 1;
            Cancel (Scenario.at_hour 1 9) 1 None;
            EmergencyInsert (Scenario.at_hour 1 9)
              (Scenario.request "C" 1 1 PRIORITY) true;
            Reallocate 1 1 None]
       Scenario.two_slots).
Proof.
  apply capacity_invariant.
  split; repeat constructor; simpl; lia.
Defined.

(** * Further properties of the engine *)

(** ** Allocation *)

Lemma max_sequence_number_above (slot_id : Z) (l : list Token.t) (k : Token.t) :
  In k l -> Token.slot_id k = slot_id ->
  exists m, max_sequence_number slot_id l = Some m /\ Token.sequence_number k <= m.
Proof.
  unfold max_sequence_number. induction l as [|x r IH]; simpl; [contradiction|].
  intros [->|Hin] Hslot.
  - rewrite Hslot, Z.eqb_refl.
    destruct (fold_right _ None r) as [v|]; eexists; (split; [reflexivity|]); lia.
  - destruct (IH Hin Hslot) as (m & Hm & Hle). rewrite Hm.
    destruct (Token.slot_id x =? slot_id); eexists; (split; [reflexivity|]); lia.
Qed.

Lemma max_sequence_number_none (slot_id : Z) (l : list Token.t) :
  (forall k, In k l -> Token.slot_id k <> slot_id) ->
  max_sequence_number slot_id l = None.
Proof.
  unfold max_sequence_number. induction l as [|x r IH]; simpl; [reflexivity|].
  intros H. rewrite IH by (intros k Hk; apply H; now right).
  destruct (Token.slot_id x =? slot_id) eqn:E; [|reflexivity].
  apply Z.eqb_eq in E. elim (H x); auto.
Qed.

Lemma max_sequence_number_attained (slot_id : Z) (l : list Token.t) (m : Z) :
  max_sequence_number slot_id l = Some m ->
  exists k, In k l /\ Token.slot_id k = slot_id /\ Token.sequence_number k = m.
Proof.
  unfold max_sequence_number. revert m. induction l as [|x r IH]; simpl; [discriminate|].
  intros m H. destruct (Token.slot_id x =? slot_id) eqn:E.
  - apply Z.eqb_eq in E. destruct (fold_right _ None r) as [v|] eqn:F.
    + injection H as <-. destruct (Z.max_spec (Token.sequence_number x) v) as [[_ ->]|[_ ->]].
      * destruct (IH v eq_refl) as (k & Hk & Hs & Hq). exists k. auto.
      * exists x. auto.
    + injection H as <-. exists x. auto.
  - destruct (IH m H) as (k & Hk & Hs & Hq). exists k. auto.
Qed.

(** X2. [_get_next_sequence_number] reads without writing; its result is 1
    for a slot that holds no token, and otherwise one more than the largest
    sequence number among the slot's tokens of any status, hence larger than
    each of them. *)
Theorem next_sequence_number_is_fresh (slot_id : Z) (db : Db) :
  exists n,
    _get_next_sequence_number slot_id db = (db, inr n)
    /\ (forall k, In k (tokens (session db)) -> Token.slot_id k = slot_id ->
                  Token.sequence_number k < n)
    /\ ((forall k, In k (tokens (session db)) -> Token.slot_id k <> slot_id) ->
        n = 1)
    /\ ((exists k, In k (tokens (session db)) /\ Token.slot_id k = slot_id) ->
        exists k, In k (tokens (session db)) /\ Token.slot_id k = slot_id
                  /\ n = Token.sequence_number k + 1).
Proof.
  eexists. split; [reflexivity|]. split; [|split].
  - intros k Hk Hs. destruct (max_sequence_number_above _ _ _ Hk Hs) as (m & -> & Hle). lia.
  - intros H. now rewrite max_sequence_number_none.
  - intros (k & Hk & Hs).
    destruct (max_sequence_number_above _ _ _ Hk Hs) as (m & Hm & _). rewrite Hm.
    destruct (max_sequence_number_attained _ _ _ Hm) as (k' & Hk' & Hs' & Hq).
    exists k'. repeat split; auto. lia.
Qed.

Lemma existsb_false_forall {A : Type} (p : A -> bool) (l : list A) :
  existsb p l = false -> forall x, In x l -> p x = false.
Proof.
  induction l as [|y r IH]; simpl; [contradiction|].
  intros H x [->|Hx]; apply orb_false_iff in H; destruct H as [H1 H2]; auto.
Qed.

Lemma in_slot_queue (slot_id : Z) (l : list Token.t) (k : Token.t) :
  In k (slot_queue slot_id l)
  <-> In k l /\ Token.slot_id k = slot_id /\ occupying (Token.status k) = true.
Proof.
  unfold slot_queue. rewrite order_by_In, filter_In. b2p. tauto.
Qed.

(** What a returning [allocate_token] has done. *)
Lemma allocate_token_returns (now : datetime) (request : TokenRequest.t)
    (db db' : Db) (token : Token.t) :
  allocate_token now request db = (db', inr token) ->
  exists slot,
    find_slot (TokenRequest.slot_id request) (slots (session db)) = Some slot
    /\ TimeSlot.is_active slot = true
    /\ TimeSlot.is_full slot = false
    /\ Token.status token = ALLOCATED
    /\ Token.slot_id token = TokenRequest.slot_id request
    /\ Token.doctor_id token = TokenRequest.doctor_id request
    /\ Token.source token = TokenRequest.source request
    /\ Token.allocated_at token = now
    /\ Token.priority_score token
       = _calculate_priority_score (TokenRequest.source request)
           (TimeSlot.current_count slot)
    /\ (forall k, In k (tokens (session db)) -> Token.id k < Token.id token)
    /\ (forall k, In k (tokens (session db)) ->
                  Token.token_number k <> Token.token_number token)
    /\ (forall k, In k (tokens (session db)) ->
                  Token.slot_id k = TokenRequest.slot_id request ->
                  Token.sequence_number k < Token.sequence_number token)
    /\ tokens (session db') = tokens (session db) ++ [token]
    /\ find_token (Token.id token) (tokens (session db')) = Some token
    /\ In token (slot_queue (TokenRequest.slot_id request) (tokens (session db')))
    /\ count_of (TokenRequest.slot_id request) (session db')
       = Some (TimeSlot.current_count slot + 1)
    /\ (forall other, other <> TokenRequest.slot_id request ->
                      find_slot other (slots (session db'))
                      = find_slot other (slots (session db)))
    /\ committed db' = committed db.
Proof.
  unfold allocate_token. rewrite bind_run, _get_slot_with_validation_run.
  destruct (find_slot (TokenRequest.slot_id request) (slots (session db)))
    as [slot|] eqn:Hslot; [|discriminate].
  destruct (TimeSlot.is_active slot) eqn:Hact; [|discriminate].
  pose proof (find_slot_id _ _ _ Hslot) as Hid.
  destruct (TimeSlot.current_count slot >=? TimeSlot.max_capacity slot) eqn:Hcap.
  { run_engine. destruct (alternative_slot _ _ _); discriminate. }
  rewrite Hid. unfold _generate_token_number.
  destruct (Strptime.strptime (TimeSlot.date slot)) as [since|] eqn:Hdate;
    [|discriminate].
  run_engine. unfold db_add_flush. cbn [fst snd session committed slots tokens].
  destruct (existsb _ _) eqn:Hfree; [discriminate|].
  cbn [fst snd session committed slots tokens Token.id].
  rewrite find_token_app_new by reflexivity.
  intros E. injection E as <- <-.
  cbn [fst snd session committed slots tokens].
  exists slot. repeat (split; [first [assumption | reflexivity]|]).
  split.
  { intros k Hk. now apply next_token_id_above. }
  split.
  { intros k Hk Heq. pose proof (existsb_false_forall _ _ Hfree k Hk) as H.
    cbn [Token.token_number] in H, Heq. rewrite Heq, String.eqb_refl in H.
    discriminate. }
  split.
  { intros k Hk Hs. cbn [Token.sequence_number].
    destruct (max_sequence_number_above _ _ _ Hk Hs) as (m & -> & Hle). lia. }
  split; [reflexivity|].
  split; [now apply find_token_app_new|].
  split.
  { apply in_slot_queue. split; [|split; reflexivity].
    apply in_or_app. right. now left. }
  split.
  { unfold count_of. cbn [slots].
    rewrite find_slot_update by apply reserve_id.
    now rewrite Z.eqb_refl, Hslot. }
  split; [|reflexivity].
  intros other Hother. cbn [slots]. rewrite find_slot_update by apply reserve_id.
  destruct (TokenRequest.slot_id request =? other) eqn:E; [|reflexivity].
  apply Z.eqb_eq in E. congruence.
Qed.

(** X3. What a successful [allocate_token] has done.  The slot had room; the
    token is appended to the table with a primary key above all others, a
    number no other token carries, status [ALLOCATED], the request's doctor
    and source, the score computed from the occupancy before the reservation
    and a sequence number above all those of the slot's tokens; it can be
    fetched by its key and is in the slot's queue.  The slot's counter is
    exactly one higher, no other slot has changed, and nothing is
    committed. *)
Theorem allocate_token_success (now : datetime) (request : TokenRequest.t)
    (db db' : Db) (token : Token.t) :
  allocate_token now request db = (db', inr token) ->
  exists slot,
    find_slot (TokenRequest.slot_id request) (slots (session db)) = Some slot
    /\ TimeSlot.is_active slot = true
    /\ TimeSlot.is_full slot = false
    /\ Token.status token = ALLOCATED
    /\ Token.slot_id token = TokenRequest.slot_id request
    /\ Token.doctor_id token = TokenRequest.doctor_id request
    /\ Token.source token = TokenRequest.source request
    /\ Token.allocated_at token = now
    /\ Token.priority_score token
       = _calculate_priority_score (TokenRequest.source request)
           (TimeSlot.current_count slot)
    /\ (forall k, In k (tokens (session db)) -> Token.id k < Token.id token)
    /\ (forall k, In k (tokens (session db)) ->
                  Token.token_number k <> Token.token_number token)
    /\ (forall k, In k (tokens (session db)) ->
                  Token.slot_id k = TokenRequest.slot_id request ->
                  Token.sequence_number k < Token.sequence_number token)
    /\ tokens (session db') = tokens (session db) ++ [token]
    /\ find_token (Token.id token) (tokens (session db')) = Some token
    /\ In token (slot_queue (TokenRequest.slot_id request) (tokens (session db')))
    /\ count_of (TokenRequest.slot_id request) (session db')
       = Some (TimeSlot.current_count slot + 1)
    /\ (forall other, other <> TokenRequest.slot_id request ->
                      find_slot other (slots (session db'))
                      = find_slot other (slots (session db)))
    /\ committed db' = committed db.
Proof.
  exact (allocate_token_returns now request db db' token).
Qed.

Lemma allocate_token_success_witness :
  exists slot,
    find_slot 1 (slots (session Scenario.two_slots)) = Some slot
    /\ count_of 1 (session Scenario.two_slots_booked)
       = Some (TimeSlot.current_count slot + 1).
Proof.
  destruct (allocate_token_success (Scenario.at_hour 1 8)
              (Scenario.request "A" 1 1 WALK_IN) Scenario.two_slots
              (fst (allocate_token (Scenario.at_hour 1 8)
                      (Scenario.request "A" 1 1 WALK_IN) Scenario.two_slots))
              (Token.mk 1 "DOC1-20300101-0001" "A" "+1 555 010 0000" 1 1 WALK_IN
                 ALLOCATED 20 1 (Scenario.at_hour 1 8) None None None None)
              eq_refl)
    as (slot & Hslot & _ & _ & _ & _ & _ & _ & _ & _ & _ & _ & _ & _ & _ & _ & Hcount & _).
  exists slot. split; [exact Hslot|]. exact Hcount.
Defined.

(** ** No-show *)

Lemma update_token_map (token_id : Z) (f : Token.t -> Token.t) (g : Token.t -> Z)
    (l : list Token.t) :
  (forall k, g (f k) = g k) -> map g (update_token token_id f l) = map g l.
Proof.
  intros Hg. induction l as [|k r IH]; simpl; [reflexivity|].
  destruct (Token.id k =? token_id); simpl; [now rewrite Hg | now rewrite IH].
Qed.

Lemma update_token_twice (token_id : Z) (f g : Token.t -> Token.t) (l : list Token.t) :
  (forall k, Token.id (f k) = Token.id k) ->
  update_token token_id g (update_token token_id f l)
  = update_token token_id (fun k => g (f k)) l.
Proof.
  intros Hid. induction l as [|k r IH]; simpl; [reflexivity|].
  destruct (Token.id k =? token_id) eqn:E; simpl.
  - now rewrite Hid, E.
  - now rewrite E, IH.
Qed.

(** When [mark_no_show] returns, and what it has done then. *)
Lemma mark_no_show_returns (now : datetime) (token_id : Z) (db : Db) :
  (forall token slot,
      find_token token_id (tokens (session db)) = Some token ->
      Token.status token = ALLOCATED ->
      find_slot (Token.slot_id token) (slots (session db)) = Some slot ->
      TimeSlot.is_active slot = true ->
      let stamp k := Token.set_completed_at (Some now) (Token.set_status NO_SHOW k) in
      let st := mkStore (update_slot (Token.slot_id token) release (slots (session db)))
                  (update_token token_id stamp (tokens (session db))) in
      mark_no_show now token_id db = (mkDb (committed db) st, inr (stamp token))
      /\ count_of (Token.slot_id token) st
         = Some (Z.max 0 (TimeSlot.current_count slot - 1))
      /\ map Token.sequence_number (tokens st)
         = map Token.sequence_number (tokens (session db))
      /\ map Token.slot_id (tokens st) = map Token.slot_id (tokens (session db)))
  /\ (forall db' marked,
         mark_no_show now token_id db = (db', inr marked) ->
         exists token slot,
           find_token token_id (tokens (session db)) = Some token
           /\ Token.status token = ALLOCATED
           /\ find_slot (Token.slot_id token) (slots (session db)) = Some slot
           /\ TimeSlot.is_active slot = true).
Proof.
  split.
  - intros token slot Htok Hst Hslot Hact. cbv zeta.
    split; [|split; [|split]].
    + unfold mark_no_show. rewrite bind_run, _get_token_run, Htok, Hst.
      cbn [TokenStatus_eqb negb]. run_engine.
      rewrite Hslot, Hact. cbn [negb fst snd session committed slots tokens].
      rewrite (find_slot_id _ _ _ Hslot), (find_token_id _ _ _ Htok).
      rewrite update_token_twice by reflexivity.
      rewrite find_token_update by reflexivity.
      rewrite Z.eqb_refl, Htok. reflexivity.
    + unfold count_of. cbn [slots]. rewrite find_slot_update by apply release_id.
      now rewrite Z.eqb_refl, Hslot.
    + apply update_token_map. reflexivity.
    + apply update_token_map. reflexivity.
  - intros db' marked E.
    pose proof (mark_no_show_run now token_id db) as H. rewrite E in H.
    destruct H as (token & slot & H1 & H2 & H3 & H4 & _).
    exists token, slot. repeat split; assumption.
Qed.

(** X4. [mark_no_show] returns exactly when the token exists, its status is
    [ALLOCATED], and its slot exists and is active.  It then sets the status
    to [NO_SHOW] and [completed_at] to the clock on that token and nothing
    else on any token (sequence numbers stay as they are: there is no
    resequencing), releases one unit on the token's slot, floored at 0, and
    commits nothing. *)
Theorem mark_no_show_effect (now : datetime) (token_id : Z) (db : Db) :
  (forall token slot,
      find_token token_id (tokens (session db)) = Some token ->
      Token.status token = ALLOCATED ->
      find_slot (Token.slot_id token) (slots (session db)) = Some slot ->
      TimeSlot.is_active slot = true ->
      let stamp k := Token.set_completed_at (Some now) (Token.set_status NO_SHOW k) in
      let st := mkStore (update_slot (Token.slot_id token) release (slots (session db)))
                  (update_token token_id stamp (tokens (session db))) in
      mark_no_show now token_id db = (mkDb (committed db) st, inr (stamp token))
      /\ count_of (Token.slot_id token) st
         = Some (Z.max 0 (TimeSlot.current_count slot - 1))
      /\ map Token.sequence_number (tokens st)
         = map Token.sequence_number (tokens (session db))
      /\ map Token.slot_id (tokens st) = map Token.slot_id (tokens (session db)))
  /\ (forall db' marked,
         mark_no_show now token_id db = (db', inr marked) ->
         exists token slot,
           find_token token_id (tokens (session db)) = Some token
           /\ Token.status token = ALLOCATED
           /\ find_slot (Token.slot_id token) (slots (session db)) = Some slot
           /\ TimeSlot.is_active slot = true).
Proof.
  exact (mark_no_show_returns now token_id db).
Qed.

Lemma mark_no_show_effect_witness :
  count_of 1 (session Scenario.pair_after_no_show) = Some 1
  /\ map Token.sequence_number (tokens (session Scenario.pair_after_no_show))
     = [1; 2].
Proof.
  destruct (mark_no_show_effect (Scenario.at_hour 1 9) 1
              (Scenario.after
                 (allocate_token (Scenario.at_hour 1 8) (Scenario.request "B" 1 1 WALK_IN))
                 (Scenario.after
                    (allocate_token (Scenario.at_hour 1 8)
                       (Scenario.request "A" 1 1 WALK_IN))
                    Scenario.pair_slot)))
    as [H _].
  destruct (H (Token.mk 1 "DOC1-20300101-0001" "A" "+1 555 010 0000" 1 1 WALK_IN
                 ALLOCATED 20 1 (Scenario.at_hour 1 8) None None None None)
              (TimeSlot.mk 1 1 "2030-01-01" "09:00" "10:00" 2 2 true)
              eq_refl eq_refl eq_refl eq_refl) as (_ & Hcount & Hseq & _).
  split; [exact Hcount | exact Hseq].
Defined.

(** ** Scoring *)

(** X5. Within a class the score never rises with occupancy: from an
    occupancy [c >= 0] to a higher one the score does not increase, it lies
    between [weight * 10] and [weight * 10 + 10], and from occupancy 10 on it
    is exactly [weight * 10], so the eleventh and every later token of a
    class tie on score. *)
Theorem priority_score_decays (source : TokenSource) (c c' : Z) :
  0 <= c -> c <= c' ->
  _calculate_priority_score source c' <= _calculate_priority_score source c
  /\ PRIORITY_WEIGHTS source * 10 <= _calculate_priority_score source c
     <= PRIORITY_WEIGHTS source * 10 + 10
  /\ (c < 10 -> c < c' ->
      _calculate_priority_score source c' < _calculate_priority_score source c)
  /\ (10 <= c ->
      _calculate_priority_score source c = PRIORITY_WEIGHTS source * 10).
Proof.
  unfold _calculate_priority_score. intros H0 Hle. repeat split; lia.
Qed.

Lemma priority_score_decays_witness :
  _calculate_priority_score WALK_IN 10 < _calculate_priority_score WALK_IN 0.
Proof.
  destruct (priority_score_decays WALK_IN 0 10 (Z.le_refl 0) ltac:(lia))
    as (_ & _ & H & _).
  apply H; lia.
Defined.

(** ** Emergency insertion *)

(** [handle_emergency_insertion] without the bump. *)
Lemma handle_emergency_insertion_unfolds (now : datetime)
    (request : TokenRequest.t) (force : bool) (db : Db) :
  force = true
  \/ (forall slot,
         find_slot (TokenRequest.slot_id request) (slots (session db)) = Some slot ->
         TimeSlot.is_full slot = false) ->
  handle_emergency_insertion now request force db
  = (token <- allocate_token now (TokenRequest.set_source PRIORITY request) ;;
     modify_token (Token.id token) (Token.annotate "" "EMERGENCY INSERTION") ;;
     db_flush ;;
     current token) db.
Proof.
  intros Hcase.
  remember ((token <- allocate_token now (TokenRequest.set_source PRIORITY request) ;;
             modify_token (Token.id token) (Token.annotate "" "EMERGENCY INSERTION") ;;
             db_flush ;;
             current token) db) as R eqn:HR.
  unfold handle_emergency_insertion.
  rewrite bind_run, _get_slot_with_validation_run.
  destruct (find_slot (TokenRequest.slot_id request) (slots (session db)))
    as [slot|] eqn:Hslot.
  - destruct (TimeSlot.is_active slot) eqn:Hact.
    + assert ((TimeSlot.current_count slot >=? TimeSlot.max_capacity slot)
              && negb force = false) as ->.
      { destruct Hcase as [->|H]; [apply andb_false_r|].
        specialize (H slot eq_refl). unfold TimeSlot.is_full in H. now rewrite H. }
      subst R. reflexivity.
    + subst R. rewrite bind_run. unfold allocate_token.
      rewrite bind_run, _get_slot_with_validation_run.
      cbn [TokenRequest.set_source TokenRequest.slot_id].
      now rewrite Hslot, Hact.
  - subst R. rewrite bind_run. unfold allocate_token.
    rewrite bind_run, _get_slot_with_validation_run.
    cbn [TokenRequest.set_source TokenRequest.slot_id].
    now rewrite Hslot.
Qed.

(** ** The alternative slot *)

Lemma string_leb_trans (a b c : string) :
  String.leb a b = true -> String.leb b c = true -> String.leb a c = true.
Proof.
  unfold String.leb. revert b c.
  induction a as [|x a IH]; intros [|y b] [|z c]; simpl; try congruence.
  unfold Ascii.compare.
  destruct (N.compare_spec (N_of_ascii x) (N_of_ascii y));
  destruct (N.compare_spec (N_of_ascii y) (N_of_ascii z));
  destruct (N.compare_spec (N_of_ascii x) (N_of_ascii z));
  try lia; try congruence; auto.
  apply IH.
Qed.

Lemma is_full_false_iff (s : TimeSlot.t) :
  TimeSlot.is_full s = false <-> TimeSlot.current_count s < TimeSlot.max_capacity s.
Proof.
  unfold TimeSlot.is_full. split.
  - apply geb_false_lt.
  - intros H. destruct (_ >=? _) eqn:E; [|reflexivity]. apply Z.geb_le in E. lia.
Qed.

(** X7. [_find_alternative_slot] reads without writing.  The slot it returns
    is an active slot of that doctor on that date that is not full (its
    [available_capacity] is positive), and no other such slot starts
    earlier; it returns nothing exactly when every active slot of that
    doctor on that date is full. *)
Theorem find_alternative_slot_earliest (doctor_id : Z) (date : string) (db : Db) :
  let candidate s :=
    In s (slots (session db))
    /\ TimeSlot.doctor_id s = doctor_id
    /\ TimeSlot.date s = date
    /\ TimeSlot.is_active s = true
    /\ TimeSlot.is_full s = false in
  exists found,
    _find_alternative_slot doctor_id date db = (db, inr found)
    /\ match found with
       | Some s =>
           candidate s
           /\ 0 < TimeSlot.available_capacity s
           /\ forall s', candidate s' ->
                         String.leb (TimeSlot.start_time s) (TimeSlot.start_time s')
                         = true
       | None => forall s', ~ candidate s'
       end.
Proof.
  cbv zeta. eexists. split; [reflexivity|]. unfold alternative_slot.
  set (keep := fun s : TimeSlot.t =>
                 (TimeSlot.doctor_id s =? doctor_id)
                 && String.eqb (TimeSlot.date s) date
                 && TimeSlot.is_active s
                 && (TimeSlot.current_count s <? TimeSlot.max_capacity s)).
  assert (forall s,
             In s (filter keep (slots (session db)))
             <-> In s (slots (session db))
                 /\ TimeSlot.doctor_id s = doctor_id
                 /\ TimeSlot.date s = date
                 /\ TimeSlot.is_active s = true
                 /\ TimeSlot.is_full s = false) as Hkeep.
  { intros s. rewrite filter_In, is_full_false_iff. unfold keep. b2p.
    rewrite String.eqb_eq. tauto. }
  set (by_start := fun a b : TimeSlot.t =>
                     String.leb (TimeSlot.start_time a) (TimeSlot.start_time b)).
  destruct (hd_error (order_by by_start (filter keep (slots (session db)))))
    as [s|] eqn:Hhd.
  - apply (order_by_head by_start) in Hhd.
    + destruct Hhd as [Hin Hmin]. split; [now apply Hkeep|]. split.
      * apply Hkeep in Hin. destruct Hin as (_ & _ & _ & _ & Hroom).
        apply is_full_false_iff in Hroom. unfold TimeSlot.available_capacity. lia.
      * intros s' Hs'. apply Hmin. now apply Hkeep.
    + intros a b. apply String.leb_total.
    + intros a b c. apply string_leb_trans.
  - apply order_by_head_none in Hhd. intros s' Hs'. apply Hkeep in Hs'.
    rewrite Hhd in Hs'. destruct Hs'.
Qed.

Lemma find_alternative_slot_earliest_witness :
  exists s,
    _find_alternative_slot 1 "2030-01-01" Scenario.two_slots
    = (Scenario.two_slots, inr (Some s))
    /\ String.leb (TimeSlot.start_time s) "10:00" = true.
Proof.
  destruct (find_alternative_slot_earliest 1 "2030-01-01" Scenario.two_slots)
    as (found & E & H).
  vm_compute in E. injection E as <-.
  destruct H as (_ & _ & Hmin).
  eexists. split; [reflexivity|].
  apply (Hmin (Scenario.new_slot 2 1 "2030-01-01" "10:00" "11:00" 1)).
  repeat split. simpl. auto.
Defined.

(** ** Resequencing *)

Section SortedUnique.

Context {A : Type} (leb : A -> A -> bool).

(** A list sorted for [leb] that is a rearrangement of a strictly sorted
    list is that list. *)
Lemma sorted_perm_unique (m : list A) :
  StronglySorted (fun a b => leb b a = false) m ->
  forall s, sorted_by leb s -> Permutation s m -> s = m.
Proof.
  induction 1 as [|x m' Hm' IH Hx]; intros s Hs Hperm.
  - apply Permutation_sym in Hperm. now apply Permutation_nil in Hperm.
  - destruct s as [|y s'].
    + apply Permutation_nil in Hperm. discriminate.
    + assert (y = x) as ->.
      { assert (In x (y :: s')) as Hin
            by (apply (Permutation_in _ (Permutation_sym Hperm)); now left).
        destruct Hin as [E|Hin]; [exact E|].
        inversion Hs as [|? ? _ Hall]; subst.
        rewrite Forall_forall in Hall. specialize (Hall x Hin).
        assert (In y (x :: m')) as Hy by (apply (Permutation_in _ Hperm); now left).
        destruct Hy as [E|Hy]; [now symmetry|].
        rewrite Forall_forall in Hx. specialize (Hx y Hy). simpl in *. congruence. }
      f_equal. apply IH.
      * now inversion Hs.
      * eapply Permutation_cons_inv, Hperm.
Qed.

End SortedUnique.

Lemma renumbered_id (queue : list Token.t) :
  forall idx k, Token.id (renumbered idx queue k) = Token.id k.
Proof.
  induction queue as [|t r IH]; intros idx k; simpl; [reflexivity|].
  destruct (Token.id t =? Token.id k); [reflexivity | apply IH].
Qed.

Lemma renumbered_notin (queue : list Token.t) :
  forall idx k, ~ In (Token.id k) (map Token.id queue) -> renumbered idx queue k = k.
Proof.
  induction queue as [|t r IH]; intros idx k Hk; simpl; [reflexivity|].
  destruct (Token.id t =? Token.id k) eqn:E.
  - apply Z.eqb_eq in E. elim Hk. now left.
  - apply IH. intros H. apply Hk. now right.
Qed.

Lemma renumbered_forget (queue : list Token.t) :
  forall idx k,
    Token.set_sequence_number 0 (renumbered idx queue k)
    = Token.set_sequence_number 0 k.
Proof.
  induction queue as [|t r IH]; intros idx k; simpl; [reflexivity|].
  destruct (Token.id t =? Token.id k); [reflexivity | apply IH].
Qed.

Lemma update_token_unique (token_id : Z) (f : Token.t -> Token.t) (l : list Token.t) :
  NoDup (map Token.id l) ->
  update_token token_id f l
  = map (fun k => if Token.id k =? token_id then f k else k) l.
Proof.
  induction l as [|k r IH]; simpl; intros Hnd; [reflexivity|].
  inversion Hnd as [|? ? Hnotin Hr]; subst.
  destruct (Token.id k =? token_id) eqn:E.
  - f_equal. apply Z.eqb_eq in E. subst token_id.
    rewrite <- (map_id r) at 1. apply map_ext_in. intros x Hx.
    destruct (Token.id x =? Token.id k) eqn:E'; [|reflexivity].
    apply Z.eqb_eq in E'. elim Hnotin. rewrite <- E'. now apply in_map.
  - f_equal. now apply IH.
Qed.

Lemma renumber_map (queue : list Token.t) :
  forall idx l,
    NoDup (map Token.id l) -> NoDup (map Token.id queue) ->
    renumber idx queue l = map (renumbered idx queue) l.
Proof.
  induction queue as [|t r IH]; intros idx l Hl Hq; simpl.
  - symmetry. apply map_id.
  - inversion Hq as [|? ? Hnotin Hr]; subst.
    rewrite update_token_unique by exact Hl.
    rewrite IH; [|rewrite map_map; simpl|exact Hr].
    + rewrite map_map. apply map_ext. intros k.
      rewrite (Z.eqb_sym (Token.id t)).
      destruct (Token.id k =? Token.id t) eqn:E; [|reflexivity].
      apply Z.eqb_eq in E. apply renumbered_notin. simpl. now rewrite E.
    + erewrite map_ext; [exact Hl|]. intros k. simpl.
      now destruct (Token.id k =? Token.id t).
Qed.

Lemma renumbered_queue (queue : list Token.t) :
  forall idx, NoDup (map Token.id queue) ->
              map (renumbered idx queue) queue = number_from idx queue.
Proof.
  induction queue as [|t r IH]; intros idx Hq; simpl; [reflexivity|].
  inversion Hq as [|? ? Hnotin Hr]; subst.
  rewrite Z.eqb_refl. f_equal. rewrite <- IH by exact Hr.
  apply map_ext_in. intros k Hk.
  destruct (Token.id t =? Token.id k) eqn:E; [|reflexivity].
  apply Z.eqb_eq in E. elim Hnotin. rewrite E. now apply in_map.
Qed.

Lemma in_number_from (queue : list Token.t) :
  forall idx b,
    In b (number_from idx queue) ->
    exists k, In k queue /\ b = Token.set_sequence_number (Token.sequence_number b) k
              /\ idx <= Token.sequence_number b.
Proof.
  induction queue as [|t r IH]; intros idx b; simpl; [contradiction|].
  intros [<-|Hb].
  - exists t. split; [now left|]. split; [reflexivity|]. simpl. lia.
  - destruct (IH _ _ Hb) as (k & Hk & E & Hle). exists k.
    split; [now right|]. split; [exact E|]. lia.
Qed.

Lemma number_from_strict (queue : list Token.t) :
  sorted_by queue_leb queue ->
  forall idx,
    StronglySorted (fun a b => queue_leb b a = false) (number_from idx queue).
Proof.
  induction 1 as [|t r Hr IH Ht]; intros idx; simpl; constructor.
  - apply IH.
  - rewrite Forall_forall in *. intros b Hb.
    destruct (in_number_from _ _ _ Hb) as (k & Hk & E & Hle).
    specialize (Ht k Hk). rewrite E. unfold queue_leb in *. simpl.
    destruct (datetime_leb (Token.allocated_at t) (Token.allocated_at k));
    destruct (datetime_leb (Token.allocated_at k) (Token.allocated_at t));
    b2p; lia.
Qed.

Lemma number_from_sequence (queue : list Token.t) :
  forall idx, map Token.sequence_number (number_from idx queue) = count_from idx queue.
Proof.
  induction queue as [|t r IH]; intros idx; simpl; [reflexivity|]. now rewrite IH.
Qed.

Lemma number_from_ids (queue : list Token.t) :
  forall idx, map Token.id (number_from idx queue) = map Token.id queue.
Proof.
  induction queue as [|t r IH]; intros idx; simpl; [reflexivity|]. now rewrite IH.
Qed.

Lemma count_from_number_from (queue : list Token.t) :
  forall idx idx', count_from idx (number_from idx' queue) = count_from idx queue.
Proof.
  induction queue as [|t r IH]; intros idx idx'; simpl; [reflexivity|].
  now rewrite IH.
Qed.

Lemma filter_map_commute {A : Type} (p : A -> bool) (g : A -> A) (l : list A) :
  (forall x, p (g x) = p x) -> filter p (map g l) = map g (filter p l).
Proof.
  intros Hp. induction l as [|x r IH]; simpl; [reflexivity|].
  rewrite Hp. destruct (p x); simpl; now rewrite IH.
Qed.

(** Selecting rows keeps their primary keys pairwise distinct. *)
Lemma filter_unique_ids (keep : Token.t -> bool) (l : list Token.t) :
  NoDup (map Token.id l) -> NoDup (map Token.id (filter keep l)).
Proof.
  intros Hl. induction l as [|k l IH]; [constructor|].
  apply NoDup_cons_iff in Hl. destruct Hl as [Hk Hl].
  cbn [filter]. destruct (keep k); [|now apply IH].
  cbn [map]. apply NoDup_cons; [|now apply IH].
  intros Hin. apply Hk. apply in_map_iff in Hin.
  destruct Hin as (k' & E & Hin). apply in_map_iff.
  exists k'. split; [exact E|]. apply filter_In in Hin. tauto.
Qed.

Lemma slot_queue_unique_ids (slot_id : Z) (l : list Token.t) :
  NoDup (map Token.id l) -> NoDup (map Token.id (slot_queue slot_id l)).
Proof.
  intros H. unfold slot_queue.
  eapply Permutation_NoDup.
  - apply Permutation_map, Permutation_sym, order_by_perm.
  - now apply filter_unique_ids.
Qed.

(** The queue of a slot once the table has been renumbered along it. *)
Lemma slot_queue_renumbered (slot_id : Z) (l : list Token.t) :
  NoDup (map Token.id l) ->
  slot_queue slot_id (renumber 1 (slot_queue slot_id l) l)
  = number_from 1 (slot_queue slot_id l).
Proof.
  intros Hl. pose proof (slot_queue_unique_ids slot_id l Hl) as Hq.
  rewrite renumber_map by assumption.
  set (queue := slot_queue slot_id l) in *.
  unfold slot_queue at 1.
  change (fun k => (Token.slot_id k =? slot_id) && occupying (Token.status k))
    with (in_queue slot_id).
  rewrite filter_map_commute.
  2:{ intros k. unfold in_queue.
      replace (Token.slot_id (renumbered 1 queue k)) with (Token.slot_id k).
      replace (Token.status (renumbered 1 queue k)) with (Token.status k).
      reflexivity.
      - pose proof (renumbered_forget queue 1 k) as E.
        apply (f_equal Token.status) in E. exact (eq_sym E).
      - pose proof (renumbered_forget queue 1 k) as E.
        apply (f_equal Token.slot_id) in E. exact (eq_sym E). }
  apply (sorted_perm_unique queue_leb).
  - apply number_from_strict.
    apply (order_by_sorted queue_leb queue_leb_total queue_leb_trans).
  - apply (order_by_sorted queue_leb queue_leb_total queue_leb_trans).
  - rewrite <- (renumbered_queue queue 1 Hq).
    eapply Permutation_trans; [apply order_by_perm|].
    apply Permutation_map. apply Permutation_sym. apply order_by_perm.
Qed.

Lemma renumber_ids (queue : list Token.t) :
  forall idx l, map Token.id (renumber idx queue l) = map Token.id l.
Proof.
  induction queue as [|t r IH]; intros idx l; simpl; [reflexivity|].
  rewrite IH. apply update_token_map. reflexivity.
Qed.

(** The queue after [_resequence_slot_tokens]. *)
Lemma _resequence_slot_tokens_queue (slot_id : Z) (db : Db) :
  unique_token_ids (session db) ->
  let queue := slot_queue slot_id (tokens (session db)) in
  exists db',
    _resequence_slot_tokens slot_id db = (db', inr tt)
    /\ slot_queue slot_id (tokens (session db')) = number_from 1 queue
    /\ map Token.sequence_number (slot_queue slot_id (tokens (session db')))
       = count_from 1 queue
    /\ map Token.id (slot_queue slot_id (tokens (session db')))
       = map Token.id queue
    /\ (forall k, In k (tokens (session db)) -> in_queue slot_id k = false ->
                  In k (tokens (session db')))
    /\ map (Token.set_sequence_number 0) (tokens (session db'))
       = map (Token.set_sequence_number 0) (tokens (session db))
    /\ slots (session db') = slots (session db)
    /\ committed db' = session db'
    /\ unique_token_ids (session db').
Proof.
  unfold unique_token_ids. intros Hl. cbv zeta.
  rewrite _resequence_slot_tokens_eq. cbv zeta.
  eexists. split; [reflexivity|]. cbn [session committed slots tokens].
  pose proof (slot_queue_unique_ids slot_id _ Hl) as Hq.
  rewrite slot_queue_renumbered by exact Hl.
  split; [reflexivity|]. split; [apply number_from_sequence|].
  split; [apply number_from_ids|]. split.
  { intros k Hk Hout. rewrite renumber_map by assumption.
    apply in_map_iff. exists k. split; [|exact Hk].
    apply renumbered_notin. intros Hin. apply in_map_iff in Hin.
    destruct Hin as (t & Hid & Ht). apply in_slot_queue in Ht.
    destruct Ht as (Ht & Hs & Ho).
    assert (t = k) as ->.
    { clear - Hl Ht Hk Hid. induction (tokens (session db)) as [|x r IH];
        [destruct Hk|].
      simpl in Hl. inversion Hl as [|? ? Hnotin Hr]; subst.
      destruct Ht as [->|Ht], Hk as [->|Hk]; auto.
      - elim Hnotin. rewrite Hid. now apply in_map.
      - elim Hnotin. rewrite <- Hid. now apply in_map. }
    unfold in_queue in Hout. rewrite Hs, Ho, Z.eqb_refl in Hout. discriminate. }
  split.
  { rewrite renumber_map by assumption. rewrite map_map.
    apply map_ext. intros k. apply renumbered_forget. }
  split; [reflexivity|]. split; [reflexivity|].
  now rewrite renumber_ids.
Qed.

(** X8. With pairwise distinct primary keys, [_resequence_slot_tokens]
    leaves the slot's queue with the same tokens in the same order, carrying
    the sequence numbers 1, 2, ..., N.  Tokens outside the queue (other
    slots, terminal statuses) are untouched, no field other than
    [sequence_number] changes on any token, no slot changes, and the result
    is committed. *)
Theorem resequence_numbers_the_queue (slot_id : Z) (db : Db) :
  unique_token_ids (session db) ->
  let queue := slot_queue slot_id (tokens (session db)) in
  exists db',
    _resequence_slot_tokens slot_id db = (db', inr tt)
    /\ slot_queue slot_id (tokens (session db')) = number_from 1 queue
    /\ map Token.sequence_number (slot_queue slot_id (tokens (session db')))
       = count_from 1 queue
    /\ map Token.id (slot_queue slot_id (tokens (session db')))
       = map Token.id queue
    /\ (forall k, In k (tokens (session db)) -> in_queue slot_id k = false ->
                  In k (tokens (session db')))
    /\ map (Token.set_sequence_number 0) (tokens (session db'))
       = map (Token.set_sequence_number 0) (tokens (session db))
    /\ slots (session db') = slots (session db)
    /\ committed db' = session db'
    /\ unique_token_ids (session db').
Proof.
  exact (_resequence_slot_tokens_queue slot_id db).
Qed.

Lemma resequence_numbers_the_queue_witness :
  exists db',
    _resequence_slot_tokens 1 Scenario.pair_after_no_show = (db', inr tt)
    /\ map Token.sequence_number (slot_queue 1 (tokens (session db'))) = [1].
Proof.
  destruct (resequence_numbers_the_queue 1 Scenario.pair_after_no_show)
    as (db' & E & _ & Hseq & _).
  - unfold unique_token_ids. vm_compute. repeat constructor; simpl; intuition congruence.
  - exists db'. split; [exact E|]. exact Hseq.
Defined.

(** ** Cancellation *)

Lemma find_token_unique (l : list Token.t) (k : Token.t) :
  NoDup (map Token.id l) -> In k l -> find_token (Token.id k) l = Some k.
Proof.
  unfold find_token. induction l as [|x r IH]; simpl; intros Hnd Hin; [destruct Hin|].
  inversion Hnd as [|? ? Hnotin Hr]; subst.
  destruct Hin as [->|Hin]; [now rewrite Z.eqb_refl|].
  destruct (Token.id x =? Token.id k) eqn:E; [|now apply IH].
  apply Z.eqb_eq in E. elim Hnotin. rewrite E. now apply in_map.
Qed.

(** [cancel_token] on a token it accepts, in its three stages: the token is
    stamped, the slot released, the slot resequenced. *)
Lemma cancel_token_steps (now : datetime) (token_id : Z) (reason : option string)
    (db : Db) (token : Token.t) (slot : TimeSlot.t) :
  find_token token_id (tokens (session db)) = Some token ->
  Token.status token <> COMPLETED ->
  Token.status token <> CANCELLED ->
  find_slot (Token.slot_id token) (slots (session db)) = Some slot ->
  TimeSlot.is_active slot = true ->
  let stamp k :=
    (if Py.truthy reason
     then Token.annotate "Cancellation: " (Py.or_empty reason)
     else fun k => k)
      (Token.set_completed_at (Some now) (Token.set_status CANCELLED k)) in
  let db1 :=
    mkDb (committed db)
      (mkStore (update_slot (Token.slot_id token) release (slots (session db)))
         (update_token token_id stamp (tokens (session db)))) in
  let db2 := fst (_resequence_slot_tokens (Token.slot_id token) db1) in
  cancel_token now token_id reason db
  = (db2,
     inr match find_token token_id (tokens (session db2)) with
         | Some k => k
         | None => token
         end).
Proof.
  intros Htok Hc1 Hc2 Hslot Hact. cbv zeta.
  pose proof (find_token_id _ _ _ Htok) as Htid.
  pose proof (find_slot_id _ _ _ Hslot) as Hsid.
  unfold cancel_token. rewrite bind_run, _get_token_run, Htok.
  destruct (Token.status token) eqn:Hst; try congruence;
    run_engine; destruct (Py.truthy reason);
    cbn [fst snd session committed slots tokens];
    rewrite Hslot, Hact; cbn [negb]; rewrite Hsid, Htid;
    rewrite !_resequence_slot_tokens_eq; cbv zeta;
    cbn [fst snd session committed slots tokens];
    rewrite !update_token_twice by reflexivity;
    reflexivity.
Qed.

(** X9. A successful cancellation.  For a token that is neither completed
    nor cancelled, in an active slot, with pairwise distinct primary keys,
    [cancel_token] returns the token with status [CANCELLED] and
    [completed_at] at the clock; the slot's counter is released by one,
    floored at 0; the slot's queue afterwards holds the tokens it held before
    except the cancelled one, numbered 1, 2, ..., N; and the result is
    committed. *)
Theorem cancel_token_success (now : datetime) (token_id : Z) (reason : option string)
    (db : Db) (token : Token.t) (slot : TimeSlot.t) :
  unique_token_ids (session db) ->
  find_token token_id (tokens (session db)) = Some token ->
  Token.status token <> COMPLETED ->
  Token.status token <> CANCELLED ->
  find_slot (Token.slot_id token) (slots (session db)) = Some slot ->
  TimeSlot.is_active slot = true ->
  exists db' cancelled,
    cancel_token now token_id reason db = (db', inr cancelled)
    /\ find_token token_id (tokens (session db')) = Some cancelled
    /\ Token.status cancelled = CANCELLED
    /\ Token.completed_at cancelled = Some now
    /\ Token.slot_id cancelled = Token.slot_id token
    /\ count_of (Token.slot_id token) (session db')
       = Some (Z.max 0 (TimeSlot.current_count slot - 1))
    /\ (forall i,
           In i (map Token.id (slot_queue (Token.slot_id token) (tokens (session db'))))
           <-> In i (map Token.id
                       (slot_queue (Token.slot_id token) (tokens (session db))))
               /\ i <> token_id)
    /\ map Token.sequence_number
         (slot_queue (Token.slot_id token) (tokens (session db')))
       = count_from 1 (slot_queue (Token.slot_id token) (tokens (session db')))
    /\ committed db' = session db'.
Proof.
  unfold unique_token_ids. intros Hl Htok Hc1 Hc2 Hslot Hact.
  rewrite (cancel_token_steps now token_id reason db token slot) by assumption.
  cbv zeta.
  set (stamp := fun k : Token.t =>
                  (if Py.truthy reason
                   then Token.annotate "Cancellation: " (Py.or_empty reason)
                   else fun k => k)
                    (Token.set_completed_at (Some now) (Token.set_status CANCELLED k))).
  assert (forall k, Token.id (stamp k) = Token.id k) as Hstamp_id
      by (intros k; unfold stamp; now destruct (Py.truthy reason)).
  assert (forall k, Token.status (stamp k) = CANCELLED) as Hstamp_st
      by (intros k; unfold stamp; now destruct (Py.truthy reason)).
  assert (forall k, Token.slot_id (stamp k) = Token.slot_id k) as Hstamp_slot
      by (intros k; unfold stamp; now destruct (Py.truthy reason)).
  assert (forall k, Token.completed_at (stamp k) = Some now) as Hstamp_at
      by (intros k; unfold stamp; now destruct (Py.truthy reason)).
  set (tokens1 := update_token token_id stamp (tokens (session db))).
  set (db1 := mkDb (committed db)
                (mkStore (update_slot (Token.slot_id token) release (slots (session db)))
                   tokens1)).
  assert (NoDup (map Token.id tokens1)) as Hl1.
  { unfold tokens1. now rewrite update_token_map. }
  assert (find_token token_id tokens1 = Some (stamp token)) as Htok1.
  { unfold tokens1. rewrite find_token_update by exact Hstamp_id.
    now rewrite Z.eqb_refl, Htok. }
  destruct (_resequence_slot_tokens_queue (Token.slot_id token) db1 Hl1)
    as (db2 & E & Hqueue & Hseq & Hids & _ & _ & Hslots & Hcom & _).
  rewrite E. cbn [fst]. unfold db1 in Hqueue, Hseq, Hids, Hslots, E.
  cbn [session tokens slots] in Hqueue, Hseq, Hids, Hslots.
  assert (exists n, find_token token_id (tokens (session db2))
                    = Some (Token.set_sequence_number n (stamp token)))
    as (n & Hfind).
  { rewrite _resequence_slot_tokens_eq in E. cbv zeta in E.
    injection E as <-. cbn [session tokens].
    now apply renumber_find_some. }
  rewrite Hfind. do 2 eexists. split; [reflexivity|].
  split; [exact Hfind|]. split; [apply Hstamp_st|]. split; [apply Hstamp_at|].
  split; [apply Hstamp_slot|]. split.
  { unfold count_of. rewrite Hslots, find_slot_update by apply release_id.
    now rewrite Z.eqb_refl, Hslot. }
  split; [|split; [|exact Hcom]].
  - intros i. rewrite Hids.
    unfold tokens1. rewrite update_token_unique by exact Hl.
    rewrite !in_map_iff. split.
    + intros (k & <- & Hk). apply in_slot_queue in Hk.
      destruct Hk as (Hk & Hs & Ho). apply in_map_iff in Hk.
      destruct Hk as (k0 & Ek & Hk0).
      destruct (Token.id k0 =? token_id) eqn:Eid.
      * subst k. rewrite Hstamp_st in Ho. discriminate.
      * subst k. split.
        -- exists k0. split; [reflexivity|]. apply in_slot_queue. auto.
        -- now apply Z.eqb_neq.
    + intros ((k & <- & Hk) & Hneq). apply in_slot_queue in Hk.
      destruct Hk as (Hk & Hs & Ho). exists k. split; [reflexivity|].
      apply in_slot_queue. split; [|auto].
      apply in_map_iff. exists k. split; [|exact Hk].
      apply Z.eqb_neq in Hneq. now rewrite Hneq.
  - rewrite Hqueue. rewrite number_from_sequence.
    clear. generalize 1.
    induction (slot_queue (Token.slot_id token) tokens1) as [|t r IH];
      intros idx; simpl; [reflexivity|]. now rewrite <- IH.
Qed.

Lemma cancel_token_success_witness :
  exists db' cancelled,
    cancel_token (Scenario.at_hour 1 9) 2 None three_walk_ins = (db', inr cancelled)
    /\ Token.status cancelled = CANCELLED
    /\ count_of 1 (session db') = Some 2
    /\ map Token.sequence_number (slot_queue 1 (tokens (session db')))
       = count_from 1 (slot_queue 1 (tokens (session db'))).
Proof.
  assert (unique_token_ids (session three_walk_ins)) as Hunique.
  { unfold unique_token_ids. vm_compute.
    repeat constructor; simpl; intuition congruence. }
  destruct (cancel_token_success (Scenario.at_hour 1 9) 2 None three_walk_ins
              (Token.mk 2 "DOC1-20300101-0002" "Y" "+1 555 010 0000" 1 1 WALK_IN
                 ALLOCATED 19 2 (Scenario.at_hour 1 8) None None None None)
              (TimeSlot.mk 1 1 "2030-01-01" "09:00" "10:00" 5 3 true)
              Hunique eq_refl ltac:(discriminate) ltac:(discriminate)
              eq_refl eq_refl)
    as (db' & cancelled & E & _ & Hst & _ & _ & Hcount & _ & Hseq & _).
  exists db', cancelled. repeat split; assumption.
Defined.

(** X10. Allocation undone.  After a successful [allocate_token] on a
    database whose counters are within bounds, cancelling the new token, or
    marking it no-show, returns and brings the slot's [current_count] back to
    what it was before the allocation; the token stays in the table with
    status [CANCELLED], respectively [NO_SHOW]. *)
Theorem allocate_then_release (now later : datetime) (request : TokenRequest.t)
    (reason : option string) (db db1 : Db) (token : Token.t) :
  capacity_ok db ->
  allocate_token now request db = (db1, inr token) ->
  (exists db2 cancelled,
      cancel_token later (Token.id token) reason db1 = (db2, inr cancelled)
      /\ Token.id cancelled = Token.id token
      /\ Token.status cancelled = CANCELLED
      /\ count_of (TokenRequest.slot_id request) (session db2)
         = count_of (TokenRequest.slot_id request) (session db))
  /\ (exists db2 marked,
         mark_no_show later (Token.id token) db1 = (db2, inr marked)
         /\ Token.id marked = Token.id token
         /\ Token.status marked = NO_SHOW
         /\ count_of (TokenRequest.slot_id request) (session db2)
            = count_of (TokenRequest.slot_id request) (session db)).
Proof.
  intros [_ Hok] Halloc.
  destruct (allocate_token_returns _ _ _ _ _ Halloc)
    as (slot & Hslot & Hact & _ & Hst & Hsid & _ & _ & _ & _ & _ & _ & _ & _
        & Hfind & _ & Hcount & _ & _).
  assert (0 <= TimeSlot.current_count slot) as Hpos.
  { rewrite Forall_forall in Hok. apply (Hok slot). eapply find_slot_In, Hslot. }
  assert (find_slot (Token.slot_id token) (slots (session db1)) = Some (reserve slot))
    as Hslot1.
  { unfold count_of in Hcount. rewrite Hsid.
    pose proof (allocate_token_run now request db) as Hrun. rewrite Halloc in Hrun.
    destruct Hrun as (s & d & Hs & _ & _ & _ & _ & Hslots & _).
    rewrite Hslots, find_slot_update by apply reserve_id.
    now rewrite Z.eqb_refl, Hslot. }
  assert (count_of (TokenRequest.slot_id request) (session db)
          = Some (Z.max 0 (TimeSlot.current_count (reserve slot) - 1))) as Hback.
  { unfold count_of. rewrite Hslot. simpl. f_equal. lia. }
  split.
  - rewrite (cancel_token_steps later (Token.id token) reason db1 token (reserve slot))
      by (assumption || congruence).
    cbv zeta. rewrite _resequence_slot_tokens_eq. cbv zeta.
    cbn [fst session committed slots tokens].
    match goal with
    | |- context [find_token ?i (renumber 1 ?q ?l)] =>
        assert (exists k0, find_token i l = Some k0
                           /\ Token.status k0 = CANCELLED
                           /\ Token.id k0 = Token.id token) as (k0 & Hk0 & Hs0 & Hi0);
        [| destruct (renumber_find_some q 1 l i k0 Hk0) as (n & Hn); rewrite Hn ]
    end.
    { rewrite find_token_update by (intros k; now destruct (Py.truthy reason)).
      rewrite Z.eqb_refl, Hfind. eexists. split; [reflexivity|].
      destruct (Py.truthy reason); split; reflexivity. }
    do 2 eexists. split; [reflexivity|]. split; [exact Hi0|]. split; [exact Hs0|].
    unfold count_of at 1. cbn [session slots]. rewrite <- Hsid.
    rewrite find_slot_update by apply release_id.
    rewrite Z.eqb_refl, Hslot1. rewrite Hsid. exact (eq_sym Hback).
  - destruct (mark_no_show_returns later (Token.id token) db1) as [H _].
    destruct (H token (reserve slot) Hfind Hst Hslot1 Hact) as (E & Hc & _).
    rewrite E. do 2 eexists. split; [reflexivity|]. split; [reflexivity|].
    split; [reflexivity|]. cbn [session]. rewrite <- Hsid, Hc, Hsid.
    exact (eq_sym Hback).
Qed.

Lemma allocate_then_release_witness :
  exists db2 cancelled,
    cancel_token (Scenario.at_hour 1 9) 1 None
      (fst (allocate_token (Scenario.at_hour 1 8)
              (Scenario.request "A" 1 1 WALK_IN) Scenario.two_slots))
    = (db2, inr cancelled)
    /\ count_of 1 (session db2) = count_of 1 (session Scenario.two_slots).
Proof.
  assert (capacity_ok Scenario.two_slots) as Hok
      by (split; repeat constructor; simpl; lia).
  destruct (allocate_then_release (Scenario.at_hour 1 8) (Scenario.at_hour 1 9)
              (Scenario.request "A" 1 1 WALK_IN) None Scenario.two_slots
              (fst (allocate_token (Scenario.at_hour 1 8)
                      (Scenario.request "A" 1 1 WALK_IN) Scenario.two_slots))
              (Token.mk 1 "DOC1-20300101-0001" "A" "+1 555 010 0000" 1 1 WALK_IN
                 ALLOCATED 20 1 (Scenario.at_hour 1 8) None None None None)
              Hok eq_refl)
    as [(db2 & cancelled & E & _ & _ & Hcount) _].
  exists db2, cancelled. split; [exact E | exact Hcount].
Defined.

(** ** Primary keys stay distinct *)

Lemma preserves_bind (P : Db -> Prop) {A B : Type} (m : M A) (k : A -> M B) :
  preserves P m -> (forall a, preserves P (k a)) -> preserves P (bind m k).
Proof.
  intros Hm Hk db H. rewrite bind_run. specialize (Hm db H).
  destruct (m db) as [db' [e|a]]; [exact Hm|]. now apply Hk.
Qed.

Lemma preserves_ret (P : Db -> Prop) {A : Type} (a : A) : preserves P (ret a).
Proof. intros db H. exact H. Qed.

Lemma preserves_raise (P : Db -> Prop) {A : Type} (e : Exn) :
  preserves P (@raise A e).
Proof. intros db H. exact H. Qed.

Lemma preserves_read (P : Db -> Prop) {A : Type} (q : Store -> A) :
  preserves P (read q).
Proof. intros db H. exact H. Qed.

Lemma ids_ok_modify_token (token_id : Z) (f : Token.t -> Token.t) :
  (forall k, Token.id (f k) = Token.id k) ->
  preserves ids_ok (modify_token token_id f).
Proof.
  intros Hf db [Hc Hs]. split; [exact Hc|].
  unfold unique_token_ids in *. simpl. now rewrite update_token_map.
Qed.

Lemma ids_ok_modify_slot (slot_id : Z) (f : TimeSlot.t -> TimeSlot.t) :
  preserves ids_ok (modify_slot slot_id f).
Proof. intros db [Hc Hs]. split; assumption. Qed.

Lemma ids_ok_commit : preserves ids_ok db_commit.
Proof. intros db [Hc Hs]. split; assumption. Qed.

Lemma ids_ok_add_flush (now : datetime) (mk_token : Z -> datetime -> Token.t) :
  (forall id allocated_at, Token.id (mk_token id allocated_at) = id) ->
  preserves ids_ok (db_add_flush now mk_token).
Proof.
  intros Hmk db [Hc Hs]. unfold db_add_flush.
  destruct (existsb _ _); simpl; [now split|]. split; [exact Hc|].
  unfold unique_token_ids in *. simpl. rewrite map_app. simpl. rewrite Hmk.
  apply NoDup_app; [exact Hs | repeat constructor; auto |].
  intros i Hi [<-|[]]. apply in_map_iff in Hi. destruct Hi as (k & Hk & Hin).
  apply next_token_id_above in Hin. lia.
Qed.

Lemma ids_ok_assign (queue : list Token.t) :
  forall idx, preserves ids_ok (assign_sequence_numbers idx queue).
Proof.
  induction queue as [|t r IH]; intros idx; simpl.
  - apply preserves_ret.
  - apply preserves_bind; [now apply ids_ok_modify_token | intros _; apply IH].
Qed.

Ltac keep_ids :=
  repeat first
    [ apply preserves_ret
    | apply preserves_raise
    | apply preserves_read
    | apply ids_ok_modify_slot
    | apply ids_ok_commit
    | apply ids_ok_assign
    | apply ids_ok_modify_token; intros; reflexivity
    | apply ids_ok_add_flush; intros; reflexivity
    | apply preserves_bind; [|intros]
    | match goal with
      | |- preserves _ (match ?x with _ => _ end) => destruct x
      | |- preserves _ (if ?x then _ else _) => destruct x
      end ].

Lemma ids_ok_get_slot (slot_id : Z) : preserves ids_ok (_get_slot_with_validation slot_id).
Proof. unfold _get_slot_with_validation. keep_ids. Qed.

Lemma ids_ok_resequence (slot_id : Z) : preserves ids_ok (_resequence_slot_tokens slot_id).
Proof. unfold _resequence_slot_tokens, get_slot_queue. keep_ids. Qed.

Lemma ids_ok_note (token_id : Z) (label : string) (reason : option string) :
  preserves ids_ok (note_reason token_id label reason).
Proof.
  unfold note_reason. destruct (Py.truthy reason); [|apply preserves_ret].
  now apply ids_ok_modify_token.
Qed.

Lemma ids_ok_allocate (now : datetime) (request : TokenRequest.t) :
  preserves ids_ok (allocate_token now request).
Proof.
  unfold allocate_token, _find_alternative_slot, _get_next_sequence_number,
    _generate_token_number, current.
  apply preserves_bind; [apply ids_ok_get_slot | intros slot]. keep_ids.
Qed.

Lemma ids_ok_cancel (now : datetime) (token_id : Z) (reason : option string) :
  preserves ids_ok (cancel_token now token_id reason).
Proof.
  unfold cancel_token, _get_token, current, db_flush.
  apply preserves_bind; [keep_ids | intros token].
  destruct (Token.status token);
    repeat first [ apply ids_ok_get_slot | apply ids_ok_resequence | apply ids_ok_note
                 | apply preserves_raise | apply preserves_read | apply preserves_ret
                 | apply ids_ok_modify_slot
                 | apply ids_ok_modify_token; intros; reflexivity
                 | apply preserves_bind; [|intros] ].
Qed.

Lemma ids_ok_mark_no_show (now : datetime) (token_id : Z) :
  preserves ids_ok (mark_no_show now token_id).
Proof.
  unfold mark_no_show, _get_token, current, db_flush.
  apply preserves_bind; [keep_ids | intros token].
  destruct (negb _);
    repeat first [ apply ids_ok_get_slot | apply preserves_raise | apply preserves_read
                 | apply preserves_ret | apply ids_ok_modify_slot
                 | apply ids_ok_modify_token; intros; reflexivity
                 | apply preserves_bind; [|intros] ].
Qed.

Lemma ids_ok_reallocate (token_id new_slot_id : Z) (reason : option string) :
  preserves ids_ok (reallocate_token token_id new_slot_id reason).
Proof.
  unfold reallocate_token, _get_token, current, db_flush, _get_next_sequence_number.
  apply preserves_bind; [keep_ids | intros token].
  apply preserves_bind; [apply ids_ok_get_slot | intros old_slot].
  apply preserves_bind; [apply ids_ok_get_slot | intros new_slot].
  destruct (negb _); [apply preserves_raise|].
  destruct (_ >=? _); [apply preserves_raise|].
  repeat first [ apply ids_ok_resequence | apply ids_ok_note
               | apply preserves_read | apply preserves_ret | apply ids_ok_modify_slot
               | apply ids_ok_modify_token; intros; reflexivity
               | apply preserves_bind; [|intros] ].
Qed.

Lemma ids_ok_emergency (now : datetime) (request : TokenRequest.t) (force : bool) :
  preserves ids_ok (handle_emergency_insertion now request force).
Proof.
  unfold handle_emergency_insertion, _reallocate_lowest_priority,
    _find_alternative_slot, current, db_flush.
  apply preserves_bind; [apply ids_ok_get_slot | intros slot].
  apply preserves_bind.
  - destruct (_ && _); [|apply preserves_ret].
    apply preserves_bind.
    + apply preserves_bind; [apply preserves_read | intros [victim|]];
        [|apply preserves_ret].
      apply preserves_bind; [apply ids_ok_get_slot | intros slot'].
      apply preserves_bind; [apply preserves_read | intros [alternative|]];
        [|apply preserves_ret].
      apply preserves_bind; [apply ids_ok_reallocate | intros _; apply preserves_ret].
    + intros reallocated. destruct (negb reallocated); [|apply preserves_ret].
      destruct force; [apply preserves_ret | apply preserves_raise].
  - intros _. apply preserves_bind; [apply ids_ok_allocate | intros token].
    apply preserves_bind; [now apply ids_ok_modify_token | intros _].
    apply preserves_bind; [apply preserves_ret | intros _; apply preserves_read].
Qed.

(** X11. Every engine operation keeps the primary keys of [tokens] pairwise
    distinct, in the session and in what is committed: a new token gets the
    key after the largest one, and no operation rewrites a key.  So the
    precondition of the resequencing and cancellation properties above holds
    in every database the engine produces from one where it holds. *)
Theorem engine_keeps_keys_distinct (ops : list Operation) (db : Db) :
  ids_ok db -> Forall ids_ok (trace ops db).
Proof.
  revert db. induction ops as [|op rest IH]; intros db H; simpl; constructor.
  - destruct op; simpl;
      [ now apply ids_ok_allocate | now apply ids_ok_cancel
      | now apply ids_ok_mark_no_show | now apply ids_ok_reallocate
      | now apply ids_ok_emergency | now apply ids_ok_commit
      | destruct H; now split ].
  - apply IH. destruct op; simpl;
      [ now apply ids_ok_allocate | now apply ids_ok_cancel
      | now apply ids_ok_mark_no_show | now apply ids_ok_reallocate
      | now apply ids_ok_emergency | now apply ids_ok_commit
      | destruct H; now split ].
Qed.

Lemma engine_keeps_keys_distinct_witness :
  Forall ids_ok
    (trace [Allocate (Scenario.at_hour 1 8) (Scenario.request "A" 1 1 WALK_IN);
            Allocate (Scenario.at_hour 1 8) (Scenario.request "B" 1 2 ONLINE);
            Reallocate 1 2 None;
            Cancel (Scenario.at_hour 1 9) 2 None]
       Scenario.two_slots).
Proof.
  apply engine_keeps_keys_distinct. split; constructor.
Defined.

(** * The endpoints *)

Lemma storewise_capacity_ok : storewise capacity_ok.
Proof. intros db [Hc Hs]. split; split; assumption. Qed.

Lemma storewise_ids_ok : storewise ids_ok.
Proof. intros db [Hc Hs]. split; split; assumption. Qed.

(** An endpoint that calls the engine keeps what the engine call keeps. *)
Lemma call_engine_preserves (P : Db -> Prop) (m : M Token.t) (db : Db) :
  storewise P -> preserves P m -> P db ->
  P (fst (Api.get_db (Api.call_engine m) db)).
Proof.
  intros Hstore Hm H. unfold Api.get_db, Api.call_engine.
  rewrite bind_run.
  pose proof (Hm _ (proj1 (Hstore db H))) as H1.
  destruct (m (mkDb (committed db) (committed db))) as [db1 [[msg|]|token]]; simpl.
  - now apply Hstore.
  - now apply Hstore.
  - now apply Hstore.
Qed.

(** An endpoint that calls the engine ends committed or rolled back; when it
    raises and the engine call commits nothing on failure, what is committed
    is what was. *)
Lemma call_engine_atomic (m : M Token.t) (db : Db) :
  (forall dbx db' e, m dbx = (db', inl e) -> committed db' = committed dbx) ->
  session (fst (Api.get_db (Api.call_engine m) db))
  = committed (fst (Api.get_db (Api.call_engine m) db))
  /\ (forall e, snd (Api.get_db (Api.call_engine m) db) = inl e ->
                committed (fst (Api.get_db (Api.call_engine m) db)) = committed db).
Proof.
  intros Hfail. unfold Api.get_db, Api.call_engine. rewrite bind_run.
  destruct (m (mkDb (committed db) (committed db))) as [db1 [[msg|]|token]] eqn:E;
    simpl.
  - split; [reflexivity|]. intros _ _. now rewrite (Hfail _ _ _ E).
  - split; [reflexivity|]. intros _ _. now rewrite (Hfail _ _ _ E).
  - split; [reflexivity|]. intros e H. discriminate.
Qed.

Lemma allocate_token_fails_clean (now : datetime) (request : TokenRequest.t)
    (db db' : Db) (e : Exn) :
  allocate_token now request db = (db', inl e) -> committed db' = committed db.
Proof.
  intros E. pose proof (allocate_token_run now request db) as H. rewrite E in H.
  destruct e; now subst db'.
Qed.

Lemma forced_insertion_fails_clean (now : datetime) (request : TokenRequest.t)
    (db db' : Db) (e : Exn) :
  handle_emergency_insertion now request true db = (db', inl e) ->
  committed db' = committed db.
Proof.
  rewrite handle_emergency_insertion_unfolds by now left.
  rewrite bind_run.
  destruct (allocate_token now (TokenRequest.set_source PRIORITY request) db)
    as [db1 [e1|token]] eqn:E.
  - intros H. injection H as <- <-. eapply allocate_token_fails_clean, E.
  - run_engine. discriminate.
Qed.

(** One request: the session ends equal to what is committed, and an exception leaves that as it was. *)
Lemma serve_atomic (r : Request) (db : Db) :
  session (fst (serve r db)) = committed (fst (serve r db))
  /\ (snd (serve r db) <> None -> committed (fst (serve r db)) = committed db).
Proof.
  assert (forall (m : M Token.t),
             (forall dbx db' e, m dbx = (db', inl e) -> committed db' = committed dbx) ->
             session (fst (outcome (Api.get_db (Api.call_engine m) db)))
             = committed (fst (outcome (Api.get_db (Api.call_engine m) db)))
             /\ (snd (outcome (Api.get_db (Api.call_engine m) db)) <> None ->
                 committed (fst (outcome (Api.get_db (Api.call_engine m) db)))
                 = committed db)) as Hengine.
  { intros m Hm. destruct (call_engine_atomic m db Hm) as [H1 H2].
    unfold outcome. cbn [fst snd]. split; [exact H1|].
    destruct (snd (Api.get_db (Api.call_engine m) db)) as [e|a] eqn:E.
    - intros _. now apply (H2 e).
    - intros H. now elim H. }
  destruct r as [doctors slot|now request emergency|now token_id reason
                 |token_id new_slot_id reason|now token_id|now token_id status];
    unfold serve.
  - unfold outcome, Api.create_time_slot, Api.get_db. cbn [session committed].
    destruct (find _ doctors); [|split; reflexivity].
    destruct (filter _ _) as [|s1 [|s2 rest]]; cbn [fst snd session committed];
      split; try reflexivity; intros H; now elim H.
  - unfold Api.allocate_token. apply Hengine. destruct emergency.
    + apply forced_insertion_fails_clean.
    + apply allocate_token_fails_clean.
  - unfold Api.cancel_token. apply Hengine. intros dbx db' e E.
    pose proof (cancel_token_run now token_id reason dbx) as H. rewrite E in H.
    now destruct H.
  - unfold Api.reallocate_token. apply Hengine. intros dbx db' e E.
    pose proof (reallocate_token_run token_id new_slot_id reason dbx) as H.
    rewrite E in H. destruct H as [-> _]. reflexivity.
  - unfold Api.mark_no_show. apply Hengine. intros dbx db' e E.
    pose proof (mark_no_show_run now token_id dbx) as H. rewrite E in H.
    now destruct H.
  - unfold outcome, Api.update_token_status, Api.get_db. cbn [session committed].
    destruct (find_token _ _); cbn [fst snd session committed];
      split; try reflexivity; intros H; now elim H.
Qed.

(** X12. Requests are atomic at the endpoints.  After any request to a
    writing endpoint the session holds exactly what is committed; and when
    the request ended with an exception (an HTTP error or an uncaught one)
    what is committed is what was committed before it.  The endpoint for
    emergencies always passes [force=True], so the committing bump of the
    engine is never reached from the endpoints. *)
Theorem request_is_atomic (r : Request) (db : Db) :
  session (fst (serve r db)) = committed (fst (serve r db))
  /\ (snd (serve r db) <> None -> committed (fst (serve r db)) = committed db).
Proof.
  exact (serve_atomic r db).
Qed.

Lemma request_is_atomic_witness :
  committed (fst (serve (PostCancel (Scenario.at_hour 1 9) 1 (Some "moved away"%string))
                    Scenario.deactivated))
  = committed Scenario.deactivated.
Proof.
  apply (request_is_atomic
           (PostCancel (Scenario.at_hour 1 9) 1 (Some "moved away"%string))
           Scenario.deactivated).
  discriminate.
Defined.

Lemma preserves_capacity_run (op : Operation) (db : Db) :
  capacity_ok db -> capacity_ok (run op db).
Proof. apply run_capacity_ok. Qed.

Lemma serve_sound (r : Request) (db : Db) :
  schema_valid r -> sound db -> sound (fst (serve r db)).
Proof.
  intros Hvalid (Hcap & Hids & Hsame).
  assert (session (fst (serve r db)) = committed (fst (serve r db))) as Hatomic
      by apply serve_atomic.
  split; [|split; [|exact Hatomic]].
  - destruct r as [doctors slot|now request emergency|now token_id reason
                   |token_id new_slot_id reason|now token_id|now token_id status];
      unfold serve, outcome, Api.allocate_token, Api.cancel_token,
        Api.reallocate_token, Api.mark_no_show; cbn [fst].
    + unfold Api.create_time_slot, Api.get_db. cbn [session committed].
      destruct Hcap as [Hc _].
      destruct (find _ doctors); [|now split].
      destruct (filter _ _) as [|s1 [|s2 rest]]; cbn [fst snd session committed];
        try (now split).
      assert (Forall within_capacity
                (slots (committed db)
                 ++ [TimeSlot.mk (Api.next_slot_id (slots (committed db)))
                       (TimeSlotCreate.doctor_id slot) (TimeSlotCreate.date slot)
                       (TimeSlotCreate.start_time slot) (TimeSlotCreate.end_time slot)
                       (TimeSlotCreate.max_capacity slot) 0 true])) as H.
      { apply Forall_app. split; [exact Hc|]. constructor; [|constructor].
        unfold within_capacity. simpl in *. lia. }
      split; exact H.
    + apply (call_engine_preserves capacity_ok); [apply storewise_capacity_ok| |exact Hcap].
      destruct emergency; intros dbx.
      * apply handle_emergency_insertion_capacity_ok.
      * apply allocate_token_capacity_ok.
    + apply (call_engine_preserves capacity_ok); [apply storewise_capacity_ok| |exact Hcap].
      intros dbx. apply (run_capacity_ok (Cancel now token_id reason)).
    + apply (call_engine_preserves capacity_ok); [apply storewise_capacity_ok| |exact Hcap].
      intros dbx. apply reallocate_token_capacity_ok.
    + apply (call_engine_preserves capacity_ok); [apply storewise_capacity_ok| |exact Hcap].
      intros dbx. apply (run_capacity_ok (MarkNoShow now token_id)).
    + unfold Api.update_token_status, Api.get_db. cbn [session committed].
      destruct Hcap as [Hc _].
      destruct (find_token _ _); cbn [fst snd session committed]; now split.
  - destruct r as [doctors slot|now request emergency|now token_id reason
                   |token_id new_slot_id reason|now token_id|now token_id status];
      unfold serve, outcome, Api.allocate_token, Api.cancel_token,
        Api.reallocate_token, Api.mark_no_show; cbn [fst].
    + unfold Api.create_time_slot, Api.get_db. cbn [session committed].
      destruct Hids as [Hc _].
      destruct (find _ doctors); [|now split].
      destruct (filter _ _) as [|s1 [|s2 rest]]; cbn [fst snd session committed];
        now split.
    + apply (call_engine_preserves ids_ok); [apply storewise_ids_ok| |exact Hids].
      destruct emergency; [apply ids_ok_emergency | apply ids_ok_allocate].
    + apply (call_engine_preserves ids_ok); [apply storewise_ids_ok| |exact Hids].
      apply ids_ok_cancel.
    + apply (call_engine_preserves ids_ok); [apply storewise_ids_ok| |exact Hids].
      apply ids_ok_reallocate.
    + apply (call_engine_preserves ids_ok); [apply storewise_ids_ok| |exact Hids].
      apply ids_ok_mark_no_show.
    + unfold Api.update_token_status, Api.get_db. cbn [session committed].
      destruct Hids as [Hc _].
      destruct (find_token _ _); cbn [fst snd session committed]; [|now split].
      assert (unique_token_ids
                (mkStore (slots (committed db))
                   (update_token token_id (Api.stamp_status now status)
                      (tokens (committed db))))) as H.
      { unfold unique_token_ids in *. simpl. rewrite update_token_map; [exact Hc|].
        intros k. now destruct status. }
      split; exact H.
Qed.

(** X13. From the empty database, whatever sequence of requests is sent to
    the writing endpoints (slots created with a capacity the schema lets
    through), every database on the way has all counters within
    [0 <= current_count <= max_capacity], pairwise distinct token keys, and a
    session equal to what is committed.  The capacity invariant needs no
    assumption on the initial state: [create_time_slot] starts every slot at
    0. *)
Theorem endpoints_keep_database_sound (requests : list Request) :
  Forall schema_valid requests ->
  Forall sound (serve_all requests empty_db).
Proof.
  assert (sound empty_db) as H0.
  { repeat split; try constructor. }
  revert H0. generalize empty_db.
  induction requests as [|r rest IH]; intros db Hdb Hvalid; simpl; constructor.
  - inversion Hvalid; subst. now apply serve_sound.
  - inversion Hvalid; subst. apply IH; [now apply serve_sound | assumption].
Qed.

Lemma endpoints_keep_database_sound_witness :
  Forall sound
    (serve_all
       [PostSlot [Doctor.mk 1 "Dr. Sarah Johnson" "General Medicine" true
                    (Scenario.at_hour 1 7)]
          (TimeSlotCreate.mk "2030-01-01" "09:00" "10:00" 1 1);
        PostToken (Scenario.at_hour 1 8) (Scenario.request "A" 1 1 WALK_IN) false;
        PostToken (Scenario.at_hour 1 8) (Scenario.request "B" 1 1 PRIORITY) true;
        PostNoShow (Scenario.at_hour 1 9) 1;
        PostCancel (Scenario.at_hour 1 9) 1 None]
       empty_db).
Proof.
  apply endpoints_keep_database_sound.
  repeat constructor; simpl; lia.
Defined.

(** ** The status endpoint *)

(** What [update_token_status] does on a token that exists. *)
Lemma update_token_status_returns (now : datetime) (token_id : Z)
    (status : TokenStatus) (db : Db) (token : Token.t) :
  find_token token_id (tokens (committed db)) = Some token ->
  exists db' updated,
    Api.update_token_status now token_id status db = (db', inr updated)
    /\ find_token token_id (tokens (committed db')) = Some updated
    /\ Token.status updated = status
    /\ match status with
       | ALLOCATED => updated = Token.set_status ALLOCATED token
       | CHECKED_IN =>
           updated = Api.set_checked_in_at (Some now) (Token.set_status status token)
       | CONSULTING =>
           updated = Api.set_consultation_started_at (Some now)
                       (Token.set_status status token)
       | COMPLETED | CANCELLED | NO_SHOW =>
           updated = Token.set_completed_at (Some now) (Token.set_status status token)
       end
    /\ tokens (committed db')
       = update_token token_id (Api.stamp_status now status) (tokens (committed db))
    /\ slots (committed db') = slots (committed db)
    /\ (forall slot_id, count_of slot_id (committed db') = count_of slot_id (committed db))
    /\ session db' = committed db'.
Proof.
  intros Htok. unfold Api.update_token_status, Api.get_db. cbn [session committed].
  rewrite Htok. cbn [fst snd session committed tokens slots].
  do 2 eexists. split; [reflexivity|]. cbn [session committed tokens slots]. split.
  { rewrite find_token_update by (intros k; now destruct status).
    now rewrite Z.eqb_refl, Htok. }
  split; [now destruct status|]. split; [now destruct status|].
  repeat split.
Qed.

(** X14. [update_token_status] checks no transition and moves no counter.
    For every token that exists, whatever its status (terminal ones
    included), and every target status, the request succeeds: the token gets
    that status and the matching timestamp ([checked_in_at],
    [consultation_started_at], or [completed_at] for the three final
    statuses), nothing else changes on any token, and every slot, hence every
    [current_count], is as before, also when the new status is cancelled,
    no_show or completed. *)
Theorem update_token_status_effect (now : datetime) (token_id : Z)
    (status : TokenStatus) (db : Db) (token : Token.t) :
  find_token token_id (tokens (committed db)) = Some token ->
  exists db' updated,
    Api.update_token_status now token_id status db = (db', inr updated)
    /\ find_token token_id (tokens (committed db')) = Some updated
    /\ Token.status updated = status
    /\ match status with
       | ALLOCATED => updated = Token.set_status ALLOCATED token
       | CHECKED_IN =>
           updated = Api.set_checked_in_at (Some now) (Token.set_status status token)
       | CONSULTING =>
           updated = Api.set_consultation_started_at (Some now)
                       (Token.set_status status token)
       | COMPLETED | CANCELLED | NO_SHOW =>
           updated = Token.set_completed_at (Some now) (Token.set_status status token)
       end
    /\ tokens (committed db')
       = update_token token_id (Api.stamp_status now status) (tokens (committed db))
    /\ slots (committed db') = slots (committed db)
    /\ (forall slot_id, count_of slot_id (committed db') = count_of slot_id (committed db))
    /\ session db' = committed db'.
Proof.
  exact (update_token_status_returns now token_id status db token).
Qed.

Lemma update_token_status_effect_witness :
  exists db' updated,
    Api.update_token_status (Scenario.at_hour 1 10) 1 ALLOCATED
      Scenario.two_slots_cancelled = (db', inr updated)
    /\ Token.status updated = ALLOCATED
    /\ count_of 1 (committed db') = Some 0.
Proof.
  destruct (update_token_status_effect (Scenario.at_hour 1 10) 1 ALLOCATED
              Scenario.two_slots_cancelled
              (Token.mk 1 "DOC1-20300101-0001" "A" "+1 555 010 0000" 1 1 WALK_IN
                 CANCELLED 20 1 (Scenario.at_hour 1 8) None None
                 (Some (Scenario.at_hour 1 9)) None)
              eq_refl)
    as (db' & updated & E & _ & Hst & _ & _ & _ & Hcount & _).
  exists db', updated. split; [exact E|]. split; [exact Hst|].
  rewrite Hcount. reflexivity.
Defined.

(** X15. A unit of capacity the endpoints no longer release.  When an
    allocated token is set to cancelled or completed through
    [update_token_status], its slot's counter still counts it, and
    afterwards both the cancel endpoint and the no-show endpoint refuse the
    token with status 400 and change nothing. *)
Theorem status_patch_keeps_the_unit (now later : datetime) (token_id : Z)
    (status : TokenStatus) (reason : option string) (db : Db) (token : Token.t) :
  find_token token_id (tokens (committed db)) = Some token ->
  status = CANCELLED \/ status = COMPLETED ->
  let db1 := fst (serve (PatchStatus now token_id status) db) in
  slots (committed db1) = slots (committed db)
  /\ serve (PostCancel later token_id reason) db1
     = (db1, Some (HTTPException 400 (EngineError (CannotCancel status))))
  /\ serve (PostNoShow later token_id) db1
     = (db1, Some (HTTPException 400 (EngineError (CannotMarkNoShow status)))).
Proof.
  intros Htok Hstatus. cbv zeta.
  destruct (update_token_status_returns now token_id status db token Htok)
    as (db1 & updated & E & Hfind & Hst & _ & _ & Hslots & _ & Hsame).
  assert (fst (serve (PatchStatus now token_id status) db) = db1) as ->.
  { unfold serve, outcome. now rewrite E. }
  split; [exact Hslots|].
  assert (db1 = mkDb (committed db1) (committed db1)) as Hdb1.
  { destruct db1 as [c s]. simpl in *. now subst s. }
  split.
  - unfold serve, outcome, Api.cancel_token, Api.get_db, Api.call_engine.
    rewrite bind_run.
    rewrite (cancel_token_refuses later token_id reason
               (mkDb (committed db1) (committed db1)) updated Hfind)
      by (rewrite Hst; tauto).
    cbn [fst snd committed]. now rewrite <- Hdb1, Hst.
  - unfold serve, outcome, Api.mark_no_show, Api.get_db, Api.call_engine.
    rewrite bind_run.
    rewrite (mark_no_show_refuses later token_id
               (mkDb (committed db1) (committed db1)) updated Hfind)
      by (rewrite Hst; destruct Hstatus; congruence).
    cbn [fst snd committed]. now rewrite <- Hdb1, Hst.
Qed.

Lemma status_patch_keeps_the_unit_witness :
  count_of 1
    (committed (fst (serve (PatchStatus (Scenario.at_hour 1 9) 1 CANCELLED)
                       Scenario.single_full)))
  = Some 1.
Proof.
  destruct (status_patch_keeps_the_unit (Scenario.at_hour 1 9) (Scenario.at_hour 1 10)
              1 CANCELLED None Scenario.single_full
              (Token.mk 1 "DOC1-20300101-0001" "A" "+1 555 010 0000" 1 1 WALK_IN
                 ALLOCATED 20 1 (Scenario.at_hour 1 8) None None None None)
              eq_refl (or_introl eq_refl)) as (Hslots & _).
  unfold count_of. rewrite Hslots. reflexivity.
Defined.

(** ** Creating slots *)

Lemma string_ltb_not_leb (a b : string) :
  String.ltb a b = true -> String.leb b a = false.
Proof.
  unfold String.ltb, String.leb. rewrite (String.compare_antisym b a).
  destruct (String.compare a b); simpl; congruence.
Qed.

Lemma next_slot_id_above (l : list TimeSlot.t) (s : TimeSlot.t) :
  In s l -> TimeSlot.id s < Api.next_slot_id l.
Proof.
  unfold Api.next_slot_id. induction l as [|x r IH]; simpl; [contradiction|].
  intros [->|H]; [lia|]. specialize (IH H). lia.
Qed.

(** X16. The overlap check of [create_time_slot] does not see a slot that
    lies strictly inside the new one.  When the doctor exists and every
    existing slot starts after the new slot starts and ends before it ends
    (times compared as strings, as the query does), the slot is created: it
    is appended with a key above all others, [current_count = 0] and
    [is_active = true], tokens are untouched, and the result is committed. *)
Theorem create_time_slot_accepts_enclosing_slot (doctors : list Doctor.t)
    (slot : TimeSlotCreate.t) (db : Db) (doctor : Doctor.t) :
  find (fun d => Doctor.id d =? TimeSlotCreate.doctor_id slot) doctors = Some doctor ->
  Forall (fun s =>
            String.ltb (TimeSlotCreate.start_time slot) (TimeSlot.start_time s) = true
            /\ String.ltb (TimeSlot.end_time s) (TimeSlotCreate.end_time slot) = true)
         (slots (committed db)) ->
  exists db' created,
    Api.create_time_slot doctors slot db = (db', inr created)
    /\ created
       = TimeSlot.mk (TimeSlot.id created) (TimeSlotCreate.doctor_id slot)
           (TimeSlotCreate.date slot) (TimeSlotCreate.start_time slot)
           (TimeSlotCreate.end_time slot) (TimeSlotCreate.max_capacity slot) 0 true
    /\ (forall s, In s (slots (committed db)) -> TimeSlot.id s < TimeSlot.id created)
    /\ slots (committed db') = slots (committed db) ++ [created]
    /\ tokens (committed db') = tokens (committed db)
    /\ session db' = committed db'.
Proof.
  intros Hdoc Hinside. unfold Api.create_time_slot, Api.get_db.
  cbn [session committed]. rewrite Hdoc.
  assert (filter (Api.overlaps slot) (slots (committed db)) = []) as ->.
  { induction Hinside as [|s r [H1 H2] _ IH]; simpl; [reflexivity|].
    unfold Api.overlaps at 1.
    rewrite (string_ltb_not_leb _ _ H1), (string_ltb_not_leb _ _ H2).
    rewrite andb_false_r. simpl. rewrite andb_false_r. exact IH. }
  cbn [fst snd session committed slots tokens].
  do 2 eexists. split; [reflexivity|]. cbn [TimeSlot.id].
  split; [reflexivity|]. split; [apply next_slot_id_above|]. repeat split.
Qed.

Lemma create_time_slot_accepts_enclosing_slot_witness :
  exists db' created,
    Api.create_time_slot [dr_johnson]
      (TimeSlotCreate.mk "2030-01-01" "08:00" "12:00" 20 1) morning
    = (db', inr created)
    /\ map (fun s => (TimeSlot.start_time s, TimeSlot.end_time s)) (slots (committed db'))
       = [("09:00", "10:00"); ("10:00", "11:00"); ("08:00", "12:00")]%string.
Proof.
  destruct (create_time_slot_accepts_enclosing_slot [dr_johnson]
              (TimeSlotCreate.mk "2030-01-01" "08:00" "12:00" 20 1) morning dr_johnson
              eq_refl)
    as (db' & created & E & Hcreated & _ & Hslots & _).
  - repeat constructor.
  - exists db', created. split; [exact E|]. rewrite Hslots, Hcreated. reflexivity.
Defined.

(** X17. A new slot that overlaps two existing rows is not answered with the
    400 "Overlapping slot exists": [scalar_one_or_none] raises
    [MultipleResultsFound], which no handler catches; with exactly one
    overlapping row the answer is the 400.  In both cases the database is
    left as committed. *)
Theorem create_time_slot_on_overlaps (doctors : list Doctor.t)
    (slot : TimeSlotCreate.t) (db : Db) (doctor : Doctor.t) :
  find (fun d => Doctor.id d =? TimeSlotCreate.doctor_id slot) doctors = Some doctor ->
  (forall s1 s2,
      In s1 (slots (committed db)) -> In s2 (slots (committed db)) ->
      s1 <> s2 ->
      Api.overlaps slot s1 = true -> Api.overlaps slot s2 = true ->
      Api.create_time_slot doctors slot db
      = (mkDb (committed db) (committed db), inl MultipleResultsFound))
  /\ (forall s,
         filter (Api.overlaps slot) (slots (committed db)) = [s] ->
         Api.create_time_slot doctors slot db
         = (mkDb (committed db) (committed db), inl (HTTPException 400 OverlappingSlot))).
Proof.
  intros Hdoc. split.
  - intros s1 s2 H1 H2 Hneq O1 O2.
    unfold Api.create_time_slot, Api.get_db. cbn [session committed]. rewrite Hdoc.
    assert (In s1 (filter (Api.overlaps slot) (slots (committed db)))) as F1
        by (apply filter_In; auto).
    assert (In s2 (filter (Api.overlaps slot) (slots (committed db)))) as F2
        by (apply filter_In; auto).
    destruct (filter _ _) as [|x [|y rest]].
    + destruct F1.
    + destruct F1 as [<-|[]], F2 as [<-|[]]. now elim Hneq.
    + reflexivity.
  - intros s Hs. unfold Api.create_time_slot, Api.get_db. cbn [session committed].
    now rewrite Hdoc, Hs.
Qed.

Lemma create_time_slot_on_overlaps_witness :
  Api.create_time_slot [dr_johnson]
    (TimeSlotCreate.mk "2030-01-01" "09:30" "10:30" 20 1) morning
  = (morning, inl MultipleResultsFound).
Proof.
  destruct (create_time_slot_on_overlaps [dr_johnson]
              (TimeSlotCreate.mk "2030-01-01" "09:30" "10:30" 20 1) morning dr_johnson
              eq_refl) as [H _].
  apply (H (TimeSlot.mk 1 1 "2030-01-01" "09:00" "10:00" 20 0 true)
           (TimeSlot.mk 2 1 "2030-01-01" "10:00" "11:00" 20 0 true)).
  - simpl. auto.
  - simpl. auto.
  - discriminate.
  - reflexivity.
  - reflexivity.
Defined.

(** ** Classes in the queue *)

Lemma update_token_Forall (P : Token.t -> Prop) (token_id : Z)
    (f : Token.t -> Token.t) (l : list Token.t) :
  (forall k, P k -> P (f k)) -> Forall P l -> Forall P (update_token token_id f l).
Proof.
  intros Hf. induction 1 as [|k r Hk Hr IH]; simpl; [constructor|].
  destruct (Token.id k =? token_id); constructor; auto.
Qed.

Lemma scores_ok_modify_token (token_id : Z) (f : Token.t -> Token.t) :
  (forall k, Token.source (f k) = Token.source k
             /\ Token.priority_score (f k) = Token.priority_score k) ->
  preserves scores_ok (modify_token token_id f).
Proof.
  intros Hf db [Hc Hs]. split; [exact Hc|]. simpl.
  apply update_token_Forall; [|exact Hs].
  intros k Hk. unfold in_class in *. destruct (Hf k) as [-> ->]. exact Hk.
Qed.

Lemma scores_ok_modify_slot (slot_id : Z) (f : TimeSlot.t -> TimeSlot.t) :
  preserves scores_ok (modify_slot slot_id f).
Proof. intros db [Hc Hs]. split; assumption. Qed.

Lemma scores_ok_commit : preserves scores_ok db_commit.
Proof. intros db [Hc Hs]. split; assumption. Qed.

Lemma scores_ok_assign (queue : list Token.t) :
  forall idx, preserves scores_ok (assign_sequence_numbers idx queue).
Proof.
  induction queue as [|t r IH]; intros idx; simpl.
  - apply preserves_ret.
  - apply preserves_bind; [now apply scores_ok_modify_token | intros _; apply IH].
Qed.

Lemma scores_ok_get_slot (slot_id : Z) :
  preserves scores_ok (_get_slot_with_validation slot_id).
Proof.
  unfold _get_slot_with_validation.
  apply preserves_bind; [apply preserves_read | intros [slot|]];
    [destruct (negb _)|]; first [apply preserves_raise | apply preserves_ret].
Qed.

Lemma scores_ok_resequence (slot_id : Z) :
  preserves scores_ok (_resequence_slot_tokens slot_id).
Proof.
  unfold _resequence_slot_tokens, get_slot_queue.
  apply preserves_bind; [apply preserves_read | intros queue].
  apply preserves_bind; [apply scores_ok_assign | intros _; apply scores_ok_commit].
Qed.

Lemma scores_ok_note (token_id : Z) (label : string) (reason : option string) :
  preserves scores_ok (note_reason token_id label reason).
Proof.
  unfold note_reason. destruct (Py.truthy reason); [|apply preserves_ret].
  now apply scores_ok_modify_token.
Qed.

Ltac keep_scores :=
  repeat first
    [ apply scores_ok_get_slot | apply scores_ok_resequence | apply scores_ok_note
    | apply preserves_raise | apply preserves_read | apply preserves_ret
    | apply scores_ok_modify_slot
    | apply scores_ok_modify_token; intros; split; reflexivity
    | apply preserves_bind; [|intros] ].

Lemma scores_ok_cancel (now : datetime) (token_id : Z) (reason : option string) :
  preserves scores_ok (cancel_token now token_id reason).
Proof.
  unfold cancel_token, _get_token, current, db_flush.
  apply preserves_bind; [apply preserves_bind; [apply preserves_read|intros [k|]];
                         first [apply preserves_raise | apply preserves_ret]
                        | intros token].
  destruct (Token.status token); keep_scores.
Qed.

Lemma scores_ok_mark_no_show (now : datetime) (token_id : Z) :
  preserves scores_ok (mark_no_show now token_id).
Proof.
  unfold mark_no_show, _get_token, current, db_flush.
  apply preserves_bind; [apply preserves_bind; [apply preserves_read|intros [k|]];
                         first [apply preserves_raise | apply preserves_ret]
                        | intros token].
  destruct (negb _); keep_scores.
Qed.

Lemma scores_ok_reallocate (token_id new_slot_id : Z) (reason : option string) :
  preserves scores_ok (reallocate_token token_id new_slot_id reason).
Proof.
  unfold reallocate_token, _get_token, current, db_flush, _get_next_sequence_number.
  apply preserves_bind; [apply preserves_bind; [apply preserves_read|intros [k|]];
                         first [apply preserves_raise | apply preserves_ret]
                        | intros token].
  apply preserves_bind; [apply scores_ok_get_slot | intros old_slot].
  apply preserves_bind; [apply scores_ok_get_slot | intros new_slot].
  destruct (negb _); [apply preserves_raise|].
  destruct (_ >=? _); [apply preserves_raise|].
  keep_scores.
Qed.

(** A new token's score lies in its class when the slot's counter is not
    negative. *)
Lemma scores_ok_allocate (now : datetime) (request : TokenRequest.t) (db : Db) :
  capacity_ok db -> scores_ok db -> scores_ok (fst (allocate_token now request db)).
Proof.
  intros [_ Hcap] [Hc Hs].
  pose proof (allocate_token_run now request db) as H.
  destruct (allocate_token now request db) as [db' [[m|]|token]]; simpl.
  - subst db'. now split.
  - subst db'. now split.
  - destruct H as (slot & since & Hslot & _ & _ & _ & Hcom & _ & Htokens & Htoken).
    unfold scores_ok. rewrite Hcom, Htokens. split; [exact Hc|].
    apply Forall_app. split; [exact Hs|]. constructor; [|constructor].
    assert (0 <= TimeSlot.current_count slot) as Hpos.
    { rewrite Forall_forall in Hcap. apply (Hcap slot). eapply find_slot_In, Hslot. }
    rewrite Htoken. unfold in_class, _calculate_priority_score.
    cbn [Token.source Token.priority_score].
    destruct (TokenRequest.source request); cbn [PRIORITY_WEIGHTS]; lia.
Qed.

Lemma scores_ok_emergency (now : datetime) (request : TokenRequest.t) (force : bool)
    (db : Db) :
  capacity_ok db -> scores_ok db ->
  capacity_ok (fst (handle_emergency_insertion now request force db))
  /\ scores_ok (fst (handle_emergency_insertion now request force db)).
Proof.
  intros Hcap Hsc.
  split; [now apply handle_emergency_insertion_capacity_ok|].
  assert (forall dbx, capacity_ok dbx -> scores_ok dbx ->
            scores_ok
              (fst ((token <- allocate_token now
                                (TokenRequest.set_source PRIORITY request) ;;
                     modify_token (Token.id token)
                       (Token.annotate "" "EMERGENCY INSERTION") ;;
                     db_flush ;;
                     current token) dbx))) as Hrest.
  { intros dbx Hx Hy. rewrite bind_run.
    pose proof (scores_ok_allocate now (TokenRequest.set_source PRIORITY request)
                  dbx Hx Hy) as H.
    destruct (allocate_token now (TokenRequest.set_source PRIORITY request) dbx)
      as [db2 [e|token]]; [exact H|].
    cbn [fst] in H.
    apply (preserves_bind scores_ok
             (modify_token (Token.id token) (Token.annotate "" "EMERGENCY INSERTION"))
             (fun _ => bind db_flush (fun _ => current token)));
      [now apply scores_ok_modify_token | | exact H].
    intros _. unfold db_flush, current. keep_scores. }
  unfold handle_emergency_insertion. rewrite bind_run, _get_slot_with_validation_run.
  destruct (find_slot (TokenRequest.slot_id request) (slots (session db)))
    as [slot|]; [|exact Hsc].
  destruct (TimeSlot.is_active slot); [|exact Hsc].
  rewrite bind_run.
  destruct ((TimeSlot.current_count slot >=? TimeSlot.max_capacity slot) && negb force)
    eqn:Hcond; [|now apply Hrest].
  apply andb_true_iff in Hcond. destruct Hcond as [_ Hforce].
  apply negb_true_iff in Hforce. subst force.
  rewrite bind_run, _reallocate_lowest_priority_run.
  destruct (lowest_priority_walk_in (TimeSlot.id slot) (tokens (session db)))
    as [victim|]; [|exact Hsc].
  rewrite _get_slot_with_validation_run.
  destruct (find_slot (TimeSlot.id slot) (slots (session db))) as [slot'|]; [|exact Hsc].
  destruct (TimeSlot.is_active slot'); [|exact Hsc].
  destruct (alternative_slot _ _ _) as [alternative|]; [|exact Hsc].
  pose proof (reallocate_token_capacity_ok (Token.id victim) (TimeSlot.id alternative)
                (Some "Auto-reallocation for emergency insertion"%string) db Hcap) as H1.
  pose proof (scores_ok_reallocate (Token.id victim) (TimeSlot.id alternative)
                (Some "Auto-reallocation for emergency insertion"%string) db Hsc) as H2.
  destruct (reallocate_token _ _ _ db) as [db1 [e|moved]]; [exact H2|].
  now apply Hrest.
Qed.

Lemma storewise_scores_ok : storewise scores_ok.
Proof. intros db [Hc Hs]. split; split; assumption. Qed.

Lemma storewise_and (P Q : Db -> Prop) :
  storewise P -> storewise Q -> storewise (fun db => P db /\ Q db).
Proof.
  intros HP HQ db [H1 H2]. destruct (HP db H1), (HQ db H2). repeat split; assumption.
Qed.

Lemma serve_scores_ok (r : Request) (db : Db) :
  capacity_ok db -> scores_ok db -> scores_ok (fst (serve r db)).
Proof.
  intros Hcap Hsc.
  destruct r as [doctors slot|now request emergency|now token_id reason
                 |token_id new_slot_id reason|now token_id|now token_id status];
    unfold serve, outcome, Api.allocate_token, Api.cancel_token,
      Api.reallocate_token, Api.mark_no_show; cbn [fst].
  - unfold Api.create_time_slot, Api.get_db. cbn [session committed].
    destruct Hsc as [Hc _].
    destruct (find _ doctors); [|now split].
    destruct (filter _ _) as [|s1 [|s2 rest]]; cbn [fst snd session committed];
      now split.
  - apply (call_engine_preserves (fun db => capacity_ok db /\ scores_ok db));
      [apply storewise_and; [apply storewise_capacity_ok | apply storewise_scores_ok]
      | | now split].
    destruct emergency; intros dbx [H1 H2].
    + now apply scores_ok_emergency.
    + split; [now apply allocate_token_capacity_ok | now apply scores_ok_allocate].
  - apply (call_engine_preserves scores_ok);
      [apply storewise_scores_ok | apply scores_ok_cancel | exact Hsc].
  - apply (call_engine_preserves scores_ok);
      [apply storewise_scores_ok | apply scores_ok_reallocate | exact Hsc].
  - apply (call_engine_preserves scores_ok);
      [apply storewise_scores_ok | apply scores_ok_mark_no_show | exact Hsc].
  - unfold Api.update_token_status, Api.get_db. cbn [session committed].
    destruct Hsc as [Hc _].
    destruct (find_token _ _); cbn [fst snd session committed]; [|now split].
    assert (Forall in_class
              (update_token token_id (Api.stamp_status now status)
                 (tokens (committed db)))) as H.
    { apply update_token_Forall; [|exact Hc].
      intros k Hk. unfold in_class in *. now destruct status. }
    split; exact H.
Qed.

Lemma sorted_split {A : Type} (R : A -> A -> Prop) (before : list A) :
  forall x after y,
    StronglySorted R (before ++ x :: after) -> In y after -> R x y.
Proof.
  induction before as [|b r IH]; intros x after y Hs Hy; simpl in Hs.
  - inversion Hs as [|? ? _ Hall]; subst. rewrite Forall_forall in Hall. now apply Hall.
  - inversion Hs; subst. eapply IH; eassumption.
Qed.

Lemma in_class_queue_descends (slot_id : Z) (l : list Token.t) :
  Forall in_class l -> classes_descend (slot_queue slot_id l).
Proof.
  intros Hl before x after Hsplit y Hy.
  pose proof (order_by_sorted queue_leb queue_leb_total queue_leb_trans
                (filter (fun k => (Token.slot_id k =? slot_id)
                                  && occupying (Token.status k)) l)) as Hsorted.
  fold (slot_queue slot_id l) in Hsorted. unfold sorted_by in Hsorted.
  rewrite Hsplit in Hsorted.
  pose proof (sorted_split _ _ _ _ _ Hsorted Hy) as Hxy. simpl in Hxy.
  assert (In x (slot_queue slot_id l)) as Hx
      by (rewrite Hsplit; apply in_or_app; right; now left).
  assert (In y (slot_queue slot_id l)) as Hy'
      by (rewrite Hsplit; apply in_or_app; right; now right).
  apply in_slot_queue in Hx, Hy'. rewrite Forall_forall in Hl.
  pose proof (Hl x (proj1 Hx)) as Cx. pose proof (Hl y (proj1 Hy')) as Cy.
  unfold in_class in Cx, Cy. unfold queue_leb in Hxy.
  assert (Token.priority_score y <= Token.priority_score x) as Hscore.
  { destruct (datetime_leb _ _); b2p; lia. }
  destruct (Token.source x), (Token.source y); simpl in *; lia.
Qed.

(** X18. Classes in the queue.  In every database reached from the empty one
    through the writing endpoints, each token's score lies in the band of
    its source, [weight * 10 .. weight * 10 + 10], and therefore every slot's
    queue lists the sources by descending weight: no token is followed by a
    token of a heavier source (PRIORITY before FOLLOW_UP before ONLINE before
    WALK_IN, an emergency insertion counting as PRIORITY). *)
Theorem queue_follows_classes (requests : list Request) :
  Forall schema_valid requests ->
  Forall (fun db =>
            Forall in_class (tokens (committed db))
            /\ forall slot_id,
                 classes_descend (slot_queue slot_id (tokens (committed db))))
         (serve_all requests empty_db).
Proof.
  assert (sound empty_db /\ scores_ok empty_db) as H0.
  { repeat split; try constructor. }
  revert H0. generalize empty_db.
  induction requests as [|r rest IH]; intros db [Hsound Hscores] Hvalid; simpl;
    constructor; inversion Hvalid; subst.
  - pose proof (serve_scores_ok r db (proj1 Hsound) Hscores) as [Hc _].
    split; [exact Hc|]. intros slot_id. now apply in_class_queue_descends.
  - apply IH; [|assumption]. split.
    + now apply serve_sound.
    + apply serve_scores_ok; [apply Hsound | exact Hscores].
Qed.

Lemma queue_follows_classes_witness :
  Forall (fun db =>
            Forall in_class (tokens (committed db))
            /\ forall slot_id,
                 classes_descend (slot_queue slot_id (tokens (committed db))))
    (serve_all
       [PostSlot [dr_johnson] (TimeSlotCreate.mk "2030-01-01" "09:00" "10:00" 5 1);
        PostToken (Scenario.at_hour 1 8) (Scenario.request "A" 1 1 WALK_IN) false;
        PostToken (Scenario.at_hour 1 8) (Scenario.request "B" 1 1 FOLLOW_UP) false;
        PostToken (Scenario.at_hour 1 8) (Scenario.request "C" 1 1 ONLINE) true]
       empty_db).
Proof.
  apply queue_follows_classes. repeat constructor; simpl; lia.
Defined.

Example queue_by_class :
  map (fun k => (Token.patient_name k, Token.source k, Token.priority_score k))
    (slot_queue 1
       (tokens
          (committed
             (last
                (serve_all
                   [PostSlot [dr_johnson]
                      (TimeSlotCreate.mk "2030-01-01" "09:00" "10:00" 5 1);
                    PostToken (Scenario.at_hour 1 8)
                      (Scenario.request "A" 1 1 WALK_IN) false;
                    PostToken (Scenario.at_hour 1 8)
                      (Scenario.request "B" 1 1 FOLLOW_UP) false;
                    PostToken (Scenario.at_hour 1 8)
                      (Scenario.request "C" 1 1 ONLINE) true]
                   empty_db)
                empty_db))))
  = [("C"%string, PRIORITY, 108); ("B"%string, FOLLOW_UP, 59);
     ("A"%string, WALK_IN, 20)].
Proof. reflexivity. Qed.

(** ** Reallocation and the two queues *)

Lemma same_key_same_row (l : list Token.t) (a b : Token.t) :
  NoDup (map Token.id l) -> In a l -> In b l -> Token.id a = Token.id b -> a = b.
Proof.
  induction l as [|x r IH]; simpl; intros Hnd Ha Hb Hid; [destruct Ha|].
  inversion Hnd as [|? ? Hnotin Hr]; subst.
  destruct Ha as [->|Ha], Hb as [->|Hb]; auto.
  - elim Hnotin. rewrite Hid. now apply in_map.
  - elim Hnotin. rewrite <- Hid. now apply in_map.
Qed.

(** Resequencing one slot leaves the queue of every other slot as it is. *)
Lemma slot_queue_other_slot (here there : Z) (l : list Token.t) :
  NoDup (map Token.id l) -> here <> there ->
  slot_queue here (renumber 1 (slot_queue there l) l) = slot_queue here l.
Proof.
  intros Hl Hneq. pose proof (slot_queue_unique_ids there l Hl) as Hq.
  rewrite renumber_map by assumption.
  unfold slot_queue at 1 3.
  change (fun k => (Token.slot_id k =? here) && occupying (Token.status k))
    with (in_queue here).
  rewrite filter_map_commute.
  2:{ intros k. unfold in_queue.
      pose proof (renumbered_forget (slot_queue there l) 1 k) as E.
      pose proof (f_equal Token.status E) as E1.
      pose proof (f_equal Token.slot_id E) as E2.
      simpl in E1, E2. now rewrite E1, E2. }
  f_equal. rewrite <- (map_id (filter (in_queue here) l)) at 2.
  apply map_ext_in. intros k Hk. apply filter_In in Hk. destruct Hk as [Hk Hin].
  apply renumbered_notin. intros Hid. apply in_map_iff in Hid.
  destruct Hid as (t & Hid & Ht). apply in_slot_queue in Ht.
  destruct Ht as (Ht & Hs & _).
  assert (t = k) as -> by (apply (same_key_same_row l); assumption).
  unfold in_queue in Hin. b2p. lia.
Qed.

(** [reallocate_token] past its checks, in its three stages: the counters and
    the token are updated, the old slot is resequenced, the new slot is
    resequenced. *)
Lemma reallocate_token_steps (token_id new_slot_id : Z) (reason : option string)
    (db : Db) (token : Token.t) (old_slot new_slot : TimeSlot.t) :
  find_token token_id (tokens (session db)) = Some token ->
  find_slot (Token.slot_id token) (slots (session db)) = Some old_slot ->
  find_slot new_slot_id (slots (session db)) = Some new_slot ->
  TimeSlot.is_active old_slot = true ->
  TimeSlot.is_active new_slot = true ->
  Token.doctor_id token = TimeSlot.doctor_id new_slot ->
  TimeSlot.current_count new_slot < TimeSlot.max_capacity new_slot ->
  let sequence_number :=
    match max_sequence_number new_slot_id
            (update_token token_id (Token.set_slot_id new_slot_id)
               (tokens (session db))) with
    | None => 0
    | Some v => v
    end + 1 in
  let move k :=
    (if Py.truthy reason
     then Token.annotate "Reallocation: " (Py.or_empty reason)
     else fun k => k)
      (Token.set_sequence_number sequence_number
         (Token.set_slot_id new_slot_id k)) in
  let db1 :=
    mkDb (committed db)
      (mkStore
         (update_slot new_slot_id reserve
            (update_slot (Token.slot_id token) release (slots (session db))))
         (update_token token_id move (tokens (session db)))) in
  let db2 := fst (_resequence_slot_tokens (Token.slot_id token) db1) in
  let db3 := fst (_resequence_slot_tokens new_slot_id db2) in
  reallocate_token token_id new_slot_id reason db
  = (db3,
     inr match find_token token_id (tokens (session db3)) with
         | Some k => k
         | None => token
         end).
Proof.
  intros Htok Hold Hnew Hact_old Hact_new Hdoc Hroom. cbv zeta.
  pose proof (find_token_id _ _ _ Htok) as Htid.
  pose proof (find_slot_id _ _ _ Hold) as Hoid.
  pose proof (find_slot_id _ _ _ Hnew) as Hnid.
  unfold reallocate_token. rewrite bind_run, _get_token_run, Htok.
  rewrite bind_run, _get_slot_with_validation_run, Hold, Hact_old.
  rewrite bind_run, _get_slot_with_validation_run, Hnew, Hact_new.
  rewrite Hdoc, Z.eqb_refl. cbn [negb].
  assert ((TimeSlot.current_count new_slot >=? TimeSlot.max_capacity new_slot) = false)
    as ->.
  { destruct (_ >=? _) eqn:G; [|reflexivity]. apply Z.geb_le in G. lia. }
  rewrite Hoid, Hnid. run_engine. rewrite ?Htid.
  destruct (Py.truthy reason);
    rewrite _resequence_slot_tokens_eq; cbv zeta;
    cbn [fst snd session committed slots tokens];
    rewrite _resequence_slot_tokens_eq; cbv zeta;
    cbn [fst snd session committed slots tokens];
    rewrite !_resequence_slot_tokens_eq; cbv zeta;
    cbn [fst snd session committed slots tokens];
    rewrite !update_token_twice by reflexivity;
    reflexivity.
Qed.

(** What a returning [reallocate_token] has done to the token and to the two queues. *)
Lemma reallocate_token_returns (token_id new_slot_id : Z)
    (reason : option string) (db db' : Db) (moved : Token.t) :
  unique_token_ids (session db) ->
  reallocate_token token_id new_slot_id reason db = (db', inr moved) ->
  exists token,
    find_token token_id (tokens (session db)) = Some token
    /\ Token.id moved = Token.id token
    /\ Token.token_number moved = Token.token_number token
    /\ Token.doctor_id moved = Token.doctor_id token
    /\ Token.source moved = Token.source token
    /\ Token.status moved = Token.status token
    /\ Token.priority_score moved = Token.priority_score token
    /\ Token.allocated_at moved = Token.allocated_at token
    /\ Token.slot_id moved = new_slot_id
    /\ (occupying (Token.status token) = true ->
        In moved (slot_queue new_slot_id (tokens (session db'))))
    /\ map Token.sequence_number (slot_queue new_slot_id (tokens (session db')))
       = count_from 1 (slot_queue new_slot_id (tokens (session db')))
    /\ map Token.sequence_number
         (slot_queue (Token.slot_id token) (tokens (session db')))
       = count_from 1 (slot_queue (Token.slot_id token) (tokens (session db')))
    /\ unique_token_ids (session db').
Proof.
  unfold unique_token_ids. intros Hl Hcall.
  pose proof (reallocate_token_run token_id new_slot_id reason db) as Hrun.
  rewrite Hcall in Hrun.
  destruct Hrun as (token & old_slot & new_slot & Htok & Hold & Hnew & Hact_old
                    & Hact_new & Hdoc & Hroom & _ & _ & Hfind & _).
  rewrite (reallocate_token_steps token_id new_slot_id reason db token old_slot new_slot)
    in Hcall by assumption.
  cbv zeta in Hcall.
  set (move := fun k : Token.t =>
                 (if Py.truthy reason
                  then Token.annotate "Reallocation: " (Py.or_empty reason)
                  else fun k => k)
                   (Token.set_sequence_number
                      (match max_sequence_number new_slot_id
                               (update_token token_id (Token.set_slot_id new_slot_id)
                                  (tokens (session db))) with
                       | None => 0
                       | Some v => v
                       end + 1)
                      (Token.set_slot_id new_slot_id k))) in *.
  assert (forall k, Token.set_sequence_number 0 (Token.set_notes None (move k))
                    = Token.set_sequence_number 0
                        (Token.set_notes None (Token.set_slot_id new_slot_id k)))
    as Hmove by (intros k; unfold move; now destruct (Py.truthy reason)).
  assert (forall k, Token.id (move k) = Token.id k) as Hmove_id
      by (intros k; exact (f_equal Token.id (Hmove k))).
  set (tokens1 := update_token token_id move (tokens (session db))) in *.
  set (db1 := mkDb (committed db)
                (mkStore
                   (update_slot new_slot_id reserve
                      (update_slot (Token.slot_id token) release (slots (session db))))
                   tokens1)) in *.
  assert (NoDup (map Token.id tokens1)) as Hl1
      by (unfold tokens1; now rewrite update_token_map).
  destruct (_resequence_slot_tokens_queue (Token.slot_id token) db1 Hl1)
    as (db2 & E2 & Hq2 & _ & _ & _ & _ & _ & _ & Hl2).
  rewrite E2 in Hcall. cbn [fst] in Hcall.
  destruct (_resequence_slot_tokens_queue new_slot_id db2 Hl2)
    as (db3 & E3 & Hq3 & Hseq3 & _ & _ & _ & _ & _ & Hl3).
  rewrite E3 in Hcall. cbn [fst] in Hcall.
  injection Hcall as <- Hmoved.
  assert (exists n, moved = Token.set_sequence_number n (move token)) as (n & Hn).
  { assert (find_token token_id tokens1 = Some (move token)) as H1.
    { unfold tokens1. rewrite find_token_update by exact Hmove_id.
      now rewrite Z.eqb_refl, Htok. }
    rewrite _resequence_slot_tokens_eq in E2. cbv zeta in E2.
    injection E2 as <-. cbn [session tokens] in *.
    rewrite _resequence_slot_tokens_eq in E3. cbv zeta in E3.
    injection E3 as <-. cbn [session tokens] in *.
    destruct (renumber_find_some (slot_queue (Token.slot_id token) tokens1) 1
                tokens1 token_id _ H1) as (n1 & Hn1).
    destruct (renumber_find_some
                (slot_queue new_slot_id
                   (renumber 1 (slot_queue (Token.slot_id token) tokens1) tokens1))
                1 _ token_id _ Hn1) as (n2 & Hn2).
    rewrite Hn2 in Hmoved. exists n2. now rewrite <- Hmoved. }
  pose proof (Hmove token) as Hfields.
  exists token. split; [exact Htok|].
  assert (Token.set_sequence_number 0 (Token.set_notes None moved)
          = Token.set_sequence_number 0
              (Token.set_notes None (Token.set_slot_id new_slot_id token))) as Hsame.
  { rewrite Hn. rewrite <- Hfields. reflexivity. }
  split; [exact (f_equal Token.id Hsame)|].
  split; [exact (f_equal Token.token_number Hsame)|].
  split; [exact (f_equal Token.doctor_id Hsame)|].
  split; [exact (f_equal Token.source Hsame)|].
  split; [exact (f_equal Token.status Hsame)|].
  split; [exact (f_equal Token.priority_score Hsame)|].
  split; [exact (f_equal Token.allocated_at Hsame)|].
  split; [exact (f_equal Token.slot_id Hsame)|].
  split.
  { intros Hocc. apply in_slot_queue. split; [|split].
    - unfold find_token in Hfind. now apply find_some in Hfind.
    - exact (f_equal Token.slot_id Hsame).
    - pose proof (f_equal Token.status Hsame) as Hs. simpl in Hs.
      now rewrite Hs. }
  split.
  { rewrite Hq3, number_from_sequence. now rewrite count_from_number_from. }
  split; [|exact Hl3].
  destruct (Z.eq_dec (Token.slot_id token) new_slot_id) as [->|Hneq].
  { rewrite Hq3, number_from_sequence. now rewrite count_from_number_from. }
  rewrite _resequence_slot_tokens_eq in E3. cbv zeta in E3. injection E3 as <-.
  cbn [session tokens].
  rewrite slot_queue_other_slot by (try exact Hl2; congruence).
  rewrite Hq2, number_from_sequence. now rewrite count_from_number_from.
Qed.

(** X19. A successful reallocation and the two queues.  With pairwise
    distinct primary keys, after [reallocate_token] has returned, the moved
    token carries the new slot and is otherwise the token it was (same key,
    number, doctor, source, status, score and allocation time: there is no
    status check, so a token of any status is moved); if its status is an
    occupying one it is in the new slot's queue; the new slot's queue is
    numbered 1, 2, ..., N, and so is the old slot's queue. *)
Theorem reallocate_token_resequences (token_id new_slot_id : Z)
    (reason : option string) (db db' : Db) (moved : Token.t) :
  unique_token_ids (session db) ->
  reallocate_token token_id new_slot_id reason db = (db', inr moved) ->
  exists token,
    find_token token_id (tokens (session db)) = Some token
    /\ Token.id moved = Token.id token
    /\ Token.token_number moved = Token.token_number token
    /\ Token.doctor_id moved = Token.doctor_id token
    /\ Token.source moved = Token.source token
    /\ Token.status moved = Token.status token
    /\ Token.priority_score moved = Token.priority_score token
    /\ Token.allocated_at moved = Token.allocated_at token
    /\ Token.slot_id moved = new_slot_id
    /\ (occupying (Token.status token) = true ->
        In moved (slot_queue new_slot_id (tokens (session db'))))
    /\ map Token.sequence_number (slot_queue new_slot_id (tokens (session db')))
       = count_from 1 (slot_queue new_slot_id (tokens (session db')))
    /\ map Token.sequence_number
         (slot_queue (Token.slot_id token) (tokens (session db')))
       = count_from 1 (slot_queue (Token.slot_id token) (tokens (session db')))
    /\ unique_token_ids (session db').
Proof.
  exact (reallocate_token_returns token_id new_slot_id reason db db' moved).
Qed.

Lemma reallocate_token_resequences_witness :
  exists db' moved,
    reallocate_token 1 2 None two_queues = (db', inr moved)
    /\ Token.slot_id moved = 2
    /\ Token.status moved = ALLOCATED
    /\ In moved (slot_queue 2 (tokens (session db')))
    /\ map Token.sequence_number (slot_queue 2 (tokens (session db')))
       = count_from 1 (slot_queue 2 (tokens (session db')))
    /\ map Token.sequence_number (slot_queue 1 (tokens (session db')))
       = count_from 1 (slot_queue 1 (tokens (session db'))).
Proof.
  assert (unique_token_ids (session two_queues)) as Hunique.
  { unfold unique_token_ids. vm_compute.
    repeat constructor; simpl; intuition congruence. }
  assert (exists db' moved, reallocate_token 1 2 None two_queues = (db', inr moved))
    as (db' & moved & E) by (vm_compute; eauto).
  destruct (reallocate_token_resequences 1 2 None two_queues db' moved Hunique E)
    as (token & Htok & _ & _ & _ & _ & Hst & _ & _ & Hslot & Hin & Hnew & Hold & _).
  vm_compute in Htok. injection Htok as <-.
  exists db', moved. repeat split; try assumption. now apply Hin.
Defined.

(** * The alternative slot in allocation and in the bump *)

(** ** The query of [_find_alternative_slot] *)

(** No slot with room of that doctor on that date starts before the one the
    query returns. *)
Lemma alternative_slot_least (doctor_id : Z) (date : string) (l : list TimeSlot.t)
    (s s' : TimeSlot.t) :
  alternative_slot doctor_id date l = Some s ->
  In s' l ->
  TimeSlot.doctor_id s' = doctor_id ->
  TimeSlot.date s' = date ->
  TimeSlot.is_active s' = true ->
  TimeSlot.current_count s' < TimeSlot.max_capacity s' ->
  String.leb (TimeSlot.start_time s) (TimeSlot.start_time s') = true.
Proof.
  unfold alternative_slot. intros H Hin Hdoc Hdate Hact Hroom.
  apply order_by_head in H.
  - destruct H as [_ Hmin]. apply Hmin, filter_In. split; [exact Hin|].
    rewrite Hdoc, Hdate, Hact, Z.eqb_refl, String.eqb_refl.
    apply Z.ltb_lt in Hroom. now rewrite Hroom.
  - intros a b. apply String.leb_total.
  - intros a b c. apply string_leb_trans.
Qed.

(** The query returns nothing only when every active slot of that doctor on
    that date is full. *)
Lemma alternative_slot_none (doctor_id : Z) (date : string) (l : list TimeSlot.t)
    (s' : TimeSlot.t) :
  alternative_slot doctor_id date l = None ->
  In s' l ->
  TimeSlot.doctor_id s' = doctor_id ->
  TimeSlot.date s' = date ->
  TimeSlot.is_active s' = true ->
  TimeSlot.max_capacity s' <= TimeSlot.current_count s'.
Proof.
  unfold alternative_slot. intros H Hin Hdoc Hdate Hact.
  apply order_by_head_none in H.
  destruct (Z.lt_ge_cases (TimeSlot.current_count s') (TimeSlot.max_capacity s'))
    as [Hroom|Hfull]; [|exact Hfull].
  assert (In s' []) as Hnil; [|destruct Hnil].
  rewrite <- H. apply filter_In. split; [exact Hin|].
  rewrite Hdoc, Hdate, Hact, Z.eqb_refl, String.eqb_refl.
  apply Z.ltb_lt in Hroom. now rewrite Hroom.
Qed.

Lemma find_slot_unique (l : list TimeSlot.t) (s : TimeSlot.t) :
  NoDup (map TimeSlot.id l) -> In s l -> find_slot (TimeSlot.id s) l = Some s.
Proof.
  unfold find_slot. induction l as [|x r IH]; simpl; intros Hnd Hin; [destruct Hin|].
  apply NoDup_cons_iff in Hnd. destruct Hnd as [Hx Hr].
  destruct Hin as [->|Hin]; [now rewrite Z.eqb_refl|].
  destruct (TimeSlot.id x =? TimeSlot.id s) eqn:E; [|now apply IH].
  apply Z.eqb_eq in E. elim Hx. rewrite E. now apply in_map.
Qed.

(** Resequencing writes [sequence_number] only. *)
Lemma renumber_field {B : Type} (g : Token.t -> B) (queue : list Token.t) :
  (forall n k, g (Token.set_sequence_number n k) = g k) ->
  forall idx l, map g (renumber idx queue l) = map g l.
Proof.
  intros Hg. induction queue as [|t r IH]; intros idx l; simpl; [reflexivity|].
  rewrite IH. clear IH. induction l as [|k l IHl]; simpl; [reflexivity|].
  destruct (Token.id k =? Token.id t); simpl; [now rewrite Hg|now rewrite IHl].
Qed.

Lemma update_token_field {B : Type} (g : Token.t -> B) (token_id : Z)
    (f f' : Token.t -> Token.t) (l : list Token.t) :
  (forall k, g (f k) = g (f' k)) ->
  map g (update_token token_id f l) = map g (update_token token_id f' l).
Proof.
  intros Hg. induction l as [|k l IH]; simpl; [reflexivity|].
  destruct (Token.id k =? token_id); simpl; [now rewrite Hg|now rewrite IH].
Qed.

(** ** Allocation on a full slot *)

(** X1. On an active slot that is full ([is_full]), [allocate_token] raises
    and changes nothing.  The slots the error may name are the active slots
    of the request's doctor on the slot's date that are not full: when there
    is one, the error names one of them that no other starts before, with its
    times; when there is none, the error is "at maximum capacity". *)
Theorem allocate_token_on_full_slot (now : datetime) (request : TokenRequest.t)
    (db : Db) (slot : TimeSlot.t) :
  find_slot (TokenRequest.slot_id request) (slots (session db)) = Some slot ->
  TimeSlot.is_active slot = true ->
  TimeSlot.is_full slot = true ->
  let candidate s :=
    In s (slots (session db))
    /\ TimeSlot.doctor_id s = TokenRequest.doctor_id request
    /\ TimeSlot.date s = TimeSlot.date slot
    /\ TimeSlot.is_active s = true
    /\ TimeSlot.is_full s = false in
  (exists alternative,
      candidate alternative
      /\ (forall s, candidate s ->
                    String.leb (TimeSlot.start_time alternative)
                      (TimeSlot.start_time s) = true)
      /\ allocate_token now request db
         = (db,
            inl (ValueError
                   (SlotFullAlternative (TimeSlot.id slot) (TimeSlot.id alternative)
                      (TimeSlot.start_time alternative)
                      (TimeSlot.end_time alternative)))))
  \/ ((forall s, ~ candidate s)
      /\ allocate_token now request db
         = (db, inl (ValueError (SlotAtMaximumCapacity (TimeSlot.id slot))))).
Proof.
  intros Hslot Hact Hfull. cbv zeta.
  assert (allocate_token now request db
          = (db,
             inl (ValueError
                    match alternative_slot (TokenRequest.doctor_id request)
                            (TimeSlot.date slot) (slots (session db)) with
                    | Some alternative =>
                        SlotFullAlternative (TimeSlot.id slot) (TimeSlot.id alternative)
                          (TimeSlot.start_time alternative)
                          (TimeSlot.end_time alternative)
                    | None => SlotAtMaximumCapacity (TimeSlot.id slot)
                    end))) as Hcall.
  { unfold TimeSlot.is_full in Hfull.
    unfold allocate_token. rewrite bind_run, _get_slot_with_validation_run.
    rewrite Hslot, Hact, Hfull. run_engine.
    now destruct (alternative_slot _ _ _). }
  destruct (alternative_slot (TokenRequest.doctor_id request) (TimeSlot.date slot)
              (slots (session db))) as [alternative|] eqn:Halt.
  - left. exists alternative.
    destruct (alternative_slot_some _ _ _ _ Halt) as (A1 & A2 & A3 & A4 & A5).
    split; [|split; [|exact Hcall]].
    + repeat (split; [assumption|]). now apply is_full_false_iff.
    + intros s (S1 & S2 & S3 & S4 & S5). apply is_full_false_iff in S5.
      now apply (alternative_slot_least _ _ _ _ _ Halt).
  - right. split; [|exact Hcall].
    intros s (S1 & S2 & S3 & S4 & S5). apply is_full_false_iff in S5.
    pose proof (alternative_slot_none _ _ _ _ Halt S1 S2 S3 S4). lia.
Qed.

Lemma allocate_token_on_full_slot_witness :
  exists alternative,
    TimeSlot.doctor_id alternative = 2
    /\ TimeSlot.is_full alternative = false
    /\ allocate_token (Scenario.at_hour 1 9) Scenario.mismatched
         (Scenario.after (allocate_token (Scenario.at_hour 1 8) Scenario.mismatched)
            Scenario.two_doctors)
       = (Scenario.after (allocate_token (Scenario.at_hour 1 8) Scenario.mismatched)
            Scenario.two_doctors,
          inl (ValueError
                 (SlotFullAlternative 1 (TimeSlot.id alternative)
                    (TimeSlot.start_time alternative)
                    (TimeSlot.end_time alternative)))).
Proof.
  destruct (allocate_token_on_full_slot (Scenario.at_hour 1 9) Scenario.mismatched
              (Scenario.after (allocate_token (Scenario.at_hour 1 8) Scenario.mismatched)
                 Scenario.two_doctors)
              (TimeSlot.mk 1 1 "2030-01-01" "09:00" "10:00" 1 1 true)
              eq_refl eq_refl eq_refl)
    as [(alternative & (_ & Hdoc & _ & _ & Hroom) & _ & E)|(_ & E)].
  - exists alternative. split; [exact Hdoc|]. split; [exact Hroom|exact E].
  - vm_compute in E. discriminate.
Defined.

(** ** Emergency insertion past the capacity test *)



(** ** Emergency insertion without force on a full slot *)

(** C7, amended. On a full, active slot of a database with pairwise
    distinct primary keys, emergency insertion without force picks as bump
    victim the token of lowest [priority_score] among the tokens of that slot
    whose source is WALK_IN and whose status is exactly [ALLOCATED]
    (checked-in and consulting walk-ins are passed over), the most recently
    allocated one among those of lowest score.  Without a victim, or when
    every active slot of the victim's doctor on the slot's date is full, the
    call raises "slot full and no reallocation possible" and changes nothing.
    Otherwise the alternative is an active slot with room, of the victim's
    doctor and the slot's date, that no other such slot starts before, and the
    reallocation of the victim to it returns: the victim's row now carries the
    alternative slot, still [ALLOCATED], and is in that slot's queue and no
    longer in the full slot's; no other token has changed slot; the full
    slot's counter is released by one (floored at 0) and the alternative's is
    one higher; this is committed.  The call is then the allocation of the
    request as PRIORITY, and its annotation, on that database. *)
Theorem emergency_bump (now : datetime) (request : TokenRequest.t) (db : Db)
    (slot : TimeSlot.t) :
  unique_token_ids (session db) ->
  unique_slot_ids (session db) ->
  find_slot (TokenRequest.slot_id request) (slots (session db)) = Some slot ->
  TimeSlot.is_active slot = true ->
  TimeSlot.max_capacity slot <= TimeSlot.current_count slot ->
  match lowest_priority_walk_in (TimeSlot.id slot) (tokens (session db)) with
  | None =>
      (forall k,
          In k (tokens (session db)) ->
          Token.slot_id k = TimeSlot.id slot ->
          Token.source k = WALK_IN ->
          Token.status k <> ALLOCATED)
      /\ handle_emergency_insertion now request false db
         = (db, inl (ValueError NoReallocationPossible))
  | Some victim =>
      In victim (tokens (session db))
      /\ Token.slot_id victim = TimeSlot.id slot
      /\ Token.source victim = WALK_IN
      /\ Token.status victim = ALLOCATED
      /\ (forall k,
             In k (tokens (session db)) ->
             Token.slot_id k = TimeSlot.id slot ->
             Token.source k = WALK_IN ->
             Token.status k = ALLOCATED ->
             Token.priority_score victim <= Token.priority_score k
             /\ (Token.priority_score k = Token.priority_score victim ->
                 datetime_leb (Token.allocated_at k) (Token.allocated_at victim)
                 = true))
      /\ match alternative_slot (Token.doctor_id victim) (TimeSlot.date slot)
                 (slots (session db)) with
         | None =>
             (forall s,
                 In s (slots (session db)) ->
                 TimeSlot.doctor_id s = Token.doctor_id victim ->
                 TimeSlot.date s = TimeSlot.date slot ->
                 TimeSlot.is_active s = true ->
                 TimeSlot.max_capacity s <= TimeSlot.current_count s)
             /\ handle_emergency_insertion now request false db
                = (db, inl (ValueError NoReallocationPossible))
         | Some alternative =>
             In alternative (slots (session db))
             /\ TimeSlot.doctor_id alternative = Token.doctor_id victim
             /\ TimeSlot.date alternative = TimeSlot.date slot
             /\ TimeSlot.is_active alternative = true
             /\ TimeSlot.current_count alternative < TimeSlot.max_capacity alternative
             /\ (forall s,
                    In s (slots (session db)) ->
                    TimeSlot.doctor_id s = Token.doctor_id victim ->
                    TimeSlot.date s = TimeSlot.date slot ->
                    TimeSlot.is_active s = true ->
                    TimeSlot.current_count s < TimeSlot.max_capacity s ->
                    String.leb (TimeSlot.start_time alternative)
                      (TimeSlot.start_time s) = true)
             /\ exists bumped moved,
                  reallocate_token (Token.id victim) (TimeSlot.id alternative)
                    (Some "Auto-reallocation for emergency insertion"%string) db
                  = (bumped, inr moved)
                  /\ find_token (Token.id victim) (tokens (session bumped))
                     = Some moved
                  /\ Token.slot_id moved = TimeSlot.id alternative
                  /\ Token.status moved = ALLOCATED
                  /\ In moved
                       (slot_queue (TimeSlot.id alternative)
                          (tokens (session bumped)))
                  /\ (forall k,
                         In k (slot_queue (TimeSlot.id slot)
                                 (tokens (session bumped))) ->
                         Token.id k <> Token.id victim)
                  /\ map Token.slot_id (tokens (session bumped))
                     = map Token.slot_id
                         (update_token (Token.id victim)
                            (Token.set_slot_id (TimeSlot.id alternative))
                            (tokens (session db)))
                  /\ count_of (TimeSlot.id slot) (session bumped)
                     = Some (Z.max 0 (TimeSlot.current_count slot - 1))
                  /\ count_of (TimeSlot.id alternative) (session bumped)
                     = Some (TimeSlot.current_count alternative + 1)
                  /\ committed bumped = session bumped
                  /\ handle_emergency_insertion now request false db
                     = (token <- allocate_token now
                                   (TokenRequest.set_source PRIORITY request) ;;
                        modify_token (Token.id token)
                          (Token.annotate "" "EMERGENCY INSERTION") ;;
                        db_flush ;;
                        current token) bumped
         end
  end.
Proof.
  intros Hu Hs Hslot Hact Hfull.
  pose proof (find_slot_id _ _ _ Hslot) as Hid.
  assert (handle_emergency_insertion now request false db
          = (let (db', r) := _reallocate_lowest_priority (TimeSlot.id slot) db in
             match r with
             | inl e => (db', inl e)
             | inr true =>
                 (token <- allocate_token now
                             (TokenRequest.set_source PRIORITY request) ;;
                  modify_token (Token.id token)
                    (Token.annotate "" "EMERGENCY INSERTION") ;;
                  db_flush ;;
                  current token) db'
             | inr false => (db', inl (ValueError NoReallocationPossible))
             end)) as Hcall.
  { unfold handle_emergency_insertion.
    unfold bind at 1. rewrite _get_slot_with_validation_run, Hslot, Hact.
    pose proof Hfull as Hgeb. apply Z.geb_le in Hgeb. rewrite Hgeb. cbn [andb negb].
    unfold bind at 1. unfold bind at 1.
    destruct (_reallocate_lowest_priority (TimeSlot.id slot) db) as [db1 [e|[|]]];
      reflexivity. }
  rewrite _reallocate_lowest_priority_run in Hcall.
  destruct (lowest_priority_walk_in (TimeSlot.id slot) (tokens (session db)))
    as [victim|] eqn:Hvictim;
    [|split; [now apply lowest_priority_walk_in_none | exact Hcall]].
  destruct (lowest_priority_walk_in_some _ _ _ Hvictim) as (V1 & V2 & V3 & V4 & V5).
  repeat (split; [assumption|]).
  rewrite _get_slot_with_validation_run, Hid, Hslot, Hact in Hcall.
  destruct (alternative_slot (Token.doctor_id victim) (TimeSlot.date slot)
              (slots (session db))) as [alternative|] eqn:Halt.
  2:{ split; [|exact Hcall]. intros s S1 S2 S3 S4.
      exact (alternative_slot_none _ _ _ _ Halt S1 S2 S3 S4). }
  destruct (alternative_slot_some _ _ _ _ Halt) as (A1 & A2 & A3 & A4 & A5).
  repeat (split; [assumption|]).
  split.
  { intros s S1 S2 S3 S4 S5.
    exact (alternative_slot_least _ _ _ _ _ Halt S1 S2 S3 S4 S5). }
  pose proof (find_token_unique _ _ Hu V1) as Htok.
  pose proof (find_slot_unique _ _ Hs A1) as Hnew.
  assert (find_slot (Token.slot_id victim) (slots (session db)) = Some slot) as Hold
      by (rewrite V2, Hid; exact Hslot).
  assert (TimeSlot.id slot <> TimeSlot.id alternative) as Hneq.
  { intros E. rewrite <- E, Hid, Hslot in Hnew. injection Hnew as <-. lia. }
  pose proof (reallocate_token_steps (Token.id victim) (TimeSlot.id alternative)
                (Some "Auto-reallocation for emergency insertion"%string)
                db victim slot alternative Htok Hold Hnew Hact A4 (eq_sym A2) A5)
    as Hsteps.
  cbv zeta in Hsteps.
  pose proof (reallocate_token_run (Token.id victim) (TimeSlot.id alternative)
                (Some "Auto-reallocation for emergency insertion"%string) db)
    as Hrun.
  destruct (reallocate_token (Token.id victim) (TimeSlot.id alternative)
              (Some "Auto-reallocation for emergency insertion"%string) db)
    as [bumped [e|moved]] eqn:Hre; [discriminate|].
  destruct Hrun as (token & old_slot & new_slot & Htok' & Hold' & Hnew' & _ & _ & _
                    & _ & Hslots & Hcom & Hfind & Hsl).
  rewrite Htok in Htok'. injection Htok' as <-.
  rewrite Hold in Hold'. injection Hold' as <-.
  rewrite Hnew in Hnew'. injection Hnew' as <-.
  destruct (reallocate_token_returns _ _ _ _ _ _ Hu Hre)
    as (token & Htok' & _ & _ & _ & _ & Hst & _ & _ & _ & Hqueue & _ & _ & Hu').
  rewrite Htok in Htok'. injection Htok' as <-.
  exists bumped, moved. split; [reflexivity|]. split; [exact Hfind|].
  split; [exact Hsl|]. split; [now rewrite Hst|].
  split; [apply Hqueue; now rewrite V4|].
  split.
  { intros k Hk Hkey. apply in_slot_queue in Hk. destruct Hk as (Hk & Hkslot & _).
    assert (In moved (tokens (session bumped))) as Hm
        by (unfold find_token in Hfind; now apply find_some in Hfind).
    assert (k = moved) as ->.
    { apply (same_key_same_row (tokens (session bumped))); try assumption.
      rewrite Hkey. symmetry. exact (find_token_id _ _ _ Hfind). }
    congruence. }
  split.
  { injection Hsteps as -> _.
    repeat (rewrite _resequence_slot_tokens_eq; cbv zeta;
            cbn [fst session tokens]).
    rewrite !renumber_field by reflexivity.
    apply update_token_field. reflexivity. }
  split.
  { unfold count_of. rewrite Hslots.
    rewrite !find_slot_update by (apply release_id || apply reserve_id).
    rewrite V2. apply Z.eqb_neq in Hneq.
    rewrite (Z.eqb_sym (TimeSlot.id alternative)), Hneq, Z.eqb_refl.
    rewrite <- V2, Hold. reflexivity. }
  split.
  { unfold count_of. rewrite Hslots.
    rewrite !find_slot_update by (apply release_id || apply reserve_id).
    rewrite V2. apply Z.eqb_neq in Hneq.
    rewrite Z.eqb_refl, Hneq, Hnew. reflexivity. }
  split; [exact Hcom|exact Hcall].
Qed.

Lemma emergency_bump_witness :
  exists bumped moved db' token,
    reallocate_token 1 2 (Some "Auto-reallocation for emergency insertion"%string)
      Scenario.two_slots_booked
    = (bumped, inr moved)
    /\ Token.slot_id moved = 2
    /\ In moved (slot_queue 2 (tokens (session bumped)))
    /\ count_of 1 (session bumped) = Some 0
    /\ count_of 2 (session bumped) = Some 1
    /\ handle_emergency_insertion (Scenario.at_hour 1 9)
         (Scenario.request "C" 1 1 WALK_IN) false Scenario.two_slots_booked
       = (db', inr token)
    /\ Token.source token = PRIORITY
    /\ Token.slot_id token = 1.
Proof.
  assert (unique_token_ids (session Scenario.two_slots_booked)) as Hu.
  { unfold unique_token_ids. vm_compute.
    repeat constructor; simpl; intuition congruence. }
  assert (unique_slot_ids (session Scenario.two_slots_booked)) as Hs.
  { unfold unique_slot_ids. vm_compute.
    repeat constructor; simpl; intuition congruence. }
  pose proof (emergency_bump (Scenario.at_hour 1 9)
                (Scenario.request "C" 1 1 WALK_IN) Scenario.two_slots_booked
                (TimeSlot.mk 1 1 "2030-01-01" "09:00" "10:00" 1 1 true)
                Hu Hs eq_refl eq_refl (Z.le_refl 1)) as H.
  destruct (lowest_priority_walk_in _ _) as [victim|] eqn:Hvictim in H;
    [|vm_compute in Hvictim; discriminate].
  vm_compute in Hvictim. injection Hvictim as <-.
  destruct H as (_ & _ & _ & _ & _ & H).
  destruct (alternative_slot _ _ _) as [alternative|] eqn:Halt in H;
    [|vm_compute in Halt; discriminate].
  vm_compute in Halt. injection Halt as <-.
  destruct H as (_ & _ & _ & _ & _ & _ & bumped & moved & Hre & _ & Hslot & _ & Hin
                 & _ & _ & Hc1 & Hc2 & _ & Hcall).
  cbn [Token.id TimeSlot.id TimeSlot.current_count] in *.
  assert (exists db' token,
             handle_emergency_insertion (Scenario.at_hour 1 9)
               (Scenario.request "C" 1 1 WALK_IN) false Scenario.two_slots_booked
             = (db', inr token)
             /\ Token.source token = PRIORITY
             /\ Token.slot_id token = 1) as (db' & token & E & Hsrc & Htslot).
  { do 2 eexists. split; [vm_compute; reflexivity|]. split; reflexivity. }
  exists bumped, moved, db', token. repeat split; assumption.
Defined.
